(** * Vmize Studio: metered try-on gateway, analytics tracker and monthly billing

  A shallow embedding of
  - [analytics-tracker.js] (class [AnalyticsTracker]),
  - [vmize-proxy-server-with-analytics.js] (the gateway mounted on the
    legacy [/api] routes),
  - [vmize-proxy-server.js] (the plain proxy),
  - the monthly billing job of [server.js],
  followed by the properties established about them.

  JavaScript numbers that the code only counts with are integers of [Z];
  objects used as dictionaries are finite maps, except [dailyStats], whose
  key order [loadData] depends on and which is therefore an association
  list in insertion order. Clocks, random identifiers, the disk and the
  upstream provider are inputs of the operations that consult them. *)

From Stdlib Require Import ZArith QArith String Ascii List Lia.
From stdpp Require Import base option list strings pretty gmap fin_maps.
Import ListNotations.
Local Open Scope Z_scope.

(** ** The fragment of JavaScript the code relies on *)

Module Js.

(** Values that [JSON.parse] can produce. Numbers are restricted to
    integers. *)
#[warnings="-register-all"]
Inductive json :=
| JNull
| JBool (b : bool)
| JNum (n : Z)
| JStr (s : string)
| JArr (l : list json)
| JObj (l : list (string * json)).

(** [!!v] *)
Definition truthy (v : json) : bool :=
  match v with
  | JNull => false
  | JBool b => b
  | JNum n => negb (n =? 0)
  | JStr s => negb (String.eqb s "")
  | JArr _ | JObj _ => true
  end.

(** SameValueZero, the equality of [Set]: structural on primitives, by
    reference on arrays and objects (two parsed ones are never the same
    reference). *)
Definition same_value_zero (a b : json) : bool :=
  match a, b with
  | JNull, JNull => true
  | JBool x, JBool y => Bool.eqb x y
  | JNum x, JNum y => x =? y
  | JStr x, JStr y => String.eqb x y
  | _, _ => false
  end.

(** A [Set] is its elements in insertion order. *)
Definition set_has (x : json) (s : list json) : bool :=
  existsb (same_value_zero x) s.

Definition set_add (x : json) (s : list json) : list json :=
  if set_has x s then s else s ++ [x].

Definition set_of_list (l : list json) : list json :=
  fold_left (fun acc x => set_add x acc) l [].

(** Iterating a string yields its characters. *)
Definition chars (s : string) : list json :=
  map (fun c => JStr (String c EmptyString)) (list_ascii_of_string s).

(** [new Set(v)]: [None] is the [TypeError] raised for a value that is not
    iterable. *)
Definition new_Set (v : json) : option (list json) :=
  match v with
  | JNull => Some []
  | JArr l => Some (set_of_list l)
  | JStr s => Some (set_of_list (chars s))
  | JBool _ | JNum _ | JObj _ => None
  end.

(** A customer id as the handlers pass it: a string or [null]. *)
Definition cid := option string.

Definition cid_json (c : cid) : json :=
  match c with Some s => JStr s | None => JNull end.

(** [String(c)], the property key that [obj[c]] uses. *)
Definition cid_key (c : cid) : string :=
  match c with Some s => s | None => "null" end.

(** [!!c] *)
Definition cid_truthy (c : cid) : bool :=
  match c with Some s => negb (String.eqb s "") | None => false end.

(** [iso.split('T')[0]] *)
Fixpoint before_T (s : string) : string :=
  match s with
  | EmptyString => EmptyString
  | String c r => if Ascii.eqb c "T" then EmptyString else String c (before_T r)
  end.

(** The result of a call that may throw. *)
Inductive outcome (A : Type) :=
| Ok (a : A)
| Throw (msg : string).
Arguments Ok {A} a.
Arguments Throw {A} msg.

End Js.

(** ** analytics-tracker.js *)

Module Analytics.
Import Js.

(** [data.status] is compared with ['success'] and with [200]. *)
Inductive status :=
| StStr (s : string)
| StNum (n : Z).

(** [data.status === 'success' || data.status === 200] *)
Definition is_success (s : status) : bool :=
  match s with
  | StStr x => String.eqb x "success"
  | StNum n => n =? 200
  end.

(** The argument of [trackApiCall]. *)
Record callData := mkCallData {
  cd_customerId : cid;
  cd_apiKey : option string;
  cd_endpoint : string;
  cd_method : string;
  cd_status : status;
  cd_duration : Z;
  cd_productId : option string;
  cd_error : option string
}.

Record apiCall := mkApiCall {
  call_id : string;
  call_customerId : string;
  call_apiKey : option string;
  call_endpoint : string;
  call_method : string;
  call_status : status;
  call_duration : Z;
  call_timestamp : string;
  call_productId : option string;
  call_error : option string
}.

(** An entry of [data.customers]. *)
Record rollup := mkRollup {
  totalCalls : Z;
  successfulCalls : Z;
  failedCalls : Z;
  totalDuration : Z;
  firstSeen : string;
  lastSeen : string;
  cust_revenue : Z
}.

(** What the [uniqueCustomers] field of a day holds at run time: a [Set],
    or whatever [JSON.parse] left there. *)
Inductive ucoll :=
| USet (ids : list json)
| UPlain (v : json).

(** An entry of [data.dailyStats]. *)
Record day := mkDay {
  day_totalCalls : Z;
  day_successfulCalls : Z;
  day_failedCalls : Z;
  uniqueCustomers : ucoll;
  day_revenue : Z
}.

Record data := mkData {
  apiCalls : list apiCall;
  customers : gmap string rollup;
  dailyStats : list (string * day);
  eventCounts : gmap string Z;
  revenue : Z;
  startDate : string
}.

(** The tracker object and the file [analytics-data.json]; [None] is a
    file that is missing or does not parse. *)
Record tracker := mkTracker {
  tdata : data;
  file : option data
}.

(** What one operation reads from its surroundings: [new Date()] as an ISO
    string, [Date.now()] and the random suffix of a call id, and whether
    [fs.writeFile] succeeds. *)
Record env := mkEnv {
  iso : string;
  millis : string;
  rand : string;
  disk_ok : bool
}.

(** The argument [data] of [trackEvent], an object. *)
Record eventData := mkEventData {
  ev_customerId : cid;
  ev_revenue : option Z
}.

(** *** Association list of days *)

Fixpoint day_lookup (k : string) (l : list (string * day)) : option day :=
  match l with
  | [] => None
  | (k', d) :: r => if String.eqb k k' then Some d else day_lookup k r
  end.

Fixpoint day_alter (f : day -> day) (k : string) (l : list (string * day))
  : list (string * day) :=
  match l with
  | [] => []
  | (k', d) :: r =>
      if String.eqb k k' then (k', f d) :: r else (k', d) :: day_alter f k r
  end.

(** *** Constructor and [reset] *)

Definition initialCounts : gmap string Z :=
  <["tryon_initiated" := 0]> (<["photo_uploaded" := 0]> (<["result_generated" := 0]>
  (<["result_viewed" := 0]> (<["add_to_cart" := 0]> (<["purchase" := 0]>
  (<["api_error" := 0]> ∅)))))).

Definition initialData (startedAt : string) : data :=
  {| apiCalls := [];
     customers := ∅;
     dailyStats := [];
     eventCounts := initialCounts;
     revenue := 0;
     startDate := startedAt |}.

(** *** [saveData] and [loadData] *)

(** [JSON.stringify] of a day: a [Set] has no enumerable property, so it is
    written as the empty object. *)
Definition stringify_ucoll (u : ucoll) : ucoll :=
  match u with
  | USet _ => UPlain (JObj [])
  | UPlain v => UPlain v
  end.

Definition stringify_day (d : day) : day :=
  {| day_totalCalls := day_totalCalls d;
     day_successfulCalls := day_successfulCalls d;
     day_failedCalls := day_failedCalls d;
     uniqueCustomers := stringify_ucoll (uniqueCustomers d);
     day_revenue := day_revenue d |}.

(** The content of the file after [JSON.stringify(this.data, null, 2)] and
    as [JSON.parse] reads it back. *)
Definition stringify (d : data) : data :=
  {| apiCalls := apiCalls d;
     customers := customers d;
     dailyStats := map (fun kd => (fst kd, stringify_day (snd kd))) (dailyStats d);
     eventCounts := eventCounts d;
     revenue := revenue d;
     startDate := startDate d |}.

(** [saveData]: a failed write is logged and swallowed. *)
Definition saveData (ok : bool) (t : tracker) : tracker :=
  if ok then {| tdata := tdata t; file := Some (stringify (tdata t)) |} else t.

Definition with_unique (u : ucoll) (d : day) : day :=
  {| day_totalCalls := day_totalCalls d;
     day_successfulCalls := day_successfulCalls d;
     day_failedCalls := day_failedCalls d;
     uniqueCustomers := u;
     day_revenue := day_revenue d |}.

(** The body of the loop of [loadData] for one day; [None] when
    [new Set(...)] throws. *)
Definition restore_day (d : day) : option day :=
  match uniqueCustomers d with
  | USet _ => Some d
  | UPlain v =>
      if truthy v then
        match new_Set v with
        | Some s => Some (with_unique (USet s) d)
        | None => None
        end
      else Some d
  end.

(** The loop over [Object.keys(this.data.dailyStats)]: the days restored
    so far are kept when a later one throws. The boolean tells whether it
    threw. *)
Fixpoint restore (l : list (string * day)) : list (string * day) * bool :=
  match l with
  | [] => ([], false)
  | (k, d) :: r =>
      match restore_day d with
      | Some d' => let (r', threw) := restore r in ((k, d') :: r', threw)
      | None => ((k, d) :: r, true)
      end
  end.

Definition with_days (l : list (string * day)) (d : data) : data :=
  {| apiCalls := apiCalls d;
     customers := customers d;
     dailyStats := l;
     eventCounts := eventCounts d;
     revenue := revenue d;
     startDate := startDate d |}.

(** [loadData]: any exception of the [try] block (no file, no parse, a
    [TypeError] of the loop) ends in [saveData] on whatever [this.data] is
    by then. *)
Definition loadData (ok : bool) (t : tracker) : tracker :=
  match file t with
  | None => saveData ok t
  | Some img =>
      let (days, threw) := restore (dailyStats img) in
      let t' := {| tdata := with_days days img; file := file t |} in
      if threw then saveData ok t' else t'
  end.

(** *** [trackApiCall] *)

Definition freshRollup (stamp : string) : rollup :=
  {| totalCalls := 0;
     successfulCalls := 0;
     failedCalls := 0;
     totalDuration := 0;
     firstSeen := stamp;
     lastSeen := stamp;
     cust_revenue := 0 |}.

(** [customer.totalCalls++], the duration, [lastSeen] and one of the two
    outcome counters. *)
Definition countCall (c : callData) (stamp : string) (r : rollup) : rollup :=
  {| totalCalls := totalCalls r + 1;
     successfulCalls :=
       if is_success (cd_status c) then successfulCalls r + 1 else successfulCalls r;
     failedCalls :=
       if is_success (cd_status c) then failedCalls r else failedCalls r + 1;
     totalDuration := totalDuration r + cd_duration c;
     firstSeen := firstSeen r;
     lastSeen := stamp;
     cust_revenue := cust_revenue r |}.

Definition freshDay : day :=
  {| day_totalCalls := 0;
     day_successfulCalls := 0;
     day_failedCalls := 0;
     uniqueCustomers := USet [];
     day_revenue := 0 |}.

(** [if (!this.data.dailyStats[dateKey]) this.data.dailyStats[dateKey] = {...}] *)
Definition day_ensure (k : string) (l : list (string * day)) : list (string * day) :=
  match day_lookup k l with
  | Some _ => l
  | None => l ++ [(k, freshDay)]
  end.

Definition bumpTotal (d : day) : day :=
  {| day_totalCalls := day_totalCalls d + 1;
     day_successfulCalls := day_successfulCalls d;
     day_failedCalls := day_failedCalls d;
     uniqueCustomers := uniqueCustomers d;
     day_revenue := day_revenue d |}.

(** Whether [uniqueCustomers.add] exists. *)
Definition has_add (d : day) : bool :=
  match uniqueCustomers d with
  | USet _ => true
  | UPlain _ => false
  end.

Definition addCustomer (c : cid) (d : day) : day :=
  match uniqueCustomers d with
  | USet s => with_unique (USet (set_add (cid_json c) s)) d
  | UPlain _ => d
  end.

Definition bumpOutcome (success : bool) (d : day) : day :=
  {| day_totalCalls := day_totalCalls d;
     day_successfulCalls :=
       if success then day_successfulCalls d + 1 else day_successfulCalls d;
     day_failedCalls :=
       if success then day_failedCalls d else day_failedCalls d + 1;
     uniqueCustomers := uniqueCustomers d;
     day_revenue := day_revenue d |}.

Definition newCall (e : env) (c : callData) : apiCall :=
  {| call_id := "call_" +:+ millis e +:+ "_" +:+ rand e;
     call_customerId :=
       if cid_truthy (cd_customerId c) then cid_key (cd_customerId c) else "unknown";
     call_apiKey := cd_apiKey c;
     call_endpoint := cd_endpoint c;
     call_method := cd_method c;
     call_status := cd_status c;
     call_duration := cd_duration c;
     call_timestamp := iso e;
     call_productId := cd_productId c;
     call_error := cd_error c |}.

(** [trackApiCall]. The call log and the customer rollup are updated first;
    the day is created if absent and its total incremented; then
    [uniqueCustomers.add] runs, which throws a [TypeError] when the field is
    not a [Set], leaving what was done so far and skipping the outcome
    counter of the day and [saveData]. *)
Definition trackApiCall (e : env) (c : callData) (t : tracker)
  : tracker * outcome apiCall :=
  let d := tdata t in
  let dateKey := before_T (iso e) in
  let call := newCall e c in
  let key := cid_key (cd_customerId c) in
  let custs :=
    alter (countCall c (iso e)) key
      (match customers d !! key with
       | Some _ => customers d
       | None => <[key := freshRollup (iso e)]> (customers d)
       end) in
  let days := day_alter bumpTotal dateKey (day_ensure dateKey (dailyStats d)) in
  let upto (l : list (string * day)) :=
    {| apiCalls := apiCalls d ++ [call];
       customers := custs;
       dailyStats := l;
       eventCounts := eventCounts d;
       revenue := revenue d;
       startDate := startDate d |} in
  match day_lookup dateKey days with
  | Some dy =>
      if has_add dy then
        let days' :=
          day_alter
            (fun x => bumpOutcome (is_success (cd_status c)) (addCustomer (cd_customerId c) x))
            dateKey days in
        (saveData (disk_ok e) {| tdata := upto days'; file := file t |}, Ok call)
      else
        ({| tdata := upto days; file := file t |},
         Throw "this.data.dailyStats[dateKey].uniqueCustomers.add is not a function")
  | None =>
      ({| tdata := upto days; file := file t |},
       Throw "Cannot read properties of undefined")
  end.

(** *** [trackEvent] *)

Definition addRollupRevenue (r : Z) (x : rollup) : rollup :=
  {| totalCalls := totalCalls x;
     successfulCalls := successfulCalls x;
     failedCalls := failedCalls x;
     totalDuration := totalDuration x;
     firstSeen := firstSeen x;
     lastSeen := lastSeen x;
     cust_revenue := cust_revenue x + r |}.

Definition addDayRevenue (r : Z) (x : day) : day :=
  {| day_totalCalls := day_totalCalls x;
     day_successfulCalls := day_successfulCalls x;
     day_failedCalls := day_failedCalls x;
     uniqueCustomers := uniqueCustomers x;
     day_revenue := day_revenue x + r |}.

(** [this.data.eventCounts[eventName]++], or [= 1] for a name not yet
    there. *)
Definition countEvent (eventName : string) (m : gmap string Z) : gmap string Z :=
  match m !! eventName with
  | Some n => <[eventName := n + 1]> m
  | None => <[eventName := 1]> m
  end.

(** [if (data.revenue)]: present and not zero. *)
Definition revenueOf (ed : eventData) : option Z :=
  match ev_revenue ed with
  | Some r => if r =? 0 then None else Some r
  | None => None
  end.

Definition trackEvent (e : env) (eventName : string) (ed : eventData) (t : tracker)
  : tracker :=
  let d := tdata t in
  let dateKey := before_T (iso e) in
  let counts := countEvent eventName (eventCounts d) in
  let d' :=
    match revenueOf ed with
    | Some r =>
        {| apiCalls := apiCalls d;
           customers :=
             if cid_truthy (ev_customerId ed)
             then alter (addRollupRevenue r) (cid_key (ev_customerId ed)) (customers d)
             else customers d;
           dailyStats := day_alter (addDayRevenue r) dateKey (dailyStats d);
           eventCounts := counts;
           revenue := revenue d + r;
           startDate := startDate d |}
    | None =>
        {| apiCalls := apiCalls d;
           customers := customers d;
           dailyStats := dailyStats d;
           eventCounts := counts;
           revenue := revenue d;
           startDate := startDate d |}
    end in
  saveData (disk_ok e) {| tdata := d'; file := file t |}.

(** *** [reset] *)

Definition reset (e : env) (t : tracker) : tracker :=
  saveData (disk_ok e) {| tdata := initialData (iso e); file := file t |}.

(** *** [getConversionFunnel] and [calculateRate] *)

(** What [calculateRate] returns: the string ['0%'], the string ['NaN%'] of
    an undefined numerator, or a percentage. [RatePct q] carries the exact
    quotient [numerator / denominator * 100]; the rounding of the double
    division and of [toFixed(1)] is left out. *)
Inductive rate :=
| RateZero
| RateNaN
| RatePct (q : Q).

Definition calculateRate (numerator denominator : option Z) : rate :=
  match denominator with
  | None => RateZero
  | Some dn =>
      if dn =? 0 then RateZero
      else match numerator with
           | None => RateNaN
           | Some n => RatePct (inject_Z n / inject_Z dn * 100)%Q
           end
  end.

Record funnel := mkFunnel {
  productView : Z;
  tryonClick : Z;
  photoUpload : Z;
  resultViewed : Z;
  addToCart : Z;
  purchase : Z;
  uploadRate : rate;
  viewRate : rate;
  cartRate : rate;
  purchaseRate : rate
}.

(** [events.name || 0] *)
Definition countOr0 (events : gmap string Z) (name : string) : Z :=
  default 0 (events !! name).

Definition getConversionFunnel (t : tracker) : funnel :=
  let events := eventCounts (tdata t) in
  {| productView := countOr0 events "tryon_initiated";
     tryonClick := countOr0 events "tryon_initiated";
     photoUpload := countOr0 events "photo_uploaded";
     resultViewed := countOr0 events "result_viewed";
     addToCart := countOr0 events "add_to_cart";
     purchase := countOr0 events "purchase";
     uploadRate := calculateRate (events !! "photo_uploaded") (events !! "tryon_initiated");
     viewRate := calculateRate (events !! "result_viewed") (events !! "photo_uploaded");
     cartRate := calculateRate (events !! "add_to_cart") (events !! "result_viewed");
     purchaseRate := calculateRate (events !! "purchase") (events !! "add_to_cart") |}.

End Analytics.

(** ** vmize-proxy-server-with-analytics.js *)

Module Gateway.
Import Js Analytics.

(** An entry of [demoKeys]. *)
Record customer := mkCustomer {
  customerId : string;
  email : string;
  plan : string;
  limit : Z;
  used : Z
}.

(** The two module-level objects the handlers share. *)
Record server := mkServer {
  demoKeys : gmap string customer;
  analytics : tracker
}.

(** The environment variables read at start-up. [url_error] is the message
    of the exception that the validation of [FASHN_BASE] raises ([new URL],
    port and protocol), if any. *)
Record config := mkConfig {
  FASHN_API_KEY : option string;
  url_error : option string
}.

(** [!!s] for an optional string. *)
Definition present (o : option string) : bool :=
  match o with
  | Some s => negb (String.eqb s "")
  | None => false
  end.

(** [req.body] of a try-on submission. *)
Record tryOnBody := mkTryOnBody {
  model_image : option string;
  garment_image : option string;
  category : option string;
  mode : option string;
  age : option Z;
  productId : option string
}.

(** A request: the [x-vmize-api-key] header and the body. *)
Record request := mkRequest {
  apiKeyHeader : option string;
  body : tryOnBody
}.

(** The body sent upstream. *)
Record fashnPayload := mkPayload {
  model_name : string;
  in_model_image : string;
  in_garment_image : string;
  in_category : string;
  in_mode : string;
  in_age : option Z
}.

(** [fashnResp.data] as far as the handlers read it. *)
Record fashnData := mkFashnData {
  fd_id : option string;
  fd_status : option string;
  fd_error_message : option string
}.

(** What an [axios] call does: it resolves with a response, or rejects,
    with a response attached ([axiosErr.response]) or without (time-out,
    network failure). *)
Inductive axiosResult :=
| AxResponse (status : Z) (data : fashnData)
| AxErrorResponse (status : Z)
| AxError (message : string).

(** Response bodies. [percentageUsed] of the usage report, a formatted
    float, and the time stamps are left out. *)
Inductive replyBody :=
| ErrorOnly (error : string)
| QuotaInfo (error : string) (limit used : Z)
| TryOnStarted (prediction_id status : option string) (used remaining : option Z)
| TryOnFailed (error : string) (used remaining : option Z)
| UsageStats (customerId plan : string) (limit used remaining : Z)
| StatusData (data : fashnData)
| FunnelReport (f : funnel)
| Tracked (eventName : string)
| ResetDone
| Healthy.

(** What the caller observes: a status code and a body, or nothing when the
    handler dies on an unhandled rejection. *)
Inductive reply :=
| Reply (status : Z) (b : replyBody)
| NoReply.

(** The outcome of the middleware: a response, or [next()] with
    [req.customer] and [req.apiKey] set. *)
Inductive verdict :=
| Rejected (r : reply)
| Allowed (c : customer) (apiKey : string).

Definition verifyVmizeKey (keys : gmap string customer) (header : option string)
  : verdict :=
  match header with
  | None => Rejected (Reply 401 (ErrorOnly "API key required"))
  | Some apiKey =>
      if String.eqb apiKey "" then Rejected (Reply 401 (ErrorOnly "API key required"))
      else if negb (String.prefix "vmize_pk_" apiKey)
      then Rejected (Reply 401 (ErrorOnly "Invalid API key format"))
      else match keys !! apiKey with
           | None => Rejected (Reply 401 (ErrorOnly "Invalid API key"))
           | Some c =>
               if limit c <=? used c
               then Rejected (Reply 429 (QuotaInfo "Usage limit exceeded" (limit c) (used c)))
               else Allowed c apiKey
           end
  end.

(** The clock and disk that the successive analytics calls of one handler
    segment see, and [Date.now() - startTime]. *)
Record world := mkWorld {
  tick : nat -> env;
  elapsed : Z
}.

(** A request past the middleware. *)
Record admitted := mkAdmitted {
  a_customer : customer;
  a_apiKey : string;
  a_body : tryOnBody
}.

(** [req.customer?.customerId || null] *)
Definition cidOf (c : customer) : cid :=
  if String.eqb (customerId c) "" then None else Some (customerId c).

(** [req.apiKey && demoKeys[req.apiKey] ? demoKeys[req.apiKey].used : undefined] *)
Definition usedNow (keys : gmap string customer) (apiKey : string) : option Z :=
  if String.eqb apiKey "" then None else used <$> keys !! apiKey.

(** [... ? demoKeys[req.apiKey].limit - demoKeys[req.apiKey].used : undefined] *)
Definition remainingNow (keys : gmap string customer) (apiKey : string) : option Z :=
  if String.eqb apiKey "" then None
  else (fun c => limit c - used c) <$> keys !! apiKey.

Definition noRevenue (c : cid) : eventData :=
  {| ev_customerId := c; ev_revenue := None |}.

(** The [catch] block of [doTryOn], entered with [error.message]; [n] is
    the number of analytics calls the segment has made so far. Both
    tracking calls are best effort: a rejection is swallowed. *)
Definition tryOnCatch (w : world) (n : nat) (a : admitted) (message : string)
    (s : server) : server * reply :=
  let t1 :=
    fst (trackApiCall (tick w n)
           {| cd_customerId := cidOf (a_customer a);
              cd_apiKey := Some (a_apiKey a);
              cd_endpoint := "/api/tryon";
              cd_method := "POST";
              cd_status := StStr "error";
              cd_duration := elapsed w;
              cd_productId := None;
              cd_error := Some message |}
           (analytics s)) in
  let t2 := trackEvent (tick w (S n)) "api_error" (noRevenue (cidOf (a_customer a))) t1 in
  ({| demoKeys := demoKeys s; analytics := t2 |},
   Reply 500 (TryOnFailed message (usedNow (demoKeys s) (a_apiKey a))
                                  (remainingNow (demoKeys s) (a_apiKey a)))).

(** A handler segment ends with a response or suspended on an upstream
    call. *)
Inductive pendingCall :=
| PendingRun (a : admitted) (p : fashnPayload)
| PendingStatus (a : admitted) (id : string).

Inductive progress :=
| Done (r : reply)
| Await (p : pendingCall).

(** [doTryOn] up to [axios.post]. *)
Definition doTryOn_begin (cfg : config) (w : world) (a : admitted) (s : server)
  : server * progress :=
  let who := cidOf (a_customer a) in
  let s1 :=
    {| demoKeys := demoKeys s;
       analytics := trackEvent (tick w 0%nat) "tryon_initiated" (noRevenue who) (analytics s) |} in
  if negb (present (FASHN_API_KEY cfg)) then
    let (s', r) := tryOnCatch w 1 a "FASHN_API_KEY not configured" s1 in (s', Done r)
  else
    match model_image (a_body a), garment_image (a_body a) with
    | Some m, Some g =>
        if String.eqb m "" || String.eqb g "" then
          let (s', r) :=
            tryOnCatch w 1 a "Both model_image and garment_image are required" s1 in
          (s', Done r)
        else
          let s2 :=
            {| demoKeys := demoKeys s1;
               analytics := trackEvent (tick w 1%nat) "photo_uploaded" (noRevenue who) (analytics s1) |} in
          match url_error cfg with
          | Some m' =>
              let (s', r) := tryOnCatch w 2 a ("Invalid FASHN_API_URL: " +:+ m') s2 in
              (s', Done r)
          | None =>
              (s2, Await (PendingRun a
                 {| model_name := "tryon-v1.6";
                    in_model_image := m;
                    in_garment_image := g;
                    in_category := default "auto" (category (a_body a));
                    in_mode := default "quality" (mode (a_body a));
                    in_age := age (a_body a) |}))
          end
    | _, _ =>
        let (s', r) :=
          tryOnCatch w 1 a "Both model_image and garment_image are required" s1 in
        (s', Done r)
    end.

(** [demoKeys[req.apiKey].used++] *)
Definition incrementUsed (c : customer) : customer :=
  {| customerId := customerId c;
     email := email c;
     plan := plan c;
     limit := limit c;
     used := used c + 1 |}.

(** [data.error?.message || fallback] *)
Definition errorMessageOr (fallback : string) (d : fashnData) : string :=
  if present (fd_error_message d) then default fallback (fd_error_message d) else fallback.

(** [doTryOn] from the settlement of [axios.post] on. *)
Definition doTryOn_end (w : world) (a : admitted) (res : axiosResult) (s : server)
  : server * reply :=
  match res with
  | AxErrorResponse st => tryOnCatch w 0 a ("Fashn API error: " +:+ pretty st) s
  | AxError m => tryOnCatch w 0 a m s
  | AxResponse st d =>
      if 400 <=? st then tryOnCatch w 0 a (errorMessageOr "Fashn API error" d) s
      else
        let keys :=
          if String.eqb (a_apiKey a) "" then demoKeys s
          else alter incrementUsed (a_apiKey a) (demoKeys s) in
        let (t1, tracked) :=
          trackApiCall (tick w 0%nat)
            {| cd_customerId := cidOf (a_customer a);
               cd_apiKey := Some (a_apiKey a);
               cd_endpoint := "/api/tryon";
               cd_method := "POST";
               cd_status := StStr "success";
               cd_duration := elapsed w;
               cd_productId := productId (a_body a);
               cd_error := None |}
            (analytics s) in
        let s1 := {| demoKeys := keys; analytics := t1 |} in
        match tracked with
        | Ok _ =>
            (s1, Reply 200 (TryOnStarted (fd_id d) (fd_status d)
                              (usedNow keys (a_apiKey a)) (remainingNow keys (a_apiKey a))))
        | Throw m => tryOnCatch w 1 a m s1
        end
  end.

(** The [catch] block of the status route: its tracking call is awaited
    without a handler, so a rejection leaves the request unanswered. *)
Definition statusCatch (w : world) (n : nat) (a : admitted) (id message : string)
    (s : server) : server * reply :=
  let (t1, tracked) :=
    trackApiCall (tick w n)
      {| cd_customerId := Some (customerId (a_customer a));
         cd_apiKey := Some (a_apiKey a);
         cd_endpoint := "/api/tryon/" +:+ id;
         cd_method := "GET";
         cd_status := StStr "error";
         cd_duration := elapsed w;
         cd_productId := None;
         cd_error := Some message |}
      (analytics s) in
  let s1 := {| demoKeys := demoKeys s; analytics := t1 |} in
  match tracked with
  | Ok _ => (s1, Reply 500 (ErrorOnly message))
  | Throw _ => (s1, NoReply)
  end.

(** The status route up to [axios.get]. *)
Definition status_begin (cfg : config) (w : world) (a : admitted) (id : string)
    (s : server) : server * progress :=
  if negb (present (FASHN_API_KEY cfg)) then
    let (s', r) := statusCatch w 0 a id "FASHN_API_KEY not configured" s in (s', Done r)
  else (s, Await (PendingStatus a id)).

(** The status route from the settlement of [axios.get] on. *)
Definition status_end (w : world) (a : admitted) (id : string) (res : axiosResult)
    (s : server) : server * reply :=
  match res with
  | AxErrorResponse _ | AxError _ => statusCatch w 0 a id "Status check failed" s
  | AxResponse st d =>
      if (st =? 0) || (400 <=? st)
      then statusCatch w 0 a id (errorMessageOr "Status check failed" d) s
      else
        let (t1, tracked) :=
          trackApiCall (tick w 0%nat)
            {| cd_customerId := Some (customerId (a_customer a));
               cd_apiKey := Some (a_apiKey a);
               cd_endpoint := "/api/tryon/" +:+ id;
               cd_method := "GET";
               cd_status := StStr "success";
               cd_duration := elapsed w;
               cd_productId := None;
               cd_error := None |}
            (analytics s) in
        match tracked with
        | Throw m => statusCatch w 1 a id m {| demoKeys := demoKeys s; analytics := t1 |}
        | Ok _ =>
            let who := noRevenue (Some (customerId (a_customer a))) in
            let t2 :=
              if match fd_status d with Some x => String.eqb x "completed" | None => false end
              then trackEvent (tick w 2%nat) "result_viewed" who
                     (trackEvent (tick w 1%nat) "result_generated" who t1)
              else t1 in
            ({| demoKeys := demoKeys s; analytics := t2 |}, Reply 200 (StatusData d))
        end
  end.

(** The routes of the gateway, with the parameters the handlers take from
    the path and, for the two tracking routes, from the body. The summary
    route [GET /api/analytics] is not embedded. *)
Inductive endpoint :=
| Health
| PostAnalyticsTrack (event : string)
| GetFunnel
| PostTrack (eventName : string) (d : eventData)
| PostTryOn
| PostGenerate
| GetStatus (id : string)
| GetUsage
| PostReset.

Definition demoKey : string := "vmize_pk_demo_test_1234567890".

(** [if (!req.headers['x-vmize-api-key']) req.headers['x-vmize-api-key'] = '...'] *)
Definition injectDemoKey (header : option string) : option string :=
  if present header then header else Some demoKey.

Definition resetUsed (c : customer) : customer :=
  {| customerId := customerId c;
     email := email c;
     plan := plan c;
     limit := limit c;
     used := 0 |}.

(** A request from its arrival to its response or to its upstream call. *)
Definition arrive (cfg : config) (ep : endpoint) (rq : request) (w : world) (s : server)
  : server * progress :=
  match ep with
  | Health => (s, Done (Reply 200 Healthy))
  | PostAnalyticsTrack event =>
      ({| demoKeys := demoKeys s;
          analytics := trackEvent (tick w 0%nat) event (noRevenue None) (analytics s) |},
       Done (Reply 200 (Tracked event)))
  | GetFunnel => (s, Done (Reply 200 (FunnelReport (getConversionFunnel (analytics s)))))
  | PostTrack eventName d =>
      ({| demoKeys := demoKeys s;
          analytics := trackEvent (tick w 0%nat) eventName d (analytics s) |},
       Done (Reply 200 (Tracked eventName)))
  | PostTryOn =>
      match verifyVmizeKey (demoKeys s) (apiKeyHeader rq) with
      | Rejected r => (s, Done r)
      | Allowed c k =>
          doTryOn_begin cfg w {| a_customer := c; a_apiKey := k; a_body := body rq |} s
      end
  | PostGenerate =>
      match verifyVmizeKey (demoKeys s) (injectDemoKey (apiKeyHeader rq)) with
      | Rejected r => (s, Done r)
      | Allowed c k =>
          doTryOn_begin cfg w {| a_customer := c; a_apiKey := k; a_body := body rq |} s
      end
  | GetStatus id =>
      match verifyVmizeKey (demoKeys s) (injectDemoKey (apiKeyHeader rq)) with
      | Rejected r => (s, Done r)
      | Allowed c k =>
          status_begin cfg w {| a_customer := c; a_apiKey := k; a_body := body rq |} id s
      end
  | GetUsage =>
      match verifyVmizeKey (demoKeys s) (apiKeyHeader rq) with
      | Rejected r => (s, Done r)
      | Allowed c _ =>
          (s, Done (Reply 200
                 (UsageStats (customerId c) (plan c) (limit c) (used c) (limit c - used c))))
      end
  | PostReset =>
      ({| demoKeys := resetUsed <$> demoKeys s;
          analytics := reset (tick w 0%nat) (analytics s) |},
       Done (Reply 200 ResetDone))
  end.

(** A suspended handler resumed with the result of its upstream call. *)
Definition complete (w : world) (p : pendingCall) (res : axiosResult) (s : server)
  : server * reply :=
  match p with
  | PendingRun a _ => doTryOn_end w a res s
  | PendingStatus a id => status_end w a id res s
  end.

(** One request handled with nothing else in between; [res] is what the
    upstream call does if the handler gets to make it. *)
Definition handle (cfg : config) (ep : endpoint) (rq : request) (w : world)
    (res : axiosResult) (w' : world) (s : server) : server * reply :=
  let (s1, p) := arrive cfg ep rq w s in
  match p with
  | Done r => (s1, r)
  | Await pc => complete w' pc res s1
  end.

(** Whether the handler issued its upstream call. *)
Definition calledUpstream (cfg : config) (ep : endpoint) (rq : request) (w : world)
    (s : server) : bool :=
  match snd (arrive cfg ep rq w s) with
  | Done _ => false
  | Await _ => true
  end.

(** *** Several requests in flight

    Node runs one handler segment at a time; a handler suspended on its
    upstream call lets the segments of other requests run. (The handlers
    also suspend at the analytics file writes, which is not represented:
    every schedule below is one of the real ones.) *)

Record system := mkSystem {
  srv : server;
  inflight : list pendingCall;
  replies : list reply
}.

Inductive event :=
| Arrive (ep : endpoint) (rq : request) (w : world)
| Complete (n : nat) (res : axiosResult) (w : world).

Definition step (cfg : config) (sys : system) (ev : event) : system :=
  match ev with
  | Arrive ep rq w =>
      let (s', p) := arrive cfg ep rq w (srv sys) in
      match p with
      | Done r =>
          {| srv := s'; inflight := inflight sys; replies := replies sys ++ [r] |}
      | Await pc =>
          {| srv := s'; inflight := inflight sys ++ [pc]; replies := replies sys |}
      end
  | Complete n res w =>
      match inflight sys !! n with
      | Some pc =>
          let (s', r) := complete w pc res (srv sys) in
          {| srv := s'; inflight := delete n (inflight sys); replies := replies sys ++ [r] |}
      | None => sys
      end
  end.

Definition run (cfg : config) (evs : list event) (sys : system) : system :=
  fold_left (step cfg) evs sys.

Definition idle (s : server) : system :=
  {| srv := s; inflight := []; replies := [] |}.

(** The [remaining] field of a response that has one. *)
Definition remainingOf (r : reply) : option Z :=
  match r with
  | Reply _ (TryOnStarted _ _ _ rem) => rem
  | Reply _ (TryOnFailed _ _ rem) => rem
  | Reply _ (UsageStats _ _ _ _ rem) => Some rem
  | _ => None
  end.

Definition statusOf (r : reply) : option Z :=
  match r with
  | Reply st _ => Some st
  | NoReply => None
  end.

End Gateway.

(** ** vmize-proxy-server.js *)

Module Proxy.

(** A value of the map [CUSTOMER_API_KEYS]. *)
Record customer := mkCustomer {
  customerId : string;
  apiKey : string;
  plan : string;
  email : string;
  status : string;
  planLimit : Z;
  usageThisMonth : Z
}.

Inductive replyBody :=
| Problem (error message : string)
| TryOnAccepted (id : option string)
| UsageReport (customerId plan : string) (usageThisMonth planLimit remaining : Z).

Record reply := mkReply {
  code : Z;
  content : replyBody
}.

Inductive verdict :=
| Rejected (r : reply)
| Allowed (c : customer).

Definition verifyCustomerApiKey (keys : gmap string customer) (header : option string)
  : verdict :=
  match header with
  | None => Rejected (mkReply 401 (Problem "Unauthorized" "Missing X-Vmize-API-Key header"))
  | Some k =>
      if String.eqb k ""
      then Rejected (mkReply 401 (Problem "Unauthorized" "Missing X-Vmize-API-Key header"))
      else if negb (String.prefix "vmize_pk_live_" k) && negb (String.prefix "vmize_pk_test_" k)
      then Rejected (mkReply 401 (Problem "Unauthorized" "Invalid API key format"))
      else match keys !! k with
           | None => Rejected (mkReply 401 (Problem "Unauthorized" "Invalid API key"))
           | Some c =>
               if negb (String.eqb (status c) "active")
               then Rejected (mkReply 403
                      (Problem "Forbidden" "Subscription inactive. Please update billing."))
               else if planLimit c <=? usageThisMonth c
               then Rejected (mkReply 429
                      (Problem "Quota Exceeded" "Monthly try-on limit reached. Upgrade your plan."))
               else Allowed c
           end
  end.

(** What [fetch] does: a response with its [ok] flag and the [id] of its
    body, or a rejection. *)
Inductive fetchResult :=
| Fetched (ok : bool) (id : option string)
| FetchFailed.

Definition imageGiven (o : option string) : bool :=
  match o with
  | Some s => negb (String.eqb s "")
  | None => false
  end.

(** [POST /api/tryon]: the reply, and whether [fetch] was called. Usage is
    not stored by this file ([trackUsage] only logs), so the map of
    customers is not part of the result. *)
Definition postTryOn (keys : gmap string customer) (header : option string)
    (model_image garment_image : option string) (upstream : fetchResult)
  : reply * bool :=
  match verifyCustomerApiKey keys header with
  | Rejected r => (r, false)
  | Allowed c =>
      if negb (imageGiven model_image) || negb (imageGiven garment_image)
      then (mkReply 400 (Problem "Bad Request" "model_image and garment_image are required"),
            false)
      else match upstream with
           | Fetched true id => (mkReply 200 (TryOnAccepted id), true)
           | Fetched false _ | FetchFailed =>
               (mkReply 500 (Problem "Internal Server Error" "Failed to process try-on request"),
                true)
           end
  end.

(** [GET /api/usage]; [percentUsed] is left out. *)
Definition getUsage (keys : gmap string customer) (header : option string) : reply :=
  match verifyCustomerApiKey keys header with
  | Rejected r => r
  | Allowed c =>
      mkReply 200 (UsageReport (customerId c) (plan c) (usageThisMonth c) (planLimit c)
                     (planLimit c - usageThisMonth c))
  end.

End Proxy.

(** ** The monthly billing job of server.js *)

Module Billing.

(** A document of the [Customer] collection, as far as the job reads and
    writes it. The model file [models/Customer.js] is not among the
    sources; the fields follow the spec's data model. *)
Record account := mkAccount {
  email : string;
  stripeCustomerId : string;
  plan : string;
  subscriptionStatus : string;
  currentMonthUsage : Z;
  planLimit : Z;
  history : list (string * Z)
}.

(** What a run depends on besides the collection: the overage rate of each
    plan, the month being closed, and whether the billing collaborator
    [stripeService.createOverageCharge] accepts a charge ([false]: the call
    rejects). *)
Record collaborators := mkCollaborators {
  perUnitOverageRate : string -> Z;
  period : string;
  createOverageCharge : string -> Z -> string -> bool
}.

(** Modelled from the spec: [Customer.calculateOverage] is not among the
    sources; the overage is [max(0, currentMonthUsage - planLimit)] and the
    cost is the overage times the rate of the plan. *)
Definition calculateOverage (k : collaborators) (c : account) : Z * Z :=
  let overage := Z.max 0 (currentMonthUsage c - planLimit c) in
  (overage, overage * perUnitOverageRate k (plan c)).

(** Modelled from the spec: [Customer.resetMonthlyUsage] is not among the
    sources; it sets the current-month usage to zero and archives the prior
    value into the usage history under the month. *)
Definition resetMonthlyUsage (k : collaborators) (c : account) : account :=
  {| email := email c;
     stripeCustomerId := stripeCustomerId c;
     plan := plan c;
     subscriptionStatus := subscriptionStatus c;
     currentMonthUsage := 0;
     planLimit := planLimit c;
     history := history c ++ [(period k, currentMonthUsage c)] |}.

Definition memo (overage : Z) : string :=
  "Usage overage: " +:+ pretty overage +:+ " try-ons".

(** Whether the charge of a customer is attempted and rejected. *)
Definition chargeFails (k : collaborators) (c : account) : bool :=
  let (overage, cost) := calculateOverage k c in
  (0 <? cost) && negb (createOverageCharge k (stripeCustomerId c) cost (memo overage)).

(** What a run leaves: the documents it found, as they are afterwards, the
    charges made, and whether the [catch] around the loop logged an
    error. *)
Record outcome := mkOutcome {
  documents : list account;
  charges : list (string * Z * string);
  failed : bool
}.

(** [for (const customer of customers) { ... }] inside the [try]: a
    rejected [await stripeService.createOverageCharge(...)] leaves the loop
    for the [catch] block. *)
Fixpoint billEach (k : collaborators) (customers : list account) : outcome :=
  match customers with
  | [] => {| documents := []; charges := []; failed := false |}
  | c :: rest =>
      let (overage, cost) := calculateOverage k c in
      if 0 <? cost then
        if createOverageCharge k (stripeCustomerId c) cost (memo overage) then
          let o := billEach k rest in
          {| documents := resetMonthlyUsage k c :: documents o;
             charges := (stripeCustomerId c, cost, memo overage) :: charges o;
             failed := failed o |}
        else {| documents := c :: rest; charges := []; failed := true |}
      else
        let o := billEach k rest in
        {| documents := resetMonthlyUsage k c :: documents o;
           charges := charges o;
           failed := failed o |}
  end.

Definition isActive (c : account) : bool :=
  String.eqb (subscriptionStatus c) "active".

(** The callback of [cron.schedule]: [Customer.find({ subscriptionStatus:
    'active' })], then the loop. *)
Definition monthlyBilling (k : collaborators) (collection : list account) : outcome :=
  billEach k (filter (fun c => isActive c = true) collection).

End Billing.

(** ** Runs of the tracker and what is stated about them *)

Module Runs.
Import Js Analytics.

(** The operations that mutate a tracker once it is constructed. *)
Inductive op :=
| Call (e : env) (c : callData)
| Event (e : env) (eventName : string) (d : eventData)
| Reset (e : env).

Definition apply (t : tracker) (o : op) : tracker :=
  match o with
  | Call e c => fst (trackApiCall e c t)
  | Event e n d => trackEvent e n d t
  | Reset e => reset e t
  end.

(** The tracker as the constructor (or [reset]) leaves [this.data], beside
    whatever file there is. *)
Definition started (stamp : string) (f : option data) : tracker :=
  {| tdata := initialData stamp; file := f |}.

Definition after (ops : list op) (t : tracker) : tracker :=
  fold_left apply ops t.

Definition balanced (r : rollup) : Prop :=
  totalCalls r = successfulCalls r + failedCalls r.

Definition dayBalanced (d : day) : Prop :=
  day_totalCalls d = day_successfulCalls d + day_failedCalls d.

(** The invariant of the rollups: both tables balance and every day holds
    a [Set]. *)
Definition wellFormed (t : tracker) : Prop :=
  map_Forall (fun _ r => balanced r) (customers (tdata t)) /\
  Forall (fun kd => dayBalanced (snd kd) /\ has_add (snd kd) = true) (dailyStats (tdata t)).

(** The counters that the funnel reads. *)
Definition stages : list string :=
  ["tryon_initiated"; "photo_uploaded"; "result_viewed"; "add_to_cart"; "purchase"].

(** The invariant of the event counters: the stages are present and no
    counter is negative. *)
Definition countsOk (m : gmap string Z) : Prop :=
  Forall (fun n => is_Some (m !! n)) stages /\ map_Forall (fun _ n => 0 <= n) m.

(** A ratio within 0% and 100%. *)
Definition inUnit (r : rate) : Prop :=
  match r with
  | RateZero => True
  | RateNaN => False
  | RatePct q => (0 <= q)%Q /\ (q <= 100)%Q
  end.

(** What [calculateRate] yields on two counts: ['0%'] for a zero
    denominator, and otherwise the percentage [num / den * 100] (the value
    before the division is rounded and [toFixed(1)] prints it), which is
    not negative, at most 100 when [num <= den] and at least 100 when
    [den <= num]. The three bounds are those that the rounding keeps: the
    printed value is not negative either, at most ['100.0%'] in the first
    case and at least ['100.0%'] in the second, where it can be
    ['100.0%'] itself (2001 over 2000). *)
Definition rateOf (num den : Z) (r : rate) : Prop :=
  if den =? 0 then r = RateZero
  else exists q, r = RatePct q /\ (q == inject_Z num / inject_Z den * 100)%Q /\
                 (0 <= q)%Q /\
                 (num <= den -> (q <= 100)%Q) /\ (den <= num -> (100 <= q)%Q).

(** The ids that a day has seen, when it holds them as a [Set]. *)
Definition idsOf (d : day) : option (list json) :=
  match uniqueCustomers d with
  | USet s => Some s
  | UPlain _ => None
  end.

(** A new process on the file that the tracker left: the constructor, then
    [loadData]. *)
Definition restart (stamp : string) (ok : bool) (t : tracker) : tracker :=
  loadData ok (started stamp (file t)).

(** ['0%'] for a zero denominator. *)
Definition zeroOnEmpty (den : Z) (r : rate) : Prop :=
  if den =? 0 then r = RateZero else True.

(** Sample inputs. *)
Definition noon : env :=
  {| iso := "2025-01-15T12:00:00.000Z"; millis := "1736942400000"; rand := "k3j9x0w2q";
     disk_ok := true |}.

Definition anonymous : eventData :=
  {| ev_customerId := None; ev_revenue := None |}.

Definition twoUploadsOneStart : list op :=
  [Event noon "photo_uploaded" anonymous;
   Event noon "photo_uploaded" anonymous;
   Event noon "tryon_initiated" anonymous].

Definition demoCall : callData :=
  {| cd_customerId := Some "demo_customer";
     cd_apiKey := Some "vmize_pk_demo_test_1234567890";
     cd_endpoint := "/api/tryon";
     cd_method := "POST";
     cd_status := StStr "success";
     cd_duration := 1200;
     cd_productId := None;
     cd_error := None |}.

End Runs.

(** ** Requests to the gateway and what is stated about them *)

Module Cases.
Import Js Analytics Gateway Runs.

(** How [doTryOn] classifies the settlement of its upstream call: anything
    but a response with a status below 400 goes to the [catch] block. (With
    its default [validateStatus], [axios] resolves for a 2xx status only and
    rejects, response attached, for any other.) *)
Definition upstreamSucceeded (res : axiosResult) : bool :=
  match res with
  | AxResponse st _ => st <? 400
  | AxErrorResponse _ | AxError _ => false
  end.

(** The keys after [if (req.apiKey && demoKeys[req.apiKey])
    demoKeys[req.apiKey].used++]. *)
Definition counted (a : admitted) (keys : gmap string customer) : gmap string customer :=
  if String.eqb (a_apiKey a) "" then keys else alter incrementUsed (a_apiKey a) keys.

(** The two routes that run [doTryOn]. *)
Definition isTryOn (ep : endpoint) : bool :=
  match ep with
  | PostTryOn | PostGenerate => true
  | _ => false
  end.

(** The routes that run [verifyVmizeKey]. *)
Definition guarded (ep : endpoint) : bool :=
  match ep with
  | PostTryOn | PostGenerate | GetStatus _ | GetUsage => true
  | _ => false
  end.

(** The guarded routes that take the header as it comes. *)
Definition strict (ep : endpoint) : bool :=
  match ep with
  | PostTryOn | GetUsage => true
  | _ => false
  end.

(** The guarded routes that put the demo key in place of a missing
    header. *)
Definition demoFallback (ep : endpoint) : bool :=
  match ep with
  | PostGenerate | GetStatus _ => true
  | _ => false
  end.

(** The key that the middleware of a route sees. *)
Definition effectiveKey (ep : endpoint) (rq : request) : option string :=
  if demoFallback ep then injectDemoKey (apiKeyHeader rq) else apiKeyHeader rq.




(** Sample inputs. *)
Definition liveConfig : config :=
  {| FASHN_API_KEY := Some "fa-test-key"; url_error := None |}.

Definition calm : world :=
  {| tick := fun _ => noon; elapsed := 1200 |}.

Definition bothImages : tryOnBody :=
  {| model_image := Some "data:image/png;base64,MODEL";
     garment_image := Some "data:image/png;base64,GARMENT";
     category := None;
     mode := None;
     age := None;
     productId := None |}.

Definition garmentOnly : tryOnBody :=
  {| model_image := None;
     garment_image := Some "data:image/png;base64,GARMENT";
     category := None;
     mode := None;
     age := None;
     productId := None |}.

Definition withKey (k : option string) (b : tryOnBody) : request :=
  {| apiKeyHeader := k; body := b |}.

(** The customer of [demoKeys] in the source. *)
Definition demoCustomer : customer :=
  {| customerId := "demo_customer";
     email := "demo@example.com";
     plan := "professional";
     limit := 500;
     used := 0 |}.

Definition demoStore : server :=
  {| demoKeys := {[ demoKey := demoCustomer ]};
     analytics := started "2025-01-15T11:59:00.000Z" None |}.

(** A customer one call short of a plan of 100. *)
Definition almostFull : server :=
  {| demoKeys :=
       {[ demoKey := {| customerId := "demo_customer";
                        email := "demo@example.com";
                        plan := "starter";
                        limit := 100;
                        used := 99 |} ]};
     analytics := started "2025-01-15T11:59:00.000Z" None |}.

Definition queued : fashnData :=
  {| fd_id := Some "pred_123"; fd_status := Some "starting"; fd_error_message := None |}.

(** Two submissions of the same customer admitted before either upstream
    call returns. *)
Definition twoInFlight : list event :=
  [Arrive PostTryOn (withKey (Some demoKey) bothImages) calm;
   Arrive PostTryOn (withKey (Some demoKey) bothImages) calm;
   Complete 0 (AxResponse 200 queued) calm;
   Complete 0 (AxResponse 200 queued) calm].

End Cases.

(** ** Billing runs and what is stated about them *)

Module Cycle.
Import Billing.

(** The usage of the second document is zero and the usage of the first is
    archived under the month. *)
Definition isReset (k : collaborators) (before after : account) : Prop :=
  currentMonthUsage after = 0 /\
  history after = history before ++ [(period k, currentMonthUsage before)].

Definition allReset (k : collaborators) (before after : list account) : Prop :=
  Forall2 (isReset k) before after.

(** The charge that the job makes for a customer, if any. *)
Definition chargeOf (k : collaborators) (c : account) : option (string * Z * string) :=
  let (overage, cost) := calculateOverage k c in
  if 0 <? cost then Some (stripeCustomerId c, cost, memo overage) else None.

(** Sample inputs: rates in cents, a collaborator that declines every
    charge and one that accepts every charge. *)
Definition declining : collaborators :=
  {| perUnitOverageRate := fun _ => 50;
     period := "2025-01";
     createOverageCharge := fun _ _ _ => false |}.

Definition accepting : collaborators :=
  {| perUnitOverageRate := fun _ => 50;
     period := "2025-01";
     createOverageCharge := fun _ _ _ => true |}.

Definition overLimit : account :=
  {| email := "over@example.com";
     stripeCustomerId := "cus_over";
     plan := "starter";
     subscriptionStatus := "active";
     currentMonthUsage := 120;
     planLimit := 100;
     history := [] |}.

Definition underLimit : account :=
  {| email := "under@example.com";
     stripeCustomerId := "cus_under";
     plan := "starter";
     subscriptionStatus := "active";
     currentMonthUsage := 50;
     planLimit := 100;
     history := [] |}.

End Cycle.

(** ** The reports of analytics-tracker.js *)

Module Reports.
Import Js Analytics.

(** How many records of the log satisfy a test. *)
Fixpoint countIf (p : apiCall -> bool) (l : list apiCall) : Z :=
  match l with
  | [] => 0
  | c :: r => (if p c then 1 else 0) + countIf p r
  end.

(** [totalDuration += call.duration || 0] over the log. *)
Fixpoint sumDuration (l : list apiCall) : Z :=
  match l with
  | [] => 0
  | c :: r => call_duration c + sumDuration r
  end.

(** [call.status === 'success' || call.status === 200] *)
Definition succeeded (c : apiCall) : bool := is_success (call_status c).

(** [this.data.apiCalls.slice(-10).reverse()] *)
Definition lastTen (l : list apiCall) : list apiCall :=
  rev (drop (length l - 10) l).

(** [getAnalyticsSummary], without its [last30Days] and [topCustomers]
    fields. [successRate] is ['0%'] for an empty log and the percentage of
    successful records otherwise; [avgResponseTime] is the mean duration,
    [0] for an empty log (both exact, the formatting by [toFixed(2)] is
    left out). *)
Record summary := mkSummary {
  totalApiCalls : Z;
  uniqueCustomerCount : Z;
  successRate : rate;
  avgResponseTime : Q;
  totalRevenue : Z;
  summaryEventCounts : gmap string Z;
  recentCalls : list apiCall
}.

Definition getAnalyticsSummary (t : tracker) : summary :=
  let calls := apiCalls (tdata t) in
  let totalCalls := Z.of_nat (length calls) in
  let successfulCalls := countIf succeeded calls in
  let duration := sumDuration calls in
  {| totalApiCalls := totalCalls;
     uniqueCustomerCount := Z.of_nat (size (customers (tdata t)));
     successRate :=
       if 0 <? totalCalls
       then RatePct (inject_Z successfulCalls / inject_Z totalCalls * 100)%Q
       else RateZero;
     avgResponseTime :=
       if 0 <? totalCalls then (inject_Z duration / inject_Z totalCalls)%Q else 0%Q;
     totalRevenue := revenue (tdata t);
     summaryEventCounts := eventCounts (tdata t);
     recentCalls := lastTen calls |}.

(** One entry of [getLast30DaysData]. *)
Record dayReport := mkDayReport {
  date : string;
  calls : Z;
  successful : Z;
  failed : Z;
  customersSeen : Z;
  dayRevenue : Z
}.

(** [dayData?.uniqueCustomers?.size || 0]: only a [Set] has a [size]. *)
Definition sizeOr0 (u : ucoll) : Z :=
  match u with
  | USet s => Z.of_nat (length s)
  | UPlain _ => 0
  end.

(** The body of the loop of [getLast30DaysData] for one date key. *)
Definition reportDay (t : tracker) (dateKey : string) : dayReport :=
  match day_lookup dateKey (dailyStats (tdata t)) with
  | Some d =>
      {| date := dateKey;
         calls := day_totalCalls d;
         successful := day_successfulCalls d;
         failed := day_failedCalls d;
         customersSeen := sizeOr0 (uniqueCustomers d);
         dayRevenue := day_revenue d |}
  | None =>
      {| date := dateKey; calls := 0; successful := 0; failed := 0;
         customersSeen := 0; dayRevenue := 0 |}
  end.

(** [getLast30DaysData]; [dateKeys] are the thirty keys that the loop
    derives from the clock, oldest first. *)
Definition getLast30DaysData (dateKeys : list string) (t : tracker) : list dayReport :=
  map (reportDay t) dateKeys.

End Reports.

(** ** What is stated about the reports *)

Module Replay.
Import Js Analytics Runs Reports.

(** The record was written on the day of the key. *)
Definition onDay (k : string) (c : apiCall) : bool :=
  String.eqb (before_T (call_timestamp c)) k.

(** The record carries the customer id. *)
Definition ofCustomer (k : string) (c : apiCall) : bool :=
  String.eqb (call_customerId c) k.

(** The rollup of a customer, all zero when there is none. *)
Definition rollupOr0 (t : tracker) (k : string) : rollup :=
  default (freshRollup "") (customers (tdata t) !! k).

(** A percentage between 0 and 100. *)
Definition percentage (r : rate) : Prop :=
  match r with
  | RateZero => True
  | RateNaN => False
  | RatePct q => (0 <= q)%Q /\ (q <= 100)%Q
  end.




(** A value that a handler passes as customer id. *)
Definition isId (v : json) : Prop :=
  match v with
  | JStr _ | JNull => True
  | _ => False
  end.

(** The aggregate of a day, all zero when there is none. *)
Definition dayOr0 (t : tracker) (k : string) : day :=
  default freshDay (day_lookup k (dailyStats (tdata t))).

(** The time stamps of the records of a customer, oldest first. *)
Fixpoint stampsOf (k : string) (l : list apiCall) : list string :=
  match l with
  | [] => []
  | c :: r => if ofCustomer k c then call_timestamp c :: stampsOf k r else stampsOf k r
  end.

(** The durations of the records of a customer, added up. *)
Fixpoint durationOf (k : string) (l : list apiCall) : Z :=
  match l with
  | [] => 0
  | c :: r => (if ofCustomer k c then call_duration c else 0) + durationOf k r
  end.

(** The aggregate of a day is what the log gives for that day, and its
    [Set] holds distinct ids, no more than the day has calls. *)
Definition dayReplays (log : list apiCall) (k : string) (d : day) : Prop :=
  day_totalCalls d = countIf (onDay k) log /\
  day_successfulCalls d = countIf (fun c => onDay k c && succeeded c) log /\
  day_failedCalls d = countIf (fun c => onDay k c && negb (succeeded c)) log /\
  exists s, uniqueCustomers d = USet s /\ NoDup s /\ Forall isId s /\
            Z.of_nat (length s) <= day_totalCalls d.

(** The rollup of a customer is what the log gives for that id. *)
Definition rollupReplays (log : list apiCall) (k : string) (o : option rollup) : Prop :=
  match o with
  | Some r =>
      totalCalls r = countIf (ofCustomer k) log /\
      successfulCalls r = countIf (fun c => ofCustomer k c && succeeded c) log /\
      failedCalls r = countIf (fun c => ofCustomer k c && negb (succeeded c)) log /\
      totalDuration r = durationOf k log /\
      head (stampsOf k log) = Some (firstSeen r) /\
      last (stampsOf k log) = Some (lastSeen r)
  | None => countIf (ofCustomer k) log = 0
  end.

(** The ids under which the log and the rollups agree: the log writes
    ['unknown'] for an empty or [null] id, which the rollups file under
    [''] and ['null']. *)
Definition plainId (k : string) : bool :=
  negb (String.eqb k "") && negb (String.eqb k "null") && negb (String.eqb k "unknown").

(** The names that every object inherits from [Object.prototype]. The
    rollups are the properties of a plain object: under such a name
    [this.data.customers[id]] is the inherited member, the code creates
    no rollup and writes its counters onto that member. *)
Definition inheritedName (key : string) : bool :=
  existsb (String.eqb key)
    ["constructor"; "toString"; "toLocaleString"; "valueOf"; "hasOwnProperty";
     "isPrototypeOf"; "propertyIsEnumerable"; "__proto__"; "__defineGetter__";
     "__defineSetter__"; "__lookupGetter__"; "__lookupSetter__"].

(** No operation passes a customer id with an inherited name. *)
Definition ownIds (ops : list op) : bool :=
  forallb (fun o => match o with
                    | Call _ c => negb (inheritedName (cid_key (cd_customerId c)))
                    | Event _ _ d => negb (inheritedName (cid_key (ev_customerId d)))
                    | Reset _ => true
                    end) ops.

(** What a day report says against the log. *)
Definition reportReplays (log : list apiCall) (r : dayReport) : Prop :=
  calls r = countIf (onDay (date r)) log /\
  successful r = countIf (fun c => onDay (date r) c && succeeded c) log /\
  failed r = countIf (fun c => onDay (date r) c && negb (succeeded c)) log /\
  calls r = successful r + failed r /\
  0 <= customersSeen r <= calls r.

End Replay.

(** ** What is stated about [loadData] *)

Module Restore.
Import Js Analytics Runs Replay.

(** The [Set] holds the values of the array and nothing else. *)
Definition sameMembers (l s : list json) : Prop :=
  forall x, set_has x s = existsb (same_value_zero x) l.

(** A day of the file that held an array, and the same day after
    [loadData]: the counters are kept and the array has become a [Set] of
    the same members, without repetition when the members are ids. *)
Definition restoredFrom (before after : string * day) : Prop :=
  fst after = fst before /\
  day_totalCalls (snd after) = day_totalCalls (snd before) /\
  day_successfulCalls (snd after) = day_successfulCalls (snd before) /\
  day_failedCalls (snd after) = day_failedCalls (snd before) /\
  day_revenue (snd after) = day_revenue (snd before) /\
  exists l s,
    uniqueCustomers (snd before) = UPlain (JArr l) /\
    uniqueCustomers (snd after) = USet s /\
    sameMembers l s /\ (Forall isId l -> NoDup s).

(** The day holds an array. *)
Definition holdsArray (kd : string * day) : Prop :=
  exists l, uniqueCustomers (snd kd) = UPlain (JArr l).

(** Sample input: a file whose only day lists its customers in an array,
    one of them twice. *)
Definition arrayFile : data :=
  {| apiCalls := [];
     customers := ∅;
     dailyStats :=
       [("2025-01-14",
         {| day_totalCalls := 3;
            day_successfulCalls := 2;
            day_failedCalls := 1;
            uniqueCustomers := UPlain (JArr [JStr "shop_a"; JStr "shop_b"; JStr "shop_a"]);
            day_revenue := 0 |})];
     eventCounts := initialCounts;
     revenue := 0;
     startDate := "2025-01-14T08:00:00.000Z" |}.



End Restore.

(** ** Traffic through the gateway and what is stated about it *)

Module Traffic.
Import Js Analytics Gateway Runs Cases.

(** The try-on calls of a key that wait for the upstream provider. *)
Fixpoint runsOf (k : string) (l : list pendingCall) : Z :=
  match l with
  | [] => 0
  | PendingRun a _ :: r => (if String.eqb (a_apiKey a) k then 1 else 0) + runsOf k r
  | PendingStatus _ _ :: r => runsOf k r
  end.

(** The largest number of handlers suspended at once, before and during
    a run. *)
Fixpoint peak (cfg : config) (evs : list event) (sys : system) : nat :=
  match evs with
  | [] => length (inflight sys)
  | ev :: r => Nat.max (length (inflight sys)) (peak cfg r (step cfg sys ev))
  end.

(** No customer is over the limit and every limit is positive. *)
Definition withinLimits (keys : gmap string customer) : Prop :=
  map_Forall (fun _ c => used c <= limit c /\ 0 < limit c) keys.

(** By how much a counter can pass its limit when at most [p] handlers
    are suspended at once: one less than [p], and nothing when there is
    none. *)
Definition overshoot (p : nat) : Z := Z.max 1 (Z.of_nat p) - 1.

(** The invariant of a run: every limit is positive, and what a customer
    has used, with the calls of the key still in flight, passes the limit
    by no more than the overshoot of the bound [p] on the handlers
    suspended at once. *)
Definition bounded (p : nat) (sys : system) : Prop :=
  (length (inflight sys) <= p)%nat /\
  map_Forall (fun k c => 0 < limit c /\
                         used c + runsOf k (inflight sys) <= limit c + overshoot p)
             (demoKeys (srv sys)).

(** A reported [remaining] is not below minus the overshoot. *)
Definition floorAt (p : nat) (r : reply) : Prop :=
  match remainingOf r with
  | Some rem => - overshoot p <= rem
  | None => True
  end.

(** A reported [remaining] is [limit - used] of a customer. *)
Definition remainingFrom (keys : gmap string customer) (r : reply) : Prop :=
  match remainingOf r with
  | Some rem => exists k c, keys !! k = Some c /\ rem = limit c - used c
  | None => True
  end.

(** What of a customer no route changes. *)
Definition identity (c : customer) : string * string * string * Z :=
  (customerId c, email c, plan c, limit c).

(** Every request is answered. *)
Definition answered (r : reply) : Prop := is_Some (statusOf r).

(** The upstream call rejected: a time-out, a network failure, or a
    response that [axios] turns into an error. *)
Definition rejection (res : axiosResult) : bool :=
  match res with
  | AxResponse _ _ => false
  | AxErrorResponse _ | AxError _ => true
  end.

(** The status route from the settlement of [axios.get] on, for a
    response whose body is [null] ([statusResp.data], which [fashnData]
    cannot hold). With a status that passes the check the success record
    is tracked and the read of [data.status] throws; with another status
    the read of [data.error] throws. Either way the [catch] block takes
    over; the messages are those of V8's [TypeError]. *)
Definition status_end_null (w : world) (a : admitted) (id : string) (st : Z)
    (s : server) : server * reply :=
  if (st =? 0) || (400 <=? st)
  then statusCatch w 0 a id "Cannot read properties of null (reading 'error')" s
  else
    let (t1, tracked) :=
      trackApiCall (tick w 0%nat)
        {| cd_customerId := Some (customerId (a_customer a));
           cd_apiKey := Some (a_apiKey a);
           cd_endpoint := "/api/tryon/" +:+ id;
           cd_method := "GET";
           cd_status := StStr "success";
           cd_duration := elapsed w;
           cd_productId := None;
           cd_error := None |}
        (analytics s) in
    let s1 := {| demoKeys := demoKeys s; analytics := t1 |} in
    match tracked with
    | Throw m => statusCatch w 1 a id m s1
    | Ok _ => statusCatch w 1 a id "Cannot read properties of null (reading 'status')" s1
    end.

(** Sample input: a status poll between a submission and its upstream
    result. *)
Definition pollWhileRunning : list event :=
  [Arrive PostTryOn (withKey (Some demoKey) bothImages) calm;
   Arrive (GetStatus "pred_123") (withKey (Some demoKey) bothImages) calm;
   Complete 1 (AxResponse 200 queued) calm;
   Complete 0 (AxResponse 200 queued) calm].

Definition completed : fashnData :=
  {| fd_id := Some "pred_123"; fd_status := Some "completed"; fd_error_message := None |}.

End Traffic.

(** ** vmize-proxy-server.js: the admin routes and the status route *)

Module ProxyAdmin.
Import Proxy.

(** The names that every object literal inherits from [Object.prototype]:
    [planLimits[plan]] is then that member, not a number and not
    [undefined]. *)
Definition inheritedName (plan : string) : bool :=
  existsb (String.eqb plan)
    ["constructor"; "toString"; "toLocaleString"; "valueOf"; "hasOwnProperty";
     "isPrototypeOf"; "propertyIsEnumerable"; "__proto__"; "__defineGetter__";
     "__defineSetter__"; "__lookupGetter__"; "__lookupSetter__"].

(** [planLimits[plan] || 100], for a [plan] that is a string; [None] where
    the value is an inherited member, which the record [customer] cannot
    hold. *)
Definition planLimitOf (plan : string) : option Z :=
  if inheritedName plan then None
  else if String.eqb plan "starter" then Some 100
  else if String.eqb plan "professional" then Some 500
  else if String.eqb plan "business" then Some 2000
  else if String.eqb plan "enterprise" then Some 10000
  else Some 100.

(** [`vmize_pk_live_${customerId}_${Date.now()}`] *)
Definition newKey (customerId millis : string) : string :=
  "vmize_pk_live_" +:+ (customerId +:+ ("_" +:+ millis)).

(** [POST /admin/generate-key] with the three fields of the body given as
    strings and [millis] the decimal digits of [Date.now()]: the map after
    [CUSTOMER_API_KEYS.set] and the key of the response. The field
    [createdAt] is left out. *)
Definition generateKey (customerId plan email millis : string)
    (keys : gmap string customer) : option (gmap string customer * string) :=
  let apiKey := newKey customerId millis in
  limit ← planLimitOf plan;
  Some (<[apiKey := {| customerId := customerId;
                       apiKey := apiKey;
                       plan := plan;
                       email := email;
                       status := "active";
                       planLimit := limit;
                       usageThisMonth := 0 |}]> keys,
        apiKey).

(** [POST /admin/revoke-key]: the map afterwards and whether the key was
    there (200) or not (404). *)
Definition revokeKey (apiKey : string) (keys : gmap string customer)
  : gmap string customer * bool :=
  match keys !! apiKey with
  | Some _ => (delete apiKey keys, true)
  | None => (keys, false)
  end.

(** What [fetch] does on the status route: a response with its [ok] flag
    and its body, or a rejection. *)
Inductive statusFetch :=
| StatusFetched (ok : bool) (data : string)
| StatusFailed.

(** The requests that the file serves ([GET /health] apart). *)
Inductive request :=
| GenerateKey (customerId plan email millis : string)
| RevokeKey (apiKey : string)
| TryOn (header model_image garment_image : option string) (upstream : fetchResult)
| PollStatus (header : option string) (id : string) (upstream : statusFetch)
| Usage (header : option string).

(** The responses: the issued key, the revocation, the provider's status
    passed on, or one of the replies of the other routes. *)
Inductive answer :=
| Issued (apiKey : string)
| Revoked
| StatusPassed (data : string)
| Plain (r : reply).

(** [GET /api/tryon/:id] *)
Definition getStatus (keys : gmap string customer) (header : option string)
    (upstream : statusFetch) : answer :=
  match verifyCustomerApiKey keys header with
  | Rejected r => Plain r
  | Allowed _ =>
      match upstream with
      | StatusFetched true data => StatusPassed data
      | StatusFetched false _ | StatusFailed =>
          Plain (mkReply 500 (Problem "Internal Server Error" "Failed to check try-on status"))
      end
  end.

(** One request against the map of customers. *)
Definition serve (keys : gmap string customer) (rq : request)
  : option (gmap string customer * answer) :=
  match rq with
  | GenerateKey customerId plan email millis =>
      '(keys', k) ← generateKey customerId plan email millis keys;
      Some (keys', Issued k)
  | RevokeKey k =>
      let (keys', found) := revokeKey k keys in
      Some (keys', if found then Revoked
                   else Plain (mkReply 404 (Problem "Not Found" "API key not found")))
  | TryOn header m g upstream =>
      Some (keys, Plain (fst (postTryOn keys header m g upstream)))
  | PollStatus header _ upstream => Some (keys, getStatus keys header upstream)
  | Usage header => Some (keys, Plain (getUsage keys header))
  end.

(** A sequence of requests, one after the other: the map at the end and
    the responses. *)
Fixpoint serveAll (keys : gmap string customer) (rqs : list request)
  : option (gmap string customer * list answer) :=
  match rqs with
  | [] => Some (keys, [])
  | rq :: rest =>
      '(keys1, a) ← serve keys rq;
      '(keys2, l) ← serveAll keys1 rest;
      Some (keys2, a :: l)
  end.

(** The status code of a response. *)
Definition codeOf (a : answer) : Z :=
  match a with
  | Issued _ | Revoked | StatusPassed _ => 200
  | Plain r => code r
  end.

(** No key is requested for a plan with an inherited name. *)
Definition ownPlans (rqs : list request) : bool :=
  forallb (fun rq => match rq with
                     | GenerateKey _ plan _ _ => negb (inheritedName plan)
                     | _ => true
                     end) rqs.

(** A customer as [generateKey] makes one: active, nothing used, a limit
    of at least 100. *)
Definition pristine (c : customer) : Prop :=
  status c = "active" /\ usageThisMonth c = 0 /\ 100 <= planLimit c.

(** Sample input: a key is issued, used for two try-ons and a usage
    query, and revoked. *)
Definition lifeOfAKey : list request :=
  [GenerateKey "store123" "starter" "owner@example.com" "1736942400000";
   TryOn (Some (newKey "store123" "1736942400000")) (Some "m") (Some "g")
         (Fetched true (Some "pred_1"));
   TryOn (Some (newKey "store123" "1736942400000")) (Some "m") (Some "g")
         (Fetched true (Some "pred_2"));
   Usage (Some (newKey "store123" "1736942400000"));
   RevokeKey (newKey "store123" "1736942400000");
   Usage (Some (newKey "store123" "1736942400000"))].

End ProxyAdmin.

(** ** The admin routes (admin-routes.js) *)

Module AdminRoutes.

(** A document of the [Customer] collection as far as these routes read
    it: [tryons] is [usage.currentMonth.tryons] and [history] is
    [usage.history] (month and try-ons of each entry), [None] where a link
    of the optional chain is missing. *)
Record customerDoc := mkCustomerDoc {
  _id : string;
  companyName : string;
  email : string;
  plan : string;
  subscriptionStatus : string;
  tryons : option Z;
  history : option (list (string * Z))
}.

(** What a query of the collection gives: the documents, or a rejection. *)
Inductive found (A : Type) :=
| Docs (a : A)
| DbError.
Arguments Docs {A} a.
Arguments DbError {A}.

(** [adminToken !== process.env.ADMIN_SECRET_TOKEN] decides [requireAdmin];
    both are a string or [undefined]. *)
Definition requireAdmin (secret header : option string) : bool :=
  match header, secret with
  | Some h, Some s => String.eqb h s
  | None, None => true
  | _, _ => false
  end.

(** The names that every object literal inherits from [Object.prototype]:
    a lookup of one of them in a table gives that member. *)
Definition inheritedName (key : string) : bool :=
  existsb (String.eqb key)
    ["constructor"; "toString"; "toLocaleString"; "valueOf"; "hasOwnProperty";
     "isPrototypeOf"; "propertyIsEnumerable"; "__proto__"; "__defineGetter__";
     "__defineSetter__"; "__lookupGetter__"; "__lookupSetter__"].

(** [getPlanLimit]: [limits[plan] || 100]; [None] where the value is an
    inherited member and not a number. *)
Definition getPlanLimit (plan : string) : option Z :=
  if inheritedName plan then None
  else if String.eqb plan "starter" then Some 100
  else if String.eqb plan "professional" then Some 500
  else if String.eqb plan "business" then Some 2000
  else if String.eqb plan "enterprise" then Some 10000
  else Some 100.

Record offer := mkOffer {
  name : string;
  price : Z;
  limit : Z
}.

(** [getNextPlan]: [plans[currentPlan] || plans.starter]; [None] where the
    value is an inherited member and not an offer. *)
Definition getNextPlan (currentPlan : string) : option offer :=
  if inheritedName currentPlan then None
  else if String.eqb currentPlan "starter" then Some (mkOffer "Professional" 79 500)
  else if String.eqb currentPlan "professional" then Some (mkOffer "Business" 199 2000)
  else if String.eqb currentPlan "business" then Some (mkOffer "Enterprise" 499 10000)
  else Some (mkOffer "Professional" 79 500).

(** [c.usage?.currentMonth?.tryons || 0] *)
Definition usageOf (c : customerDoc) : Z :=
  match tryons c with
  | Some n => n
  | None => 0
  end.

(** [(usage / limit) >= 0.8] and [(usage / limit) * 100 >= 80]. The code
    compares doubles; for an integer usage and the limits of the table
    both agree with the exact comparison. With a limit that is not a
    number the quotient is [NaN] and the comparison fails. *)
Definition atEightyPercent (usage : Z) (limit : option Z) : bool :=
  match limit with
  | Some l => 80 * l <=? 100 * usage
  | None => false
  end.

(** The filter [near-limit] of [GET /admin/customers]. *)
Definition nearLimit (customers : list customerDoc) : list customerDoc :=
  filter (fun c => atEightyPercent (usageOf c) (getPlanLimit (plan c)) = true) customers.

Record opportunity := mkOpportunity {
  customerId : string;
  oppCompanyName : string;
  oppEmail : string;
  currentPlan : string;
  usage : Z;
  oppLimit : option Z;
  recommendedPlan : option offer
}.

Definition listed (c : customerDoc) : bool :=
  atEightyPercent (usageOf c) (getPlanLimit (plan c)) && negb (String.eqb (plan c) "enterprise").

Definition opportunityOf (c : customerDoc) : opportunity :=
  {| customerId := _id c;
     oppCompanyName := companyName c;
     oppEmail := email c;
     currentPlan := plan c;
     usage := usageOf c;
     oppLimit := getPlanLimit (plan c);
     recommendedPlan := getNextPlan (plan c) |}.

(** The body of [GET /admin/upsell-opportunities] over the collection:
    [Customer.find({ subscriptionStatus: 'active' })], then the filter and
    the map. The field [percentUsed] is left out. *)
Definition upsellOpportunities (collection : list customerDoc) : list opportunity :=
  map opportunityOf
    (filter (fun c => listed c = true)
       (filter (fun c => subscriptionStatus c = "active") collection)).

Inductive adminReply :=
| Forbidden
| Opportunities (l : list opportunity)
| NotFound
| EmailSent (to : string) (nextPlan : offer) (mailUsage mailLimit : Z)
| Failed (error : string).

(** [GET /admin/upsell-opportunities] *)
Definition getUpsellOpportunities (secret header : option string)
    (collection : found (list customerDoc)) : adminReply :=
  if negb (requireAdmin secret header) then Forbidden
  else match collection with
       | DbError => Failed "Failed to fetch opportunities"
       | Docs l => Opportunities (upsellOpportunities l)
       end.

(** [POST /admin/send-upsell-email]: [customer] is what
    [Customer.findById] gives, [updated] whether [Customer.updateOne]
    resolves. The mail is built before the update; for a plan with an
    inherited name [nextPlan.limit] is [undefined] and
    [nextPlan.limit.toLocaleString()] throws. *)
Definition sendUpsellEmail (secret header : option string)
    (customer : found (option customerDoc)) (updated : bool) : adminReply :=
  if negb (requireAdmin secret header) then Forbidden
  else match customer with
       | DbError => Failed "Failed to send email"
       | Docs None => NotFound
       | Docs (Some c) =>
           match getPlanLimit (plan c), getNextPlan (plan c) with
           | Some l, Some nextPlan =>
               if updated then EmailSent (email c) nextPlan (usageOf c) l
               else Failed "Failed to send email"
           | _, _ => Failed "Failed to send email"
           end
       end.

(** [GET /admin/analytics/usage]: one step of the inner [forEach]. The
    table is [None] once a month has an inherited name, where
    [usageByMonth[h.month]] is a member of [Object.prototype] and [+=]
    makes a string. *)
Definition addMonth (table : option (gmap string Z)) (h : string * Z)
  : option (gmap string Z) :=
  t ← table;
  if inheritedName (fst h) then None
  else
    let t0 := match t !! fst h with
              | Some v => if v =? 0 then <[fst h := 0]> t else t
              | None => <[fst h := 0]> t
              end in
    Some (alter (fun v => v + snd h) (fst h) t0).

Definition addCustomer (table : option (gmap string Z)) (c : customerDoc)
  : option (gmap string Z) :=
  match history c with
  | Some hs => fold_left addMonth hs table
  | None => table
  end.

Definition usageByMonth (customers : list customerDoc) : option (gmap string Z) :=
  fold_left addCustomer customers (Some ∅).

(** All entries of all histories. *)
Definition archived (customers : list customerDoc) : list (string * Z) :=
  concat (map (fun c => default [] (history c)) customers).

Definition monthTotal (month : string) (entries : list (string * Z)) : Z :=
  fold_right (fun h acc => if String.eqb (fst h) month then snd h + acc else acc) 0 entries.

Definition monthSeen (month : string) (entries : list (string * Z)) : bool :=
  existsb (fun h => String.eqb (fst h) month) entries.

(** What the table holds for a month when it replays the entries. *)
Definition replays (table : gmap string Z) (entries : list (string * Z)) : Prop :=
  forall month,
    table !! month
    = if monthSeen month entries then Some (monthTotal month entries) else None.

Definition ownMonths (entries : list (string * Z)) : bool :=
  forallb (fun h => negb (inheritedName (fst h))) entries.

(** Sample input: three active customers and an inactive one. *)
Definition sampleCollection : list customerDoc :=
  [mkCustomerDoc "c1" "Alpha" "a@example.com" "starter" "active" (Some 85)
     (Some [("2025-01", 90); ("2025-02", 40)]);
   mkCustomerDoc "c2" "Beta" "b@example.com" "enterprise" "active" (Some 9900)
     (Some [("2025-01", 7000)]);
   mkCustomerDoc "c3" "Gamma" "c@example.com" "business" "active" (Some 10) None;
   mkCustomerDoc "c4" "Delta" "d@example.com" "professional" "cancelled" (Some 499)
     (Some [("2025-02", 0)])].

End AdminRoutes.

(** ** server.js: the origin check of CORS *)

Module Cors.

(** [s.split(sep)] for a separator of one character: never empty. *)
Fixpoint split (sep : ascii) (s : string) : list string :=
  match s with
  | EmptyString => [EmptyString]
  | String c r =>
      if Ascii.eqb c sep then EmptyString :: split sep r
      else match split sep r with
           | h :: t => String c h :: t
           | [] => [String c EmptyString]
           end
  end.

(** [s.includes(c)] for a character. *)
Fixpoint contains (c : ascii) (s : string) : bool :=
  match s with
  | EmptyString => false
  | String a r => Ascii.eqb a c || contains c r
  end.

(** The array [allowedOrigins]; its first element is [undefined] when
    [FRONTEND_URL] is not set. *)
Definition allowedOrigins (FRONTEND_URL ALLOWED_ORIGINS : option string)
  : list (option string) :=
  [FRONTEND_URL;
   Some "http://localhost:3000";
   Some "http://localhost:5000";
   Some "http://127.0.0.1:5000";
   Some "http://localhost:5173"]
  ++ match ALLOWED_ORIGINS with
     | Some s => map Some (split "," s)
     | None => []
     end.

(** The callback [origin] of [corsOptions]: [true] for
    [callback(null, true)], [false] for the error 'Not allowed by CORS'. *)
Definition origin (FRONTEND_URL ALLOWED_ORIGINS : option string) (o : option string)
  : bool :=
  match o with
  | None => true
  | Some s =>
      if String.eqb s "" then true
      else existsb (fun a => match a with
                             | Some t => String.eqb t s
                             | None => false
                             end)
             (allowedOrigins FRONTEND_URL ALLOWED_ORIGINS)
  end.

(** The origins that the code lists itself. *)
Definition builtIn : list string :=
  ["http://localhost:3000"; "http://localhost:5000"; "http://127.0.0.1:5000";
   "http://localhost:5173"].

(** Origins that can be written into [ALLOWED_ORIGINS]: at least one, none
    with a comma. *)
Definition listable (origins : list string) : bool :=
  negb (Nat.eqb (length origins) 0) && forallb (fun o => negb (contains "," o)) origins.

End Cors.

(** ** routes/tryon.js *)

Module TryonRoute.
Import Js.

(** [obj[key]] for one of the keys that the route reads, none of which a
    prototype defines: [None] is [undefined]. Of a repeated key
    [JSON.parse] keeps the last value. *)
Fixpoint lookupLast (key : string) (l : list (string * json)) : option json :=
  match l with
  | [] => None
  | (k, v) :: rest =>
      match lookupLast key rest with
      | Some w => Some w
      | None => if String.eqb k key then Some v else None
      end
  end.

Definition prop (v : json) (key : string) : option json :=
  match v with
  | JObj l => lookupLast key l
  | _ => None
  end.

(** [!!v] for a value that may be [undefined]. *)
Definition truthyOpt (v : option json) : bool :=
  match v with
  | Some w => truthy w
  | None => false
  end.

(** [a || b] *)
Definition orElse (a b : option json) : option json :=
  if truthyOpt a then a else b.

(** [v?.key] *)
Definition chain (v : option json) (key : string) : option json :=
  match v with
  | None | Some JNull => None
  | Some w => prop w key
  end.

Inductive reply :=
| MissingToken
| InvalidToken
| MissingImages
| Image (imageUrl : json)
| Processing (id status : json)
| ServerError (message : string).

Definition code (r : reply) : Z :=
  match r with
  | MissingToken | InvalidToken => 401
  | MissingImages => 400
  | Image _ | Processing _ _ => 200
  | ServerError _ => 500
  end.

(** [verifyJwt]: the token handed to [jwt.verify], or the 401 for a missing
    one. [authorization] is the header; Node gives the names of headers in
    lower case, so [req.headers.Authorization] is never set. *)
Definition bearerToken (authorization : option string) : option string :=
  let auth := match authorization with
              | Some s => s
              | None => ""
              end in
  let parts := Cors.split " " auth in
  match parts with
  | first :: rest =>
      if String.eqb first "Bearer"
      then match rest with
           | second :: _ => if String.eqb second "" then None else Some second
           | [] => None
           end
      else None
  | [] => None
  end.

(** [verifyJwt] with [verify] for [jwt.verify(token, secret)], [None] where
    it throws: the payload for [next()], or the reply. *)
Definition verifyJwt {user : Type} (verify : string -> option user)
    (authorization : option string) : user + reply :=
  match bearerToken authorization with
  | None => inr MissingToken
  | Some token =>
      match verify token with
      | Some u => inl u
      | None => inr InvalidToken
      end
  end.

(** What [fetch] and [resp.json()] give: the parsed body, or a rejection
    with its message. The status of the response is not read. *)
Inductive upstream :=
| Resolved (body : json)
| Rejected (message : string).

(** The handler of [POST /generate] after [verifyJwt]; the second
    component tells whether [fetch] was called. For the body [null] the
    read of [body.id] throws; the message is the one of V8's
    [TypeError]. *)
Definition generate (modelImage garmentImage : option json) (up : upstream)
  : reply * bool :=
  if negb (truthyOpt modelImage) || negb (truthyOpt garmentImage)
  then (MissingImages, false)
  else match up with
       | Rejected message => (ServerError message, true)
       | Resolved body =>
           let found :=
             if truthy body
             then orElse (orElse (chain (prop body "output") "image_url")
                                 (chain (prop body "data") "imageUrl"))
                         (prop body "imageUrl")
             else Some body in
           if truthyOpt found
           then (Image (default JNull found), true)
           else match body with
                | JNull => (ServerError "Cannot read properties of null (reading 'id')", true)
                | _ =>
                    (Processing
                       (default JNull (orElse (prop body "id") (Some JNull)))
                       (default JNull (orElse (prop body "status") (Some (JStr "processing")))),
                     true)
                end
       end.

(** [POST /generate] *)
Definition postGenerate {user : Type} (verify : string -> option user)
    (authorization : option string) (modelImage garmentImage : option json)
    (up : upstream) : reply * bool :=
  match verifyJwt verify authorization with
  | inr r => (r, false)
  | inl _ => generate modelImage garmentImage up
  end.

(** Sample input: the body that the flow tests mock for the provider. *)
Definition mockedBody : json :=
  JObj [("output", JObj [("image_url", JStr "https://example.com/fake-tryon.jpg")]);
        ("result", JObj [("ok", JBool true)])].

End TryonRoute.

(** * Properties of the analytics tracker *)

Section DayLists.
Import Js Analytics Runs.

Lemma day_alter_Forall (P : day -> Prop) f k l :
  (forall d, P d -> P (f d)) ->
  Forall (fun kd => P (snd kd)) l -> Forall (fun kd => P (snd kd)) (day_alter f k l).
Proof.
  intros Hf. induction 1 as [|[k' d] r Hd Hr IH]; simpl; [constructor|].
  destruct (String.eqb k k'); constructor; simpl in *; auto.
Qed.

Lemma day_alter_alter f g k l :
  day_alter f k (day_alter g k l) = day_alter (fun d => f (g d)) k l.
Proof.
  induction l as [|[k' d] r IH]; simpl; [done|].
  destruct (String.eqb k k') eqn:E; simpl; rewrite E; [done|]. by rewrite IH.
Qed.

Lemma day_lookup_alter f k l :
  day_lookup k (day_alter f k l) = f <$> day_lookup k l.
Proof.
  induction l as [|[k' d] r IH]; simpl; [done|].
  destruct (String.eqb k k') eqn:E; simpl; rewrite E; [done|]. apply IH.
Qed.

Lemma day_lookup_Forall (P : day -> Prop) k l d :
  Forall (fun kd => P (snd kd)) l -> day_lookup k l = Some d -> P d.
Proof.
  induction 1 as [|[k' d'] r Hd Hr IH]; simpl; [done|].
  destruct (String.eqb k k'); [|done]. by intros [= <-].
Qed.

Lemma day_ensure_Forall (P : day -> Prop) k l :
  P freshDay ->
  Forall (fun kd => P (snd kd)) l -> Forall (fun kd => P (snd kd)) (day_ensure k l).
Proof.
  intros H0 Hl. unfold day_ensure. destruct (day_lookup k l); [done|].
  apply Forall_app; split; [done|]. by constructor.
Qed.

Lemma day_lookup_ensure k l : is_Some (day_lookup k (day_ensure k l)).
Proof.
  unfold day_ensure. destruct (day_lookup k l) eqn:E; [by rewrite E|].
  induction l as [|[k' d] r IH]; simpl in *.
  - rewrite String.eqb_refl. by eexists.
  - destruct (String.eqb k k'); [done|]. by apply IH.
Qed.

End DayLists.

Section Invariant.
Import Js Analytics Runs.

Lemma saveData_tdata ok t : tdata (saveData ok t) = tdata t.
Proof. by destruct ok. Qed.

Lemma countCall_balanced c stamp r : balanced r -> balanced (countCall c stamp r).
Proof. unfold balanced. simpl. destruct (is_success _); lia. Qed.

Lemma trackApiCall_wellFormed e c t :
  wellFormed t -> wellFormed (fst (trackApiCall e c t)).
Proof.
  intros [Hc Hd]. unfold trackApiCall.
  set (key := cid_key (cd_customerId c)).
  set (dk := before_T (iso e)).
  assert (Hc' : map_Forall (fun _ r => balanced r)
            (alter (countCall c (iso e)) key
               match customers (tdata t) !! key with
               | Some _ => customers (tdata t)
               | None => <[key:=freshRollup (iso e)]> (customers (tdata t))
               end)).
  { intros k r. rewrite lookup_alter. case_decide as Hk.
    - subst k. destruct (customers (tdata t) !! key) as [r0|] eqn:E.
      + rewrite E. intros [= <-]. apply countCall_balanced. by eapply Hc.
      + rewrite lookup_insert_eq. intros [= <-]. by apply countCall_balanced.
    - destruct (customers (tdata t) !! key) eqn:E.
      + apply Hc.
      + rewrite lookup_insert_ne by done. apply Hc. }
  assert (He : Forall (fun kd => dayBalanced (snd kd) /\ has_add (snd kd) = true)
            (day_ensure dk (dailyStats (tdata t)))).
  { by apply (day_ensure_Forall (fun d => dayBalanced d /\ has_add d = true)). }
  rewrite day_lookup_alter.
  destruct (day_lookup_ensure dk (dailyStats (tdata t))) as [d0 Hd0].
  rewrite Hd0. simpl.
  pose proof (day_lookup_Forall (fun d => dayBalanced d /\ has_add d = true) _ _ _ He Hd0)
    as [Hb Ha].
  replace (has_add (bumpTotal d0)) with true by (by rewrite <- Ha).
  simpl. unfold wellFormed. rewrite saveData_tdata. split; simpl; [done|].
  rewrite day_alter_alter.
  apply (day_alter_Forall (fun d => dayBalanced d /\ has_add d = true)); [|done].
  intros d [Hdb Hda]. unfold dayBalanced, has_add, addCustomer in *. simpl.
  destruct (uniqueCustomers d) eqn:Eu; [|done]. simpl.
  split; [|done]. destruct (is_success _); lia.
Qed.

Lemma trackEvent_wellFormed e n d t :
  wellFormed t -> wellFormed (trackEvent e n d t).
Proof.
  intros [Hc Hd]. unfold trackEvent, wellFormed. rewrite saveData_tdata. simpl.
  destruct (revenueOf d) as [r|]; simpl; [|done]. split.
  - destruct (cid_truthy _); [|done].
    intros k x. rewrite lookup_alter. case_decide as Hk; [|apply Hc].
    rewrite Hk. destruct (customers (tdata t) !! k) as [x0|] eqn:E; simpl; [|done].
    intros [= <-]. apply (Hc _ _ E).
  - by apply (day_alter_Forall (fun d => dayBalanced d /\ has_add d = true)).
Qed.

Lemma started_wellFormed stamp f : wellFormed (started stamp f).
Proof. split; simpl; [apply map_Forall_empty | constructor]. Qed.

Lemma reset_wellFormed e t : wellFormed (reset e t).
Proof.
  unfold reset, wellFormed. rewrite saveData_tdata. apply (started_wellFormed (iso e) None).
Qed.

Lemma apply_wellFormed t o : wellFormed t -> wellFormed (apply t o).
Proof.
  destruct o; simpl; auto using trackApiCall_wellFormed, trackEvent_wellFormed, reset_wellFormed.
Qed.

Lemma after_wellFormed ops t : wellFormed t -> wellFormed (after ops t).
Proof.
  revert t. induction ops as [|o ops IH]; intros t Ht; simpl; [done|].
  apply IH. by apply apply_wellFormed.
Qed.

(** C10. From the state of the constructor or of [reset], after any
    sequence of [trackApiCall], [trackEvent] and [reset], every customer
    rollup and every daily aggregate has
    [totalCalls = successfulCalls + failedCalls]. *)
Theorem C10_totals_balance :
  forall stamp f ops,
    map_Forall (fun _ r => balanced r) (customers (tdata (after ops (started stamp f)))) /\
    Forall (fun kd => dayBalanced (snd kd)) (dailyStats (tdata (after ops (started stamp f)))).
Proof.
  intros stamp f ops.
  destruct (after_wellFormed ops _ (started_wellFormed stamp f)) as [Hc Hd].
  split; [done|]. eapply Forall_impl; [exact Hd|]. by intros kd [H _].
Qed.

End Invariant.

Section Events.
Import Js Analytics Runs.

Lemma eventCounts_trackEvent e n d t :
  eventCounts (tdata (trackEvent e n d t)) = countEvent n (eventCounts (tdata t)).
Proof. unfold trackEvent. rewrite saveData_tdata. by destruct (revenueOf d). Qed.

Lemma eventCounts_trackApiCall e c t :
  eventCounts (tdata (fst (trackApiCall e c t))) = eventCounts (tdata t).
Proof.
  unfold trackApiCall. destruct (day_lookup _ _) as [dy|]; [|done].
  destruct (has_add dy); [|done]. simpl. by rewrite saveData_tdata.
Qed.

Lemma lookup_countEvent n m k :
  countEvent n m !! k = if decide (n = k) then Some (countOr0 m n + 1) else m !! k.
Proof.
  unfold countEvent, countOr0.
  destruct (m !! n) eqn:E; simpl; rewrite lookup_insert; by case_decide.
Qed.

Lemma countOr0_countEvent n m k :
  countOr0 (countEvent n m) k = if decide (n = k) then countOr0 m n + 1 else countOr0 m k.
Proof. unfold countOr0 at 1. rewrite lookup_countEvent. by case_decide. Qed.

Lemma countEvent_comm n k m :
  countEvent n (countEvent k m) = countEvent k (countEvent n m).
Proof.
  apply map_eq. intros i. rewrite !lookup_countEvent, !countOr0_countEvent.
  repeat case_decide; congruence.
Qed.

Lemma getConversionFunnel_ext a b :
  eventCounts (tdata a) = eventCounts (tdata b) ->
  getConversionFunnel a = getConversionFunnel b.
Proof. unfold getConversionFunnel. by intros ->. Qed.

(** C9. Recording two events in either order gives the same event
    counters and the same funnel. After ['photo_uploaded'] and
    ['tryon_initiated'], whatever the order, [uploadRate] is
    [calculateRate] of the two counts, each one more than before: the
    percentage (uploaded + 1) / (initiated + 1) * 100 when the count of
    starts was not negative. *)
Theorem C9_event_order_irrelevant :
  forall (t : tracker) (n k : string) (e1 e2 e3 e4 : env) (d1 d2 : eventData),
    eventCounts (tdata (trackEvent e2 k d2 (trackEvent e1 n d1 t))) =
    eventCounts (tdata (trackEvent e4 n d1 (trackEvent e3 k d2 t))) /\
    getConversionFunnel (trackEvent e2 k d2 (trackEvent e1 n d1 t)) =
    getConversionFunnel (trackEvent e4 n d1 (trackEvent e3 k d2 t)) /\
    uploadRate (getConversionFunnel
                  (trackEvent e2 "tryon_initiated" d2 (trackEvent e1 "photo_uploaded" d1 t))) =
    calculateRate (Some (countOr0 (eventCounts (tdata t)) "photo_uploaded" + 1))
                  (Some (countOr0 (eventCounts (tdata t)) "tryon_initiated" + 1)) /\
    uploadRate (getConversionFunnel
                  (trackEvent e4 "photo_uploaded" d1 (trackEvent e3 "tryon_initiated" d2 t))) =
    calculateRate (Some (countOr0 (eventCounts (tdata t)) "photo_uploaded" + 1))
                  (Some (countOr0 (eventCounts (tdata t)) "tryon_initiated" + 1)) /\
    (if 0 <=? countOr0 (eventCounts (tdata t)) "tryon_initiated"
     then calculateRate (Some (countOr0 (eventCounts (tdata t)) "photo_uploaded" + 1))
                        (Some (countOr0 (eventCounts (tdata t)) "tryon_initiated" + 1)) =
          RatePct (inject_Z (countOr0 (eventCounts (tdata t)) "photo_uploaded" + 1) /
                   inject_Z (countOr0 (eventCounts (tdata t)) "tryon_initiated" + 1) * 100)%Q
     else True).
Proof.
  intros.
  assert (E : eventCounts (tdata (trackEvent e2 k d2 (trackEvent e1 n d1 t))) =
              eventCounts (tdata (trackEvent e4 n d1 (trackEvent e3 k d2 t)))).
  { rewrite !eventCounts_trackEvent. apply countEvent_comm. }
  split; [exact E|]. split; [by apply getConversionFunnel_ext|].
  unfold getConversionFunnel. simpl.
  rewrite !eventCounts_trackEvent, !lookup_countEvent, !countOr0_countEvent.
  repeat case_decide; try done. repeat split.
  destruct (0 <=? _) eqn:E0; [|done]. apply Z.leb_le in E0.
  unfold calculateRate.
  destruct (_ + 1 =? 0) eqn:E1; [apply Z.eqb_eq in E1; lia|done].
Qed.

End Events.

Section Funnel.
Import Js Analytics Runs.

Lemma countsOk_initial : countsOk initialCounts.
Proof.
  split.
  - unfold stages. repeat (apply List.Forall_cons; [vm_compute; by eexists|]). constructor.
  - unfold initialCounts. repeat (apply map_Forall_insert_2; [lia|]). apply map_Forall_empty.
Qed.

Lemma countsOk_countEvent n m : countsOk m -> countsOk (countEvent n m).
Proof.
  intros [Hs Hm]. split.
  - eapply Forall_impl; [exact Hs|]. intros k Hk. simpl in *.
    rewrite lookup_countEvent. by case_decide.
  - intros k x. rewrite lookup_countEvent. case_decide; [|apply Hm].
    intros [= <-]. unfold countOr0. destruct (m !! n) as [y|] eqn:E; simpl; [|lia].
    pose proof (Hm _ _ E). simpl in *. lia.
Qed.

Lemma countsOk_apply t o :
  countsOk (eventCounts (tdata t)) -> countsOk (eventCounts (tdata (apply t o))).
Proof.
  destruct o; simpl.
  - by rewrite eventCounts_trackApiCall.
  - rewrite eventCounts_trackEvent. apply countsOk_countEvent.
  - intros _. unfold reset. rewrite saveData_tdata. apply countsOk_initial.
Qed.

Lemma countsOk_after ops t :
  countsOk (eventCounts (tdata t)) -> countsOk (eventCounts (tdata (after ops t))).
Proof.
  revert t. induction ops as [|o ops IH]; intros t Ht; simpl; [done|].
  apply IH. by apply countsOk_apply.
Qed.

Lemma calculateRate_rateOf a b :
  0 <= a -> 0 <= b -> rateOf a b (calculateRate (Some a) (Some b)).
Proof.
  intros Ha Hb. unfold rateOf, calculateRate.
  destruct (b =? 0) eqn:E; [done|]. apply Z.eqb_neq in E.
  eexists. split; [done|]. split; [reflexivity|].
  destruct b as [|p|p]; [lia| |lia].
  unfold Qle, Qdiv, Qmult, Qinv, inject_Z. simpl. split; [lia|]. split; intros H; nia.
Qed.

Lemma countsOk_rate m num den :
  countsOk m -> num ∈ stages -> den ∈ stages ->
  rateOf (countOr0 m num) (countOr0 m den) (calculateRate (m !! num) (m !! den)).
Proof.
  intros [Hs Hm] Hn Hd.
  rewrite Forall_forall in Hs.
  destruct (Hs _ Hn) as [a Ea]. destruct (Hs _ Hd) as [b Eb].
  unfold countOr0. rewrite Ea, Eb. simpl.
  apply calculateRate_rateOf; [apply (Hm _ _ Ea) | apply (Hm _ _ Eb)].
Qed.

Lemma calculateRate_zero num m den :
  zeroOnEmpty (countOr0 m den) (calculateRate num (m !! den)).
Proof.
  unfold zeroOnEmpty, countOr0, calculateRate.
  destruct (m !! den) as [b|]; simpl; [|done]. by destruct (b =? 0).
Qed.

(** C8, the ratio of two uploads to one start. *)
Lemma C8_upload_rate_above_one :
  uploadRate (getConversionFunnel
                (after twoUploadsOneStart (started "2025-01-15T11:59:00.000Z" None))) =
    RatePct (inject_Z 2 / inject_Z 1 * 100)%Q /\
  ~ inUnit (uploadRate (getConversionFunnel
                (after twoUploadsOneStart (started "2025-01-15T11:59:00.000Z" None)))).
Proof.
  assert (E : uploadRate (getConversionFunnel
                (after twoUploadsOneStart (started "2025-01-15T11:59:00.000Z" None))) =
              RatePct (inject_Z 2 / inject_Z 1 * 100)%Q) by (by vm_compute).
  split; [exact E|]. rewrite E. intros [_ H]. by vm_compute in H.
Qed.

(** C8, as the code has it. In every state of the tracker a ratio is ['0%']
    when its denominator count is zero. In every state reached from the
    constructor or [reset] a ratio with a non-zero denominator is the
    percentage numerator / denominator * 100 (which the code prints with
    one decimal), never negative and never ['NaN%']; it is at most 100%
    when the numerator count does not exceed the denominator count, and
    at least 100% when the numerator count is not below it: nothing
    confines it to 100%. *)
Theorem C8_funnel_rates :
  (forall t : tracker,
     zeroOnEmpty (tryonClick (getConversionFunnel t)) (uploadRate (getConversionFunnel t)) /\
     zeroOnEmpty (photoUpload (getConversionFunnel t)) (viewRate (getConversionFunnel t)) /\
     zeroOnEmpty (resultViewed (getConversionFunnel t)) (cartRate (getConversionFunnel t)) /\
     zeroOnEmpty (addToCart (getConversionFunnel t)) (purchaseRate (getConversionFunnel t))) /\
  (forall stamp f ops,
     let fn := getConversionFunnel (after ops (started stamp f)) in
     rateOf (photoUpload fn) (tryonClick fn) (uploadRate fn) /\
     rateOf (resultViewed fn) (photoUpload fn) (viewRate fn) /\
     rateOf (addToCart fn) (resultViewed fn) (cartRate fn) /\
     rateOf (purchase fn) (addToCart fn) (purchaseRate fn)).
Proof.
  split.
  - intros t. unfold getConversionFunnel. simpl. repeat split; apply calculateRate_zero.
  - intros stamp f ops.
    pose proof (countsOk_after ops (started stamp f) countsOk_initial) as H.
    unfold getConversionFunnel. simpl.
    repeat split; apply countsOk_rate; try done; unfold stages; set_solver.
Qed.

End Funnel.

Section Persistence.
Import Js Analytics Runs.

Lemma restore_stringified l :
  Forall (fun kd => has_add (snd kd) = true) l ->
  fst (restore (map (fun kd => (fst kd, stringify_day (snd kd))) l)) =
  map (fun kd => (fst kd, stringify_day (snd kd))) l.
Proof.
  destruct 1 as [|[k d] r Hd Hr]; simpl; [done|].
  unfold restore_day, has_add in *. simpl in *.
  destruct (uniqueCustomers d); [|done]. by simpl.
Qed.

(** After [saveData] and a restart, every day that held a [Set] holds the
    empty plain object. *)
Lemma restart_after_save stamp ok t :
  Forall (fun kd => has_add (snd kd) = true) (dailyStats (tdata t)) ->
  dailyStats (tdata (restart stamp ok (saveData true t))) =
  map (fun kd => (fst kd, with_unique (UPlain (JObj [])) (snd kd))) (dailyStats (tdata t)).
Proof.
  intros H. unfold restart, loadData. simpl.
  pose proof (restore_stringified _ H) as E.
  destruct (restore _) as [days threw]. simpl in E. subst days.
  assert (E : tdata (if threw
       then saveData ok {| tdata := with_days
           (map (fun kd => (fst kd, stringify_day (snd kd))) (dailyStats (tdata t)))
           (stringify (tdata t)); file := Some (stringify (tdata t)) |}
       else {| tdata := with_days
           (map (fun kd => (fst kd, stringify_day (snd kd))) (dailyStats (tdata t)))
           (stringify (tdata t)); file := Some (stringify (tdata t)) |}) =
     with_days (map (fun kd => (fst kd, stringify_day (snd kd))) (dailyStats (tdata t)))
       (stringify (tdata t))).
  { destruct threw; [by rewrite saveData_tdata|done]. }
  change (started stamp (file (saveData true t))) with
    (started stamp (Some (stringify (tdata t)))). simpl.
  rewrite E. simpl. apply map_ext_Forall.
  eapply Forall_impl; [exact H|]. intros [k d] Hd. simpl in *.
  unfold stringify_day, stringify_ucoll, with_unique, has_add in *.
  by destruct (uniqueCustomers d).
Qed.

(** C7, at one recorded call: the day holds the [Set] of one id; after
    [saveData] and a restart it holds the empty plain object, no id is
    left, and the next [trackApiCall] of that day throws. *)
Theorem C7_set_lost_on_restart :
  map (fun kd => idsOf (snd kd))
      (dailyStats (tdata (after [Call noon demoCall] (started "2025-01-15T11:59:00.000Z" None))))
    = [Some [JStr "demo_customer"]] /\
  map (fun kd => uniqueCustomers (snd kd))
      (dailyStats (tdata (restart "2025-01-15T12:30:00.000Z" true
         (saveData true (after [Call noon demoCall] (started "2025-01-15T11:59:00.000Z" None))))))
    = [UPlain (JObj [])] /\
  snd (trackApiCall noon demoCall
         (restart "2025-01-15T12:30:00.000Z" true
            (saveData true (after [Call noon demoCall] (started "2025-01-15T11:59:00.000Z" None)))))
    = Throw "this.data.dailyStats[dateKey].uniqueCustomers.add is not a function".
Proof. repeat split; by vm_compute. Qed.

End Persistence.

(** * Properties of the gateway *)

Section Admission.
Import Js Analytics Gateway Runs Cases.

Lemma verify_admitted keys h c k :
  verifyVmizeKey keys h = Allowed c k ->
  h = Some k /\ String.eqb k "" = false /\ String.prefix "vmize_pk_" k = true /\
  keys !! k = Some c /\ used c < limit c.
Proof.
  unfold verifyVmizeKey. destruct h as [k'|]; [|done].
  destruct (String.eqb k' "") eqn:E0; [done|].
  destruct (String.prefix "vmize_pk_" k') eqn:Ep; [|done]. simpl.
  destruct (keys !! k') as [c'|] eqn:Ek; [|done].
  destruct (limit c' <=? used c') eqn:El; [done|].
  intros [= <- <-]. apply Z.leb_gt in El. done.
Qed.

Lemma verify_wellformed_key keys k c :
  String.eqb k "" = false -> String.prefix "vmize_pk_" k = true -> keys !! k = Some c ->
  verifyVmizeKey keys (Some k) =
    if limit c <=? used c
    then Rejected (Reply 429 (QuotaInfo "Usage limit exceeded" (limit c) (used c)))
    else Allowed c k.
Proof. intros E0 Ep Ek. unfold verifyVmizeKey. by rewrite E0, Ep, Ek. Qed.

Lemma tryOnCatch_demoKeys w n a m s : demoKeys (fst (tryOnCatch w n a m s)) = demoKeys s.
Proof. done. Qed.

Lemma tryOnCatch_reply w n a m s :
  snd (tryOnCatch w n a m s) =
  Reply 500 (TryOnFailed m (usedNow (demoKeys s) (a_apiKey a))
                           (remainingNow (demoKeys s) (a_apiKey a))).
Proof. done. Qed.

Lemma trackApiCall_ok e c t :
  wellFormed t -> snd (trackApiCall e c t) = Ok (newCall e c).
Proof.
  intros [_ Hd]. unfold trackApiCall. rewrite day_lookup_alter.
  destruct (day_lookup_ensure (before_T (iso e)) (dailyStats (tdata t))) as [d0 Hd0].
  rewrite Hd0. simpl.
  assert (He : Forall (fun kd => dayBalanced (snd kd) /\ has_add (snd kd) = true)
            (day_ensure (before_T (iso e)) (dailyStats (tdata t)))).
  { by apply (day_ensure_Forall (fun d => dayBalanced d /\ has_add d = true)). }
  pose proof (day_lookup_Forall (fun d => dayBalanced d /\ has_add d = true) _ _ _ He Hd0)
    as [_ Ha].
  replace (has_add (bumpTotal d0)) with true by (by rewrite <- Ha). done.
Qed.

(** The first segment of [doTryOn] leaves [demoKeys] alone, and either
    answers 500 from the [catch] block or suspends on the upstream call. *)
Lemma doTryOn_begin_demoKeys cfg w a s :
  demoKeys (fst (doTryOn_begin cfg w a s)) = demoKeys s.
Proof.
  unfold doTryOn_begin.
  destruct (present (FASHN_API_KEY cfg)); simpl; [|done].
  destruct (model_image (a_body a)) as [m|]; [|done].
  destruct (garment_image (a_body a)) as [g|]; [|done].
  destruct (String.eqb m "" || String.eqb g ""); [done|].
  by destruct (url_error cfg).
Qed.

Lemma doTryOn_begin_shape cfg w a s :
  (exists m, snd (doTryOn_begin cfg w a s) =
     Done (Reply 500 (TryOnFailed m (usedNow (demoKeys s) (a_apiKey a))
                                    (remainingNow (demoKeys s) (a_apiKey a))))) \/
  (exists p, snd (doTryOn_begin cfg w a s) = Await (PendingRun a p)).
Proof.
  unfold doTryOn_begin.
  destruct (present (FASHN_API_KEY cfg)); simpl; [|left; by eexists].
  destruct (model_image (a_body a)) as [m|]; [|left; by eexists].
  destruct (garment_image (a_body a)) as [g|]; [|left; by eexists].
  destruct (String.eqb m "" || String.eqb g ""); [left; by eexists|].
  destruct (url_error cfg); [left|right]; by eexists.
Qed.

Lemma doTryOn_begin_wellFormed cfg w a s :
  wellFormed (analytics s) -> wellFormed (analytics (fst (doTryOn_begin cfg w a s))).
Proof.
  intros H. unfold doTryOn_begin.
  pose proof (fun e c t Ht => trackApiCall_wellFormed e c t Ht) as Hc.
  pose proof (fun e n d t Ht => trackEvent_wellFormed e n d t Ht) as He.
  destruct (present (FASHN_API_KEY cfg)); simpl; [|by auto].
  destruct (model_image (a_body a)) as [m|]; [|simpl; by auto].
  destruct (garment_image (a_body a)) as [g|]; [|simpl; by auto].
  destruct (String.eqb m "" || String.eqb g ""); [simpl; by auto|].
  destruct (url_error cfg); simpl; by auto.
Qed.

Lemma doTryOn_end_demoKeys w a res s :
  demoKeys (fst (doTryOn_end w a res s)) =
  if upstreamSucceeded res then counted a (demoKeys s) else demoKeys s.
Proof.
  unfold doTryOn_end, upstreamSucceeded, counted. destruct res as [st d|st|m]; [|done..].
  rewrite Z.leb_antisym. destruct (st <? 400); simpl; [|done].
  destruct (trackApiCall _ _ _) as [t1 [call|m]]; done.
Qed.

Lemma doTryOn_end_status w a res s :
  upstreamSucceeded res = false -> statusOf (snd (doTryOn_end w a res s)) = Some 500.
Proof.
  unfold doTryOn_end, upstreamSucceeded. destruct res as [st d|st|m]; [|done..].
  rewrite Z.leb_antisym. by intros ->.
Qed.

Lemma doTryOn_end_remaining w a res s :
  remainingOf (snd (doTryOn_end w a res s)) =
  remainingNow (demoKeys (fst (doTryOn_end w a res s))) (a_apiKey a).
Proof.
  unfold doTryOn_end. destruct res as [st d|st|m]; [|done..].
  destruct (400 <=? st); [done|].
  destruct (trackApiCall _ _ _) as [t1 [call|m]]; done.
Qed.

Lemma doTryOn_end_ok w a st d s :
  st < 400 -> wellFormed (analytics s) ->
  statusOf (snd (doTryOn_end w a (AxResponse st d) s)) = Some 200.
Proof.
  intros Hst Hw. unfold doTryOn_end.
  destruct (400 <=? st) eqn:E; [apply Z.leb_le in E; lia|].
  pose proof (trackApiCall_ok (tick w 0%nat)
    {| cd_customerId := cidOf (a_customer a); cd_apiKey := Some (a_apiKey a);
       cd_endpoint := "/api/tryon"; cd_method := "POST"; cd_status := StStr "success";
       cd_duration := elapsed w; cd_productId := productId (a_body a);
       cd_error := None |} (analytics s) Hw) as Hok.
  destruct (trackApiCall _ _ _) as [t1 r]. simpl in Hok. by subst r.
Qed.

Lemma used_counted a keys c :
  String.eqb (a_apiKey a) "" = false -> keys !! a_apiKey a = Some c ->
  counted a keys !! a_apiKey a = Some (incrementUsed c).
Proof.
  intros E Hk. unfold counted. rewrite E, lookup_alter.
  case_decide; [|done]. by rewrite Hk.
Qed.

End Admission.

Section TryOn.
Import Js Analytics Gateway Runs Cases.

Lemma arrive_tryOn cfg ep rq w s :
  isTryOn ep = true ->
  arrive cfg ep rq w s =
  match verifyVmizeKey (demoKeys s) (effectiveKey ep rq) with
  | Rejected r => (s, Done r)
  | Allowed c k =>
      doTryOn_begin cfg w {| a_customer := c; a_apiKey := k; a_body := body rq |} s
  end.
Proof. by destruct ep. Qed.

(** How a request to a try-on route goes when nothing runs in between: the
    middleware rejects it; or [doTryOn] answers 500 before its upstream
    call; or the upstream call is made and the second segment runs on a
    state with the same [demoKeys]. *)
Lemma handle_tryOn_cases cfg ep rq w res w' s :
  isTryOn ep = true ->
  (exists r, verifyVmizeKey (demoKeys s) (effectiveKey ep rq) = Rejected r /\
             calledUpstream cfg ep rq w s = false /\
             handle cfg ep rq w res w' s = (s, r)) \/
  (exists c k m s1,
     verifyVmizeKey (demoKeys s) (effectiveKey ep rq) = Allowed c k /\
     calledUpstream cfg ep rq w s = false /\ demoKeys s1 = demoKeys s /\
     handle cfg ep rq w res w' s =
       (s1, Reply 500 (TryOnFailed m (usedNow (demoKeys s) k) (remainingNow (demoKeys s) k)))) \/
  (exists c k s1,
     verifyVmizeKey (demoKeys s) (effectiveKey ep rq) = Allowed c k /\
     calledUpstream cfg ep rq w s = true /\ demoKeys s1 = demoKeys s /\
     s1 = fst (arrive cfg ep rq w s) /\
     handle cfg ep rq w res w' s =
       doTryOn_end w' {| a_customer := c; a_apiKey := k; a_body := body rq |} res s1).
Proof.
  intros Hep. unfold handle, calledUpstream. rewrite (arrive_tryOn _ _ _ _ _ Hep).
  destruct (verifyVmizeKey _ _) as [r|c k] eqn:Ev; [left; by eexists|]. right.
  set (a := {| a_customer := c; a_apiKey := k; a_body := body rq |}).
  pose proof (doTryOn_begin_demoKeys cfg w a s) as Hk.
  destruct (doTryOn_begin_shape cfg w a s) as [[m Hm]|[p Hp]];
    destruct (doTryOn_begin cfg w a s) as [s1 pr]; simpl in *; subst pr.
  - left. by exists c, k, m, s1.
  - right. by exists c, k, s1.
Qed.

Lemma doTryOn_begin_await cfg w a s m g :
  present (FASHN_API_KEY cfg) = true -> url_error cfg = None ->
  model_image (a_body a) = Some m -> garment_image (a_body a) = Some g ->
  String.eqb m "" = false -> String.eqb g "" = false ->
  exists p, snd (doTryOn_begin cfg w a s) = Await (PendingRun a p).
Proof.
  intros Hk Hu Hm Hg Em Eg. unfold doTryOn_begin. rewrite Hk, Hm, Hg, Em, Eg, Hu.
  simpl. by eexists.
Qed.

(** C3. Neither segment of [doTryOn] touches [demoKeys] unless the
    upstream call succeeded: the first never does; the second leaves it as
    it was and answers 500 when the upstream call failed (a rejection with
    or without a response, or a status of 400 or more), and counts one more
    call for the key of the request when it succeeded. The same holds of a
    whole request to the two try-on routes. *)
Theorem C3_usage_counted_on_success_only :
  forall (cfg : config) (w w' : world) (a : admitted) (res : axiosResult) (s : server),
    demoKeys (fst (doTryOn_begin cfg w a s)) = demoKeys s /\
    demoKeys (fst (doTryOn_end w' a res s)) =
      (if upstreamSucceeded res then counted a (demoKeys s) else demoKeys s) /\
    (if upstreamSucceeded res then True
     else statusOf (snd (doTryOn_end w' a res s)) = Some 500) /\
    used <$> counted a (demoKeys s) !! a_apiKey a =
      (if String.eqb (a_apiKey a) "" then used <$> demoKeys s !! a_apiKey a
       else (fun c => used c + 1) <$> demoKeys s !! a_apiKey a) /\
    Forall (fun ep =>
      forall rq,
        if calledUpstream cfg ep rq w s && negb (upstreamSucceeded res)
        then demoKeys (fst (handle cfg ep rq w res w' s)) = demoKeys s /\
             statusOf (snd (handle cfg ep rq w res w' s)) = Some 500
        else True) [PostTryOn; PostGenerate].
Proof.
  intros. split; [apply doTryOn_begin_demoKeys|].
  split; [apply doTryOn_end_demoKeys|]. split.
  { destruct (upstreamSucceeded res) eqn:E; [done|]. by apply doTryOn_end_status. }
  split.
  { unfold counted. destruct (String.eqb (a_apiKey a) ""); [done|].
    rewrite lookup_alter. case_decide; [|done].
    by destruct (demoKeys s !! a_apiKey a). }
  assert (H : forall ep rq, isTryOn ep = true ->
    if calledUpstream cfg ep rq w s && negb (upstreamSucceeded res)
    then demoKeys (fst (handle cfg ep rq w res w' s)) = demoKeys s /\
         statusOf (snd (handle cfg ep rq w res w' s)) = Some 500
    else True).
  { intros ep rq Hep.
    destruct (handle_tryOn_cases cfg ep rq w res w' s Hep)
      as [(r & _ & -> & _)|[(c & k & m & s1 & _ & -> & _)|(c & k & s1 & _ & -> & Hk & _ & ->)]];
      [done..|].
    destruct (upstreamSucceeded res) eqn:E; [done|]. simpl.
    rewrite doTryOn_end_demoKeys, E. split; [done|]. by apply doTryOn_end_status. }
  repeat constructor; intros rq; by apply H.
Qed.

(** C3 at an upstream call that times out, for the customer at 99 of
    100: the reply is 500 and [demoKeys] is as before. *)
Lemma C3_upstream_timeout :
  demoKeys (fst (handle liveConfig PostTryOn (withKey (Some demoKey) bothImages) calm
                   (AxError "timeout of 30000ms exceeded") calm almostFull)) =
    demoKeys almostFull /\
  statusOf (snd (handle liveConfig PostTryOn (withKey (Some demoKey) bothImages) calm
                   (AxError "timeout of 30000ms exceeded") calm almostFull)) = Some 500.
Proof.
  destruct (C3_usage_counted_on_success_only liveConfig calm calm
              {| a_customer := demoCustomer; a_apiKey := demoKey; a_body := bothImages |}
              (AxError "timeout of 30000ms exceeded") almostFull)
    as (_ & _ & _ & _ & H).
  apply Forall_cons in H as [H _].
  exact (H (withKey (Some demoKey) bothImages)).
Defined.

(** C4, at a submission without [model_image]: the gateway with analytics
    makes no upstream call and answers 500, where the plain proxy answers
    400. *)
Theorem C4_missing_image_answers_500 :
  snd (handle liveConfig PostTryOn (withKey (Some demoKey) garmentOnly) calm
         (AxResponse 200 queued) calm demoStore) =
    Reply 500 (TryOnFailed "Both model_image and garment_image are required"
                 (Some 0) (Some 500)) /\
  calledUpstream liveConfig PostTryOn (withKey (Some demoKey) garmentOnly) calm demoStore
    = false /\
  Proxy.postTryOn
    {[ "vmize_pk_live_store123" :=
         Proxy.mkCustomer "store123" "vmize_pk_live_store123" "professional"
           "owner@example.com" "active" 500 0 ]}
    (Some "vmize_pk_live_store123") None (Some "data:image/png;base64,GARMENT")
    (Proxy.Fetched true (Some "pred_123")) =
    (Proxy.mkReply 400 (Proxy.Problem "Bad Request" "model_image and garment_image are required"),
     false).
Proof. repeat split; by vm_compute. Qed.

(** Whatever the state, an admitted submission that lacks an image is
    answered 500 by [doTryOn]. *)
Lemma doTryOn_missing_image cfg w a s :
  present (FASHN_API_KEY cfg) = true ->
  present (model_image (a_body a)) && present (garment_image (a_body a)) = false ->
  snd (doTryOn_begin cfg w a s) =
    Done (Reply 500 (TryOnFailed "Both model_image and garment_image are required"
                       (usedNow (demoKeys s) (a_apiKey a))
                       (remainingNow (demoKeys s) (a_apiKey a)))).
Proof.
  intros Hk Hi. unfold doTryOn_begin. rewrite Hk. simpl.
  destruct (model_image (a_body a)) as [m|]; [|done].
  destruct (garment_image (a_body a)) as [g|]; [|done].
  simpl in Hi. destruct (String.eqb m ""), (String.eqb g ""); done.
Qed.

End TryOn.

Section Quota.
Import Js Analytics Gateway Runs Cases.

Lemma present_Some o : present o = true -> exists x, o = Some x /\ String.eqb x "" = false.
Proof.
  destruct o as [x|]; [|done]. simpl. intros H. exists x. split; [done|].
  by destruct (String.eqb x "").
Qed.

(** C1. For a well-formed key of a known customer the middleware answers
    429 exactly when [used + 1 > limit] and admits otherwise. With a limit
    of 100 and 99 used, a submission with both images reaches the upstream
    call; when that succeeds the stored counter is 100 and the response
    reports 0 remaining (with status 200 when the tracker is well formed);
    the next submission is answered 429 with the state untouched and no
    upstream call. *)
Theorem C1_quota_admission :
  forall (cfg : config) (s : server) (rq : request) (k : string) (c : customer),
    apiKeyHeader rq = Some k -> String.eqb k "" = false ->
    String.prefix "vmize_pk_" k = true -> demoKeys s !! k = Some c ->
    (verifyVmizeKey (demoKeys s) (Some k) =
       Rejected (Reply 429 (QuotaInfo "Usage limit exceeded" (limit c) (used c)))
     <-> used c + 1 > limit c) /\
    (verifyVmizeKey (demoKeys s) (Some k) = Allowed c k <-> used c + 1 <= limit c) /\
    (limit c = 100 -> used c = 99 ->
     present (FASHN_API_KEY cfg) = true -> url_error cfg = None ->
     present (model_image (body rq)) = true -> present (garment_image (body rq)) = true ->
     forall (w w' w2 w2' : world) (st : Z) (d : fashnData) (res : axiosResult),
       st < 400 ->
       calledUpstream cfg PostTryOn rq w s = true /\
       used <$> demoKeys (fst (handle cfg PostTryOn rq w (AxResponse st d) w' s)) !! k
         = Some 100 /\
       remainingOf (snd (handle cfg PostTryOn rq w (AxResponse st d) w' s)) = Some 0 /\
       (wellFormed (analytics s) ->
        statusOf (snd (handle cfg PostTryOn rq w (AxResponse st d) w' s)) = Some 200) /\
       handle cfg PostTryOn rq w2 res w2'
           (fst (handle cfg PostTryOn rq w (AxResponse st d) w' s)) =
         (fst (handle cfg PostTryOn rq w (AxResponse st d) w' s),
          Reply 429 (QuotaInfo "Usage limit exceeded" 100 100)) /\
       calledUpstream cfg PostTryOn rq w2
           (fst (handle cfg PostTryOn rq w (AxResponse st d) w' s)) = false).
Proof.
  intros cfg s rq k c Hh E0 Ep Hc.
  pose proof (verify_wellformed_key _ _ _ E0 Ep Hc) as Hv.
  split; [|split].
  - rewrite Hv. destruct (limit c <=? used c) eqn:E.
    + apply Z.leb_le in E. split; [lia|done].
    + apply Z.leb_gt in E. split; [done|lia].
  - rewrite Hv. destruct (limit c <=? used c) eqn:E.
    + apply Z.leb_le in E. split; [done|lia].
    + apply Z.leb_gt in E. split; [lia|done].
  - intros Hl Hu Hkey Hurl Hm Hg w w' w2 w2' st d res Hst.
    assert (Hadm : verifyVmizeKey (demoKeys s) (effectiveKey PostTryOn rq) = Allowed c k).
    { unfold effectiveKey. simpl. rewrite Hh, Hv.
      destruct (limit c <=? used c) eqn:E; [apply Z.leb_le in E; lia|done]. }
    destruct (present_Some _ Hm) as (m & Em & Em0).
    destruct (present_Some _ Hg) as (g & Eg & Eg0).
    set (a := {| a_customer := c; a_apiKey := k; a_body := body rq |}).
    assert (Hcall : calledUpstream cfg PostTryOn rq w s = true).
    { unfold calledUpstream. rewrite arrive_tryOn by done. rewrite Hadm.
      destruct (doTryOn_begin_await cfg w a s m g Hkey Hurl Em Eg Em0 Eg0) as [p Hp].
      fold a. by rewrite Hp. }
    destruct (handle_tryOn_cases cfg PostTryOn rq w (AxResponse st d) w' s eq_refl)
      as [(r & Hr & _)|[(c' & k' & m' & s1 & _ & Hno & _)|(c' & k' & s1 & Hadm' & _ & Hk1 & Hs1 & Hh1)]];
      [congruence..|].
    rewrite Hadm in Hadm'. injection Hadm' as <- <-. fold a in Hh1.
    set (first := handle cfg PostTryOn rq w (AxResponse st d) w' s) in *.
    assert (Hkeys : demoKeys (fst first) !! k = Some (incrementUsed c)).
    { rewrite Hh1, doTryOn_end_demoKeys. simpl.
      destruct (st <? 400) eqn:E; [|apply Z.ltb_ge in E; lia].
      rewrite Hk1. by apply (used_counted a). }
    split; [done|]. split; [by rewrite Hkeys; simpl; rewrite Hu|]. split.
    { rewrite Hh1 at 1. rewrite doTryOn_end_remaining. rewrite <- Hh1.
      unfold remainingNow. simpl. rewrite E0, Hkeys. simpl. f_equal. lia. }
    split.
    { intros Hw. rewrite Hh1. apply doTryOn_end_ok; [done|].
      rewrite Hs1, arrive_tryOn by done. rewrite Hadm.
      by apply doTryOn_begin_wellFormed. }
    assert (Hv2 : verifyVmizeKey (demoKeys (fst first)) (Some k) =
      Rejected (Reply 429 (QuotaInfo "Usage limit exceeded" 100 100))).
    { rewrite (verify_wellformed_key _ _ _ E0 Ep Hkeys). simpl.
      rewrite Hl, Hu. done. }
    unfold handle, calledUpstream. simpl. by rewrite Hh, Hv2.
Qed.

(** C1 at the customer one call short of a plan of 100. *)
Lemma C1_quota_scenario :
  remainingOf (snd (handle liveConfig PostTryOn (withKey (Some demoKey) bothImages) calm
                      (AxResponse 200 queued) calm almostFull)) = Some 0 /\
  handle liveConfig PostTryOn (withKey (Some demoKey) bothImages) calm
         (AxError "timeout of 30000ms exceeded") calm
         (fst (handle liveConfig PostTryOn (withKey (Some demoKey) bothImages) calm
                 (AxResponse 200 queued) calm almostFull)) =
    (fst (handle liveConfig PostTryOn (withKey (Some demoKey) bothImages) calm
            (AxResponse 200 queued) calm almostFull),
     Reply 429 (QuotaInfo "Usage limit exceeded" 100 100)).
Proof.
  destruct (C1_quota_admission liveConfig almostFull (withKey (Some demoKey) bothImages)
              demoKey
              {| customerId := "demo_customer"; email := "demo@example.com";
                 plan := "starter"; limit := 100; used := 99 |}
              eq_refl eq_refl eq_refl eq_refl) as (_ & _ & H).
  destruct (H eq_refl eq_refl eq_refl eq_refl eq_refl eq_refl calm calm calm calm
              200 queued (AxError "timeout of 30000ms exceeded") eq_refl)
    as (_ & _ & Hr & _ & Hs & _).
  exact (conj Hr Hs).
Defined.

End Quota.

Section KeyGate.
Import Js Analytics Gateway Runs Cases.

(** C5, where the claim fails: without a key header the generate route
    runs for the demo customer and answers 200 after its upstream call, and
    the funnel route, which has no middleware, answers 200 to the key
    ["bad_format_key"]. *)
Lemma C5_missing_key_is_served :
  statusOf (snd (handle liveConfig PostGenerate (withKey None bothImages) calm
                   (AxResponse 200 queued) calm demoStore)) = Some 200 /\
  calledUpstream liveConfig PostGenerate (withKey None bothImages) calm demoStore = true /\
  statusOf (snd (handle liveConfig GetFunnel (withKey (Some "bad_format_key") bothImages) calm
                   (AxResponse 200 queued) calm demoStore)) = Some 200.
Proof. repeat split; by vm_compute. Qed.

(** C5, as the code has it. On the four routes behind [verifyVmizeKey] a
    header that is present and does not start with [vmize_pk_] is answered
    401 with nothing done. A missing header is answered 401 on
    [POST /api/tryon] and [GET /api/usage]; on [POST /api/tryon/generate]
    and [GET /api/tryon/:id] the request goes on as if it carried the demo
    key. The other routes do not look at the header and answer 200. *)
Theorem C5_key_gate :
  forall (cfg : config) (ep : endpoint) (rq : request) (w : world) (s : server),
    (guarded ep = true ->
     forall k, apiKeyHeader rq = Some k -> String.eqb k "" = false ->
               String.prefix "vmize_pk_" k = false ->
       arrive cfg ep rq w s = (s, Done (Reply 401 (ErrorOnly "Invalid API key format")))) /\
    (strict ep = true -> present (apiKeyHeader rq) = false ->
       arrive cfg ep rq w s = (s, Done (Reply 401 (ErrorOnly "API key required")))) /\
    (demoFallback ep = true -> present (apiKeyHeader rq) = false ->
       arrive cfg ep rq w s = arrive cfg ep (withKey (Some demoKey) (body rq)) w s) /\
    (guarded ep = false -> exists b, snd (arrive cfg ep rq w s) = Done (Reply 200 b)).
Proof.
  intros cfg ep rq w s. repeat split.
  - intros Hg k Hk E0 Ep.
    assert (Hv : verifyVmizeKey (demoKeys s) (Some k) =
                 Rejected (Reply 401 (ErrorOnly "Invalid API key format"))).
    { unfold verifyVmizeKey. by rewrite E0, Ep. }
    assert (Hi : injectDemoKey (Some k) = Some k).
    { unfold injectDemoKey. simpl. by rewrite E0. }
    destruct ep; try done; simpl; rewrite Hk, ?Hi, Hv; done.
  - intros Hs Hp.
    assert (Hv : verifyVmizeKey (demoKeys s) (apiKeyHeader rq) =
                 Rejected (Reply 401 (ErrorOnly "API key required"))).
    { unfold verifyVmizeKey. destruct (apiKeyHeader rq) as [k|]; [|done].
      simpl in Hp. by destruct (String.eqb k ""). }
    destruct ep; try done; simpl; by rewrite Hv.
  - intros Hd Hp.
    assert (Hi : injectDemoKey (apiKeyHeader rq) = Some demoKey).
    { unfold injectDemoKey. by rewrite Hp. }
    destruct ep; try done; simpl; by rewrite Hi.
  - intros Hg. destruct ep; try done; simpl; by eexists.
Qed.

(** C5 at the key ["bad_format_key"] on [POST /api/tryon]. *)
Lemma C5_bad_format_key :
  arrive liveConfig PostTryOn (withKey (Some "bad_format_key") bothImages) calm demoStore =
  (demoStore, Done (Reply 401 (ErrorOnly "Invalid API key format"))).
Proof.
  exact (proj1 (C5_key_gate liveConfig PostTryOn (withKey (Some "bad_format_key") bothImages)
                  calm demoStore)
           eq_refl "bad_format_key" eq_refl eq_refl eq_refl).
Defined.

End KeyGate.

Section Remaining.
Import Js Analytics Gateway Runs Cases.

Lemma verify_rejected_remaining keys h r :
  verifyVmizeKey keys h = Rejected r -> remainingOf r = None.
Proof.
  unfold verifyVmizeKey. destruct h as [k|]; [|by intros [= <-]].
  destruct (String.eqb k ""); [by intros [= <-]|].
  destruct (String.prefix "vmize_pk_" k); simpl; [|by intros [= <-]].
  destruct (keys !! k) as [c|]; [|by intros [= <-]].
  destruct (limit c <=? used c); [by intros [= <-]|done].
Qed.

Lemma statusCatch_plain w n a id m s :
  remainingOf (snd (statusCatch w n a id m s)) = None.
Proof. unfold statusCatch. by destruct (trackApiCall _ _ _) as [t1 [call|m']]. Qed.

Lemma status_end_plain w a id res s : remainingOf (snd (status_end w a id res s)) = None.
Proof.
  unfold status_end. destruct res as [st d|st|m]; try apply statusCatch_plain.
  destruct ((st =? 0) || (400 <=? st)); [apply statusCatch_plain|].
  destruct (trackApiCall _ _ _) as [t1 [call|m']]; [done|apply statusCatch_plain].
Qed.





End Remaining.

(** * Properties of the monthly billing job *)

Section BillingRun.
Import Billing Cycle.

Lemma resetMonthlyUsage_isReset k c : isReset k c (resetMonthlyUsage k c).
Proof. done. Qed.

Lemma allReset_map k l : allReset k l (map (resetMonthlyUsage k) l).
Proof. induction l; constructor; [apply resetMonthlyUsage_isReset | done]. Qed.

Lemma billEach_cons k c l :
  billEach k (c :: l) =
  if chargeFails k c
  then {| documents := c :: l; charges := []; failed := true |}
  else {| documents := resetMonthlyUsage k c :: documents (billEach k l);
          charges := match chargeOf k c with
                     | Some x => x :: charges (billEach k l)
                     | None => charges (billEach k l)
                     end;
          failed := failed (billEach k l) |}.
Proof.
  simpl. unfold chargeFails, chargeOf. simpl.
  destruct (0 <? _); [|done]. by destruct (createOverageCharge k _ _ _).
Qed.

(** The loop resets the customers up to the first one whose charge is
    rejected and stops there. *)
Lemma billEach_split k l :
  exists pre post,
    l = pre ++ post /\
    Forall (fun c => chargeFails k c = false) pre /\
    documents (billEach k l) = map (resetMonthlyUsage k) pre ++ post /\
    charges (billEach k l) = omap (chargeOf k) pre /\
    match post with
    | [] => failed (billEach k l) = false
    | c :: _ => chargeFails k c = true /\ failed (billEach k l) = true
    end.
Proof.
  induction l as [|c l (pre & post & Hl & Hpre & Hdoc & Hch & Hpost)].
  - exists [], []. by repeat split.
  - rewrite billEach_cons. destruct (chargeFails k c) eqn:Ec.
    + exists [], (c :: l). by repeat split.
    + exists (c :: pre), post. cbn [documents charges failed].
      rewrite Hdoc, Hch. repeat split; try done.
      * by rewrite Hl.
      * by constructor.
Qed.

(** C2, where the claim fails: the charge of the first of two active
    customers is rejected; the run ends there, neither customer is reset,
    and the second, who owes nothing, is not reached. *)
Lemma C2_failed_charge_ends_run :
  monthlyBilling declining [overLimit; underLimit] =
    {| documents := [overLimit; underLimit]; charges := []; failed := true |} /\
  ~ allReset declining [overLimit; underLimit]
      (documents (monthlyBilling declining [overLimit; underLimit])).
Proof.
  assert (E : monthlyBilling declining [overLimit; underLimit] =
              {| documents := [overLimit; underLimit]; charges := []; failed := true |})
    by (by vm_compute).
  split; [exact E|]. rewrite E. simpl. intros H.
  apply Forall2_cons_1 in H as [[H _] _]. by vm_compute in H.
Qed.

(** C2, as the code has it. A run goes through the active customers in
    order. Up to the first customer whose charge the billing collaborator
    rejects, every customer (charged or owing nothing) has the usage reset
    to zero and the prior value archived, and the charges made are those of
    these customers. At the first rejected charge the run ends with the
    error logged: that customer and all later ones are left as they were.
    When no charge is rejected every active customer is reset. *)
Theorem C2_billing_until_first_rejection :
  forall (k : collaborators) (collection : list account),
    (exists pre post,
       filter (fun c => isActive c = true) collection = pre ++ post /\
       Forall (fun c => chargeFails k c = false) pre /\
       documents (monthlyBilling k collection) = map (resetMonthlyUsage k) pre ++ post /\
       allReset k pre (map (resetMonthlyUsage k) pre) /\
       charges (monthlyBilling k collection) = omap (chargeOf k) pre /\
       match post with
       | [] => failed (monthlyBilling k collection) = false
       | c :: _ => chargeFails k c = true /\ failed (monthlyBilling k collection) = true
       end) /\
    (Forall (fun c => chargeFails k c = false)
            (filter (fun c => isActive c = true) collection) ->
     allReset k (filter (fun c => isActive c = true) collection)
              (documents (monthlyBilling k collection)) /\
     failed (monthlyBilling k collection) = false).
Proof.
  intros k collection. unfold monthlyBilling.
  destruct (billEach_split k (filter (fun c => isActive c = true) collection))
    as (pre & post & Hl & Hpre & Hdoc & Hch & Hpost).
  split.
  - exists pre, post. repeat split; try done. apply allReset_map.
  - intros Hall. rewrite Hl in Hall. apply Forall_app in Hall as [_ Hp].
    destruct post as [|c post].
    + split; [|done]. rewrite Hdoc, Hl, !app_nil_r. apply allReset_map.
    + destruct Hpost as [Hc _]. apply Forall_cons in Hp as [Hc' _]. congruence.
Qed.

(** C2 at a customer with 120 used of 100 at 50 cents a unit, when the
    charge is accepted: one charge of 1000 cents for 20 units, then the
    reset with 120 archived. *)
Lemma C2_accepted_charge_resets :
  monthlyBilling accepting [overLimit] =
    {| documents := [resetMonthlyUsage accepting overLimit];
       charges := [("cus_over", 1000, "Usage overage: 20 try-ons")];
       failed := false |} /\
  allReset accepting [overLimit] (documents (monthlyBilling accepting [overLimit])).
Proof.
  destruct (C2_billing_until_first_rejection accepting [overLimit]) as [_ H].
  destruct H as [Hr _]; [by repeat constructor|].
  split; [by vm_compute|exact Hr].
Defined.

End BillingRun.

(** * Properties of the reports *)

Section DayReplay.
Import Js Analytics Runs Reports Replay.

Lemma countIf_app p l x :
  countIf p (l ++ [x]) = countIf p l + (if p x then 1 else 0).
Proof. induction l as [|c r IH]; simpl; [lia|]. rewrite IH. lia. Qed.

Lemma countIf_split p q l :
  countIf p l = countIf (fun c => p c && q c) l + countIf (fun c => p c && negb (q c)) l.
Proof.
  induction l as [|c r IH]; simpl; [done|]. rewrite IH.
  destruct (p c), (q c); simpl; lia.
Qed.

Lemma countIf_nonneg p l : 0 <= countIf p l.
Proof. induction l as [|c r IH]; simpl; [done|]. destruct (p c); lia. Qed.

Lemma countIf_le_length p l : countIf p l <= Z.of_nat (length l).
Proof. induction l as [|c r IH]; simpl length; simpl countIf; [done|]. destruct (p c); lia. Qed.

Lemma day_lookup_alter_ne f k dk l :
  k <> dk -> day_lookup k (day_alter f dk l) = day_lookup k l.
Proof.
  intros Hne. induction l as [|[k' d] r IH]; simpl; [done|].
  destruct (String.eqb dk k') eqn:E; simpl.
  - apply String.eqb_eq in E. subst k'.
    destruct (String.eqb k dk) eqn:E'; [apply String.eqb_eq in E'; done|done].
  - by rewrite IH.
Qed.

Lemma day_lookup_ensure_eq dk l :
  day_lookup dk (day_ensure dk l) = Some (default freshDay (day_lookup dk l)).
Proof.
  unfold day_ensure. destruct (day_lookup dk l) eqn:E; [by rewrite E|]. simpl.
  induction l as [|[k' d] r IH]; simpl in *.
  - by rewrite String.eqb_refl.
  - destruct (String.eqb dk k'); [done|]. by apply IH.
Qed.

Lemma day_lookup_ensure_ne k dk l :
  k <> dk -> day_lookup k (day_ensure dk l) = day_lookup k l.
Proof.
  intros Hne. unfold day_ensure. destruct (day_lookup dk l); [done|].
  induction l as [|[k' d] r IH]; simpl.
  - destruct (String.eqb k dk) eqn:E; [apply String.eqb_eq in E; done|done].
  - destruct (String.eqb k k'); [done|apply IH].
Qed.

(** The data that a tracked call leaves when every day holds a [Set]. *)
Lemma trackApiCall_tdata e c t :
  wellFormed t ->
  tdata (fst (trackApiCall e c t)) =
  {| apiCalls := apiCalls (tdata t) ++ [newCall e c];
     customers :=
       alter (countCall c (iso e)) (cid_key (cd_customerId c))
         (match customers (tdata t) !! cid_key (cd_customerId c) with
          | Some _ => customers (tdata t)
          | None => <[cid_key (cd_customerId c) := freshRollup (iso e)]> (customers (tdata t))
          end);
     dailyStats :=
       day_alter
         (fun x => bumpOutcome (is_success (cd_status c))
                     (addCustomer (cd_customerId c) (bumpTotal x)))
         (before_T (iso e)) (day_ensure (before_T (iso e)) (dailyStats (tdata t)));
     eventCounts := eventCounts (tdata t);
     revenue := revenue (tdata t);
     startDate := startDate (tdata t) |}.
Proof.
  intros [_ Hd]. unfold trackApiCall. rewrite day_lookup_alter.
  destruct (day_lookup_ensure (before_T (iso e)) (dailyStats (tdata t))) as [d0 Hd0].
  rewrite Hd0. simpl.
  assert (He : Forall (fun kd => dayBalanced (snd kd) /\ has_add (snd kd) = true)
            (day_ensure (before_T (iso e)) (dailyStats (tdata t)))).
  { by apply (day_ensure_Forall (fun d => dayBalanced d /\ has_add d = true)). }
  pose proof (day_lookup_Forall (fun d => dayBalanced d /\ has_add d = true) _ _ _ He Hd0)
    as [_ Ha].
  replace (has_add (bumpTotal d0)) with true by (by rewrite <- Ha).
  simpl. rewrite saveData_tdata. simpl. by rewrite day_alter_alter.
Qed.

Lemma same_value_zero_eq a b : same_value_zero a b = true -> a = b.
Proof.
  destruct a, b; simpl; try done.
  - intros H. f_equal. by apply Bool.eqb_prop.
  - intros H. f_equal. by apply Z.eqb_eq.
  - intros H. f_equal. by apply String.eqb_eq.
Qed.

Lemma same_value_zero_id a : isId a -> same_value_zero a a = true.
Proof. destruct a; simpl; try done. intros _. apply String.eqb_refl. Qed.

Lemma set_has_elem x s : isId x -> x ∈ s -> set_has x s = true.
Proof.
  intros Hx Hs. unfold set_has. apply existsb_exists. exists x.
  split; [by apply list_elem_of_In|by apply same_value_zero_id].
Qed.

Lemma set_add_NoDup x s : isId x -> NoDup s -> NoDup (set_add x s).
Proof.
  intros Hx Hs. unfold set_add. destruct (set_has x s) eqn:E; [done|].
  apply NoDup_app. split; [done|]. split; [|apply NoDup_singleton].
  intros y Hy Hy'. apply list_elem_of_singleton in Hy'. subst y.
  by rewrite (set_has_elem x s Hx Hy) in E.
Qed.

Lemma set_add_length x s : (length (set_add x s) <= S (length s))%nat.
Proof.
  unfold set_add. destruct (set_has x s); [lia|]. rewrite length_app. simpl. lia.
Qed.

Lemma cid_json_isId c : isId (cid_json c).
Proof. by destruct c. Qed.

Lemma dayReplays_fresh k : dayReplays [] k freshDay.
Proof.
  repeat split. exists []. repeat split; [constructor|constructor|done].
Qed.

Lemma dayReplays_call e c t k :
  wellFormed t ->
  dayReplays (apiCalls (tdata t)) k (dayOr0 t k) ->
  dayReplays (apiCalls (tdata (fst (trackApiCall e c t)))) k
             (dayOr0 (fst (trackApiCall e c t)) k).
Proof.
  intros Hw (Ht & Hs & Hf & s & Hu & Hnd & Hid & Hlen).
  unfold dayOr0 in *. rewrite (trackApiCall_tdata e c t Hw). simpl.
  set (dk := before_T (iso e)).
  assert (Hon : onDay k (newCall e c) = String.eqb dk k) by done.
  unfold dayReplays. rewrite !countIf_app. cbv beta. rewrite !Hon.
  destruct (String.eqb dk k) eqn:E.
  - apply String.eqb_eq in E. subst k.
    rewrite day_lookup_alter, day_lookup_ensure_eq. simpl.
    unfold addCustomer. simpl. rewrite Hu. simpl.
    unfold succeeded in *. simpl.
    split; [lia|]. split; [destruct (is_success _); simpl; lia|].
    split; [destruct (is_success _); simpl; lia|].
    eexists. split; [done|].
    split; [apply set_add_NoDup; [apply cid_json_isId|done]|].
    split.
    + unfold set_add. destruct (set_has _ _); [done|].
      apply Forall_app. split; [done|]. constructor; [apply cid_json_isId|constructor].
    + pose proof (set_add_length (cid_json (cd_customerId c)) s). lia.
  - apply String.eqb_neq in E.
    rewrite day_lookup_alter_ne, day_lookup_ensure_ne by done. simpl.
    repeat split; try lia. by exists s.
Qed.

Lemma dayReplays_event e n d t k :
  dayReplays (apiCalls (tdata t)) k (dayOr0 t k) ->
  dayReplays (apiCalls (tdata (trackEvent e n d t))) k (dayOr0 (trackEvent e n d t) k).
Proof.
  intros H. unfold dayOr0, trackEvent in *. rewrite saveData_tdata. simpl.
  destruct (revenueOf d) as [r|]; simpl; [|done].
  destruct (decide (k = before_T (iso e))) as [->|Hne].
  - rewrite day_lookup_alter.
    destruct (day_lookup (before_T (iso e)) (dailyStats (tdata t))); done.
  - by rewrite day_lookup_alter_ne.
Qed.

Lemma dayReplays_after ops stamp f k :
  dayReplays (apiCalls (tdata (after ops (started stamp f)))) k
             (dayOr0 (after ops (started stamp f)) k).
Proof.
  assert (H : forall t, wellFormed t ->
              dayReplays (apiCalls (tdata t)) k (dayOr0 t k) ->
              dayReplays (apiCalls (tdata (after ops t))) k (dayOr0 (after ops t) k)).
  { induction ops as [|o ops IH]; intros t Hw Ht; simpl; [done|].
    apply IH; [by apply apply_wellFormed|].
    destruct o; simpl.
    - by apply dayReplays_call.
    - by apply dayReplays_event.
    - unfold reset, dayOr0. rewrite saveData_tdata. apply dayReplays_fresh. }
  apply H; [apply started_wellFormed|apply dayReplays_fresh].
Qed.

(** X1. In every state reached from the constructor or [reset], each
    entry of [getLast30DaysData] replays the call log: its calls,
    successes and failures are the numbers of records of that date (so a
    date without records is reported with zeros), the calls are the sum of
    successes and failures, and the distinct customers are at most the
    calls. *)
Theorem daily_reports_replay_log :
  forall (stamp : string) (f : option data) (ops : list op) (dateKeys : list string),
    Forall (reportReplays (apiCalls (tdata (after ops (started stamp f)))))
           (getLast30DaysData dateKeys (after ops (started stamp f))) /\
    map date (getLast30DaysData dateKeys (after ops (started stamp f))) = dateKeys.
Proof.
  intros stamp f ops dateKeys. unfold getLast30DaysData. split.
  - apply Forall_map, Forall_forall. intros k _.
    destruct (dayReplays_after ops stamp f k) as (Ht & Hs & Hf & s & Hu & _ & _ & Hlen).
    unfold reportReplays, reportDay, dayOr0 in *.
    pose proof (countIf_split (onDay k) succeeded
                  (apiCalls (tdata (after ops (started stamp f))))) as Hsplit.
    destruct (day_lookup k _) as [d|]; simpl in *.
    + rewrite Hu. simpl. repeat split; lia.
    + repeat split; lia.
  - rewrite map_map. simpl. induction dateKeys as [|k r IH]; simpl; [done|].
    f_equal; [|done]. unfold reportDay. by destruct (day_lookup _ _).
Qed.

End DayReplay.

Section CustomerReplay.
Import Js Analytics Runs Reports Replay.

(** The log and the rollups after a tracked call, whether or not it
    throws. *)
Lemma trackApiCall_log e c t :
  apiCalls (tdata (fst (trackApiCall e c t))) = apiCalls (tdata t) ++ [newCall e c] /\
  customers (tdata (fst (trackApiCall e c t))) =
    alter (countCall c (iso e)) (cid_key (cd_customerId c))
      (match customers (tdata t) !! cid_key (cd_customerId c) with
       | Some _ => customers (tdata t)
       | None => <[cid_key (cd_customerId c) := freshRollup (iso e)]> (customers (tdata t))
       end).
Proof.
  unfold trackApiCall. destruct (day_lookup _ _) as [dy|]; [|done].
  destruct (has_add dy); [|done]. simpl. by rewrite saveData_tdata.
Qed.

Lemma ofCustomer_newCall e c k :
  plainId k = true ->
  ofCustomer k (newCall e c) = String.eqb (cid_key (cd_customerId c)) k.
Proof.
  unfold plainId. intros H.
  apply andb_prop in H as [H Hu]. apply andb_prop in H as [He Hn].
  apply negb_true_iff in He, Hn, Hu.
  unfold ofCustomer, newCall. cbn [call_customerId].
  destruct (cd_customerId c) as [s|]; cbn [cid_truthy cid_key].
  - destruct (String.eqb s "") eqn:Es; cbn [negb]; [|done].
    apply String.eqb_eq in Es. subst s.
    by rewrite (String.eqb_sym "unknown" k), Hu, (String.eqb_sym "" k), He.
  - by rewrite (String.eqb_sym "unknown" k), Hu, (String.eqb_sym "null" k), Hn.
Qed.

Lemma stampsOf_app k l x :
  stampsOf k (l ++ [x]) = stampsOf k l ++ (if ofCustomer k x then [call_timestamp x] else []).
Proof.
  induction l as [|c r IH]; simpl; [by destruct (ofCustomer k x)|].
  rewrite IH. by destruct (ofCustomer k c).
Qed.

Lemma durationOf_app k l x :
  durationOf k (l ++ [x]) = durationOf k l + (if ofCustomer k x then call_duration x else 0).
Proof. induction l as [|c r IH]; simpl; [lia|]. rewrite IH. lia. Qed.

Lemma countIf_zero k l :
  countIf (ofCustomer k) l = 0 ->
  stampsOf k l = [] /\ durationOf k l = 0 /\
  countIf (fun c => ofCustomer k c && succeeded c) l = 0 /\
  countIf (fun c => ofCustomer k c && negb (succeeded c)) l = 0.
Proof.
  induction l as [|c r IH]; simpl; [done|].
  pose proof (countIf_nonneg (ofCustomer k) r).
  destruct (ofCustomer k c); simpl; [lia|]. intros H0. rewrite !Z.add_0_l. by apply IH.
Qed.

Lemma rollupReplays_call e c t k :
  plainId k = true ->
  rollupReplays (apiCalls (tdata t)) k (customers (tdata t) !! k) ->
  rollupReplays (apiCalls (tdata (fst (trackApiCall e c t)))) k
                (customers (tdata (fst (trackApiCall e c t))) !! k).
Proof.
  intros Hk H. destruct (trackApiCall_log e c t) as [-> ->].
  set (key := cid_key (cd_customerId c)).
  pose proof (ofCustomer_newCall e c k Hk) as Hof. fold key in Hof.
  rewrite lookup_alter. case_decide as Hkey.
  - subst k. rewrite String.eqb_refl in Hof.
    assert (Hl : match customers (tdata t) !! key with
                 | Some _ => customers (tdata t)
                 | None => <[key:=freshRollup (iso e)]> (customers (tdata t))
                 end !! key =
                 Some (default (freshRollup (iso e)) (customers (tdata t) !! key))).
    { destruct (customers (tdata t) !! key) eqn:E; [by rewrite E|]. by rewrite lookup_insert_eq. }
    rewrite Hl. simpl. unfold rollupReplays in *.
    rewrite !countIf_app, stampsOf_app, durationOf_app. cbv beta. rewrite Hof. simpl.
    unfold succeeded in *. simpl.
    destruct (customers (tdata t) !! key) as [r|]; simpl.
    + destruct H as (H1 & H2 & H3 & H4 & H5 & H6).
      split; [lia|]. split; [destruct (is_success _); lia|].
      split; [destruct (is_success _); simpl; lia|]. split; [lia|].
      split; [|by rewrite last_snoc].
      destruct (stampsOf key (apiCalls (tdata t))); [done|]. done.
    + destruct (countIf_zero _ _ H) as (-> & -> & H2 & H3). unfold succeeded in *.
      rewrite H, H2, H3. simpl.
      split; [done|]. split; [by destruct (is_success _)|].
      split; [by destruct (is_success _)|]. split; [lia|]. done.
  - assert (Hof' : ofCustomer k (newCall e c) = false).
    { rewrite Hof. by apply String.eqb_neq. }
    assert (Hl : match customers (tdata t) !! key with
                 | Some _ => customers (tdata t)
                 | None => <[key:=freshRollup (iso e)]> (customers (tdata t))
                 end !! k = customers (tdata t) !! k).
    { destruct (customers (tdata t) !! key); [done|]. by rewrite lookup_insert_ne. }
    rewrite Hl. unfold rollupReplays in *.
    rewrite !countIf_app, stampsOf_app, durationOf_app. cbv beta. rewrite Hof'. simpl.
    rewrite !Z.add_0_r, app_nil_r. done.
Qed.

Lemma rollupReplays_event e n d t k :
  rollupReplays (apiCalls (tdata t)) k (customers (tdata t) !! k) ->
  rollupReplays (apiCalls (tdata (trackEvent e n d t))) k
                (customers (tdata (trackEvent e n d t)) !! k).
Proof.
  intros H. unfold trackEvent. rewrite saveData_tdata. simpl.
  destruct (revenueOf d) as [r|]; simpl; [|done].
  destruct (cid_truthy _); [|done].
  rewrite lookup_alter. case_decide as Hk; [|done]. subst k.
  destruct (customers (tdata t) !! _); done.
Qed.

(** X2. In every state reached from the constructor or [reset] by
    operations whose customer ids are no names of [Object.prototype], the
    rollup of a customer id other than [''], ['null'], ['unknown'] and
    those names replays the call log: its total, successful and failed
    calls are the numbers of records with that id, its duration is their
    sum, and [firstSeen] and [lastSeen] are the time stamps of the first
    and of the last of them; there is no rollup exactly when there is no
    record. *)
Theorem customer_rollup_replays_log :
  forall (stamp : string) (f : option data) (ops : list op) (k : string),
    plainId k = true ->
    inheritedName k = false ->
    ownIds ops = true ->
    rollupReplays (apiCalls (tdata (after ops (started stamp f)))) k
                  (customers (tdata (after ops (started stamp f))) !! k).
Proof.
  intros stamp f ops k Hk _ _.
  assert (H : forall t,
              rollupReplays (apiCalls (tdata t)) k (customers (tdata t) !! k) ->
              rollupReplays (apiCalls (tdata (after ops t))) k
                            (customers (tdata (after ops t)) !! k)).
  { induction ops as [|o ops IH]; intros t Ht; simpl; [done|].
    apply IH. destruct o; simpl.
    - by apply rollupReplays_call.
    - by apply rollupReplays_event.
    - unfold reset. rewrite saveData_tdata. done. }
  apply H. done.
Qed.

(** X2 at one call of the demo customer. *)
Lemma customer_rollup_replays_demo :
  rollupReplays (apiCalls (tdata (after [Call noon demoCall] (started "" None))))
                "demo_customer"
                (customers (tdata (after [Call noon demoCall] (started "" None)))
                   !! "demo_customer").
Proof.
  exact (customer_rollup_replays_log "" None [Call noon demoCall] "demo_customer"
           eq_refl eq_refl eq_refl).
Defined.

End CustomerReplay.

Section Summary.
Import Js Analytics Runs Reports Replay.

(** X3. In every state of the tracker the success rate of the summary is
    ['0%'] exactly when the log is empty and otherwise a percentage between
    0 and 100; the number of calls is the length of the log. *)
Theorem summary_success_rate_bounded :
  forall t : tracker,
    percentage (successRate (getAnalyticsSummary t)) /\
    (successRate (getAnalyticsSummary t) = RateZero <-> apiCalls (tdata t) = []) /\
    totalApiCalls (getAnalyticsSummary t) = Z.of_nat (length (apiCalls (tdata t))).
Proof.
  intros t. unfold getAnalyticsSummary. simpl.
  pose proof (countIf_nonneg succeeded (apiCalls (tdata t))) as H0.
  pose proof (countIf_le_length succeeded (apiCalls (tdata t))) as H1.
  destruct (apiCalls (tdata t)) as [|c l] eqn:E; [done|].
  set (n := Z.of_nat (length (c :: l))) in *.
  set (m := countIf succeeded (c :: l)) in *.
  assert (Hn : 0 < n) by (unfold n; simpl length; lia).
  clearbody n m.
  destruct (0 <? n) eqn:En; [|apply Z.ltb_ge in En; lia].
  split; [|done]. simpl.
  destruct n as [|p|p]; [lia| |lia].
  unfold Qle, Qdiv, Qmult, Qinv, inject_Z. simpl. split; lia.
Qed.

Lemma lastTen_take l : lastTen l = take 10 (rev l).
Proof. unfold lastTen. symmetry. apply firstn_rev. Qed.

(** X4. The call just tracked is the first of [recentCalls] (whether or
    not [trackApiCall] throws), followed by the nine most recent before
    it; [recentCalls] holds the last ten records of the log, newest first;
    [trackEvent] does not change it. *)
Theorem recent_calls_newest_first :
  forall (e : env) (c : callData) (n : string) (d : eventData) (t : tracker),
    recentCalls (getAnalyticsSummary (fst (trackApiCall e c t))) =
      newCall e c :: take 9 (recentCalls (getAnalyticsSummary t)) /\
    recentCalls (getAnalyticsSummary t) = take 10 (rev (apiCalls (tdata t))) /\
    length (recentCalls (getAnalyticsSummary t)) =
      Nat.min 10 (length (apiCalls (tdata t))) /\
    recentCalls (getAnalyticsSummary (trackEvent e n d t)) =
      recentCalls (getAnalyticsSummary t).
Proof.
  intros e c n d t. unfold getAnalyticsSummary. simpl.
  destruct (trackApiCall_log e c t) as [-> _].
  rewrite !lastTen_take, rev_app_distr. simpl.
  split; [by rewrite take_take|]. split; [done|].
  split; [by rewrite length_take, length_rev|].
  unfold trackEvent. rewrite saveData_tdata. by destruct (revenueOf d).
Qed.

End Summary.

Section LoadArrays.
Import Js Analytics Runs Reports Replay Restore.

Lemma set_has_set_add x y s :
  set_has x (set_add y s) = same_value_zero x y || set_has x s.
Proof.
  unfold set_add. destruct (set_has y s) eqn:E.
  - destruct (same_value_zero x y) eqn:Exy; [|done].
    apply same_value_zero_eq in Exy. subst y. by rewrite E.
  - unfold set_has. rewrite existsb_app. simpl. rewrite orb_false_r. apply orb_comm.
Qed.

Lemma set_has_fold x l acc :
  set_has x (fold_left (fun a y => set_add y a) l acc) =
  existsb (same_value_zero x) l || set_has x acc.
Proof.
  revert acc. induction l as [|y l IH]; intros acc; simpl; [done|].
  rewrite IH, set_has_set_add. by rewrite orb_assoc, (orb_comm (existsb _ l)).
Qed.

Lemma set_of_list_members l : sameMembers l (set_of_list l).
Proof. intros x. unfold set_of_list. rewrite set_has_fold. simpl. apply orb_false_r. Qed.

Lemma fold_set_add_NoDup l acc :
  Forall isId l -> NoDup acc -> NoDup (fold_left (fun a y => set_add y a) l acc).
Proof.
  revert acc. induction l as [|y l IH]; intros acc Hl Ha; simpl; [done|].
  apply Forall_cons in Hl as [Hy Hl]. apply IH; [done|]. by apply set_add_NoDup.
Qed.

Lemma restore_arrays l :
  Forall holdsArray l ->
  exists l', restore l = (l', false) /\ Forall2 restoredFrom l l'.
Proof.
  induction 1 as [|[k d] r [a Ha] Hr (r' & Er & IH)]; simpl.
  - exists []. split; [done|constructor].
  - simpl in Ha. unfold restore_day. rewrite Ha. simpl. rewrite Er.
    eexists. split; [done|]. constructor; [|done].
    repeat split; simpl. exists a, (set_of_list a). repeat split; try done.
    + apply set_of_list_members.
    + intros Hid. apply fold_set_add_NoDup; [done|constructor].
Qed.

(** A tracked call does not throw when every day holds a [Set]. *)
Lemma trackApiCall_ok_sets e c t :
  Forall (fun kd => has_add (snd kd) = true) (dailyStats (tdata t)) ->
  snd (trackApiCall e c t) = Ok (newCall e c).
Proof.
  intros Hd. unfold trackApiCall. rewrite day_lookup_alter.
  destruct (day_lookup_ensure (before_T (iso e)) (dailyStats (tdata t))) as [d0 Hd0].
  rewrite Hd0. simpl.
  pose proof (day_ensure_Forall (fun d => has_add d = true) (before_T (iso e)) _ eq_refl Hd)
    as He.
  pose proof (day_lookup_Forall (fun d => has_add d = true) _ _ _ He Hd0) as Ha.
  simpl in Ha. replace (has_add (bumpTotal d0)) with true by (by rewrite <- Ha). done.
Qed.

(** X5. When every day of the file lists its customers in an array,
    [loadData] takes the data of the file, turns each array into a [Set]
    of the same members (each id once), keeps the counters, leaves the
    file as it is, and the next [trackApiCall] does not throw. *)
Theorem loadData_restores_arrays :
  forall (ok : bool) (t : tracker) (img : data) (e : env) (c : callData),
    file t = Some img -> Forall holdsArray (dailyStats img) ->
    Forall2 restoredFrom (dailyStats img) (dailyStats (tdata (loadData ok t))) /\
    tdata (loadData ok t) = with_days (dailyStats (tdata (loadData ok t))) img /\
    file (loadData ok t) = Some img /\
    snd (trackApiCall e c (loadData ok t)) = Ok (newCall e c).
Proof.
  intros ok t img e c Hf Ha. unfold loadData. rewrite Hf.
  destruct (restore_arrays _ Ha) as (l' & -> & H2). simpl.
  repeat split; try done.
  apply trackApiCall_ok_sets. simpl.
  clear -H2. induction H2 as [|x y l l' Hxy _ IH]; constructor; [|done].
  destruct Hxy as (_ & _ & _ & _ & _ & a & s & _ & Hs & _).
  unfold has_add. by rewrite Hs.
Qed.

(** X5 at a file whose day lists two shops, one of them twice. *)
Lemma loadData_restores_arrayFile :
  map (fun kd => idsOf (snd kd))
      (dailyStats (tdata (loadData true (started "2025-01-15T09:00:00.000Z" (Some arrayFile)))))
    = [Some [JStr "shop_a"; JStr "shop_b"]] /\
  file (loadData true (started "2025-01-15T09:00:00.000Z" (Some arrayFile))) = Some arrayFile.
Proof.
  destruct (loadData_restores_arrays true (started "2025-01-15T09:00:00.000Z" (Some arrayFile))
              arrayFile noon demoCall eq_refl) as (_ & _ & Hf & _).
  { repeat constructor. by eexists. }
  split; [by vm_compute|exact Hf].
Defined.

End LoadArrays.

Section Revenue.
Import Js Analytics Runs Reports Replay Restore.








End Revenue.

(** * Properties of the gateway under traffic *)

Section Effects.
Import Js Analytics Gateway Runs Cases Traffic.

Lemma statusCatch_demoKeys w n a id m s :
  demoKeys (fst (statusCatch w n a id m s)) = demoKeys s.
Proof. unfold statusCatch. by destruct (trackApiCall _ _ _) as [t1 [call|m']]. Qed.

Lemma status_end_demoKeys w a id res s :
  demoKeys (fst (status_end w a id res s)) = demoKeys s.
Proof.
  unfold status_end. destruct res as [st d|st|m]; try apply statusCatch_demoKeys.
  destruct ((st =? 0) || (400 <=? st)); [apply statusCatch_demoKeys|].
  destruct (trackApiCall _ _ _) as [t1 [call|m']]; [done|].
  by rewrite statusCatch_demoKeys.
Qed.

Lemma status_begin_effect cfg w a id s :
  demoKeys (fst (status_begin cfg w a id s)) = demoKeys s /\
  ((exists r, snd (status_begin cfg w a id s) = Done r) \/
   snd (status_begin cfg w a id s) = Await (PendingStatus a id)).
Proof.
  unfold status_begin. destruct (present (FASHN_API_KEY cfg)); simpl; [by auto|].
  pose proof (statusCatch_demoKeys w 0 a id "FASHN_API_KEY not configured" s) as H.
  destruct (statusCatch _ _ _ _ _ _) as [s' r]. simpl in *. split; [done|].
  left. by eexists.
Qed.

(** What the first segment of a request does to [demoKeys] and how it
    ends: the reset route zeroes every counter; every other route leaves
    [demoKeys] alone and ends with a response, with a status poll in
    flight, or with the try-on call in flight of a customer below the
    limit. *)
Lemma arrive_effect cfg ep rq w s :
  (ep = PostReset /\
   demoKeys (fst (arrive cfg ep rq w s)) = resetUsed <$> demoKeys s /\
   snd (arrive cfg ep rq w s) = Done (Reply 200 ResetDone)) \/
  (demoKeys (fst (arrive cfg ep rq w s)) = demoKeys s /\
   ((exists r, snd (arrive cfg ep rq w s) = Done r) \/
    (exists a id, snd (arrive cfg ep rq w s) = Await (PendingStatus a id)) \/
    (exists c k pl,
       snd (arrive cfg ep rq w s) =
         Await (PendingRun {| a_customer := c; a_apiKey := k; a_body := body rq |} pl) /\
       demoKeys s !! k = Some c /\ used c < limit c))).
Proof.
  assert (Htry : isTryOn ep = true ->
    demoKeys (fst (arrive cfg ep rq w s)) = demoKeys s /\
    ((exists r, snd (arrive cfg ep rq w s) = Done r) \/
     (exists a id, snd (arrive cfg ep rq w s) = Await (PendingStatus a id)) \/
     (exists c k pl,
        snd (arrive cfg ep rq w s) =
          Await (PendingRun {| a_customer := c; a_apiKey := k; a_body := body rq |} pl) /\
        demoKeys s !! k = Some c /\ used c < limit c))).
  { intros Hep. rewrite (arrive_tryOn _ _ _ _ _ Hep).
    destruct (verifyVmizeKey _ _) as [r|c k] eqn:Ev; [split; [done|left; by eexists]|].
    apply verify_admitted in Ev as (_ & _ & _ & Hc & Hlt).
    split; [apply doTryOn_begin_demoKeys|].
    destruct (doTryOn_begin_shape cfg w
                {| a_customer := c; a_apiKey := k; a_body := body rq |} s)
      as [[m ->]|[p ->]]; [left; by eexists|].
    right. right. by exists c, k, p. }
  destruct ep; try (right; by apply Htry);
    try (right; split; [done|left; by eexists]).
  - right. simpl.
    destruct (verifyVmizeKey _ _) as [r|c k]; [split; [done|left; by eexists]|].
    destruct (status_begin_effect cfg w
                {| a_customer := c; a_apiKey := k; a_body := body rq |} id s)
      as [Hk [[r Hr]|Hr]]; (split; [done|]); rewrite Hr; [left|right; left]; by repeat eexists.
  - right. simpl.
    destruct (verifyVmizeKey _ _) as [r|c k]; split; try done; left; by eexists.
  - left. by repeat split.
Qed.

Lemma complete_demoKeys w pc res s :
  demoKeys (fst (complete w pc res s)) =
  match pc with
  | PendingRun a _ => if upstreamSucceeded res then counted a (demoKeys s) else demoKeys s
  | PendingStatus _ _ => demoKeys s
  end.
Proof. destruct pc; simpl; [apply doTryOn_end_demoKeys|apply status_end_demoKeys]. Qed.

Lemma identity_counted a keys k :
  identity <$> counted a keys !! k = identity <$> keys !! k.
Proof.
  unfold counted. destruct (String.eqb (a_apiKey a) ""); [done|].
  rewrite lookup_alter. case_decide as Hk; [subst k|done].
  by destruct (keys !! a_apiKey a).
Qed.

Lemma identity_step cfg sys ev k :
  identity <$> demoKeys (srv (step cfg sys ev)) !! k = identity <$> demoKeys (srv sys) !! k.
Proof.
  destruct ev as [ep rq w|n res w]; simpl.
  - pose proof (arrive_effect cfg ep rq w (srv sys)) as H.
    destruct (arrive cfg ep rq w (srv sys)) as [s' p]. simpl in H.
    assert (Hk : identity <$> demoKeys s' !! k = identity <$> demoKeys (srv sys) !! k).
    { destruct H as [(_ & -> & _)|[-> _]]; [|done].
      rewrite lookup_fmap. by destruct (demoKeys (srv sys) !! k). }
    by destruct p.
  - destruct (inflight sys !! n) as [pc|]; [|done].
    pose proof (complete_demoKeys w pc res (srv sys)) as H.
    destruct (complete w pc res (srv sys)) as [s' r]. simpl in *. rewrite H.
    destruct pc; [|done]. destruct (upstreamSucceeded res); [apply identity_counted|done].
Qed.

(** X7. Whatever requests arrive and in whatever order their upstream
    calls return, no route adds or removes a customer or changes the id,
    e-mail, plan or limit of one: only [used] moves. *)
Theorem customers_and_limits_are_fixed :
  forall (cfg : config) (evs : list event) (sys : system) (k : string),
    identity <$> demoKeys (srv (run cfg evs sys)) !! k = identity <$> demoKeys (srv sys) !! k.
Proof.
  intros cfg evs. unfold run. induction evs as [|ev evs IH]; intros sys k; simpl; [done|].
  by rewrite IH, identity_step.
Qed.

End Effects.

Section Overshoot.
Import Js Analytics Gateway Runs Cases Traffic.

Lemma runsOf_bounds k l : 0 <= runsOf k l <= Z.of_nat (length l).
Proof.
  induction l as [|[a pl|a id] r IH]; simpl runsOf; simpl length; [lia| |lia].
  destruct (String.eqb (a_apiKey a) k); lia.
Qed.

Lemma runsOf_app k l pc : runsOf k (l ++ [pc]) = runsOf k l + runsOf k [pc].
Proof.
  induction l as [|[a pl|a id] r IH]; simpl runsOf in *; [destruct pc; lia| |done].
  rewrite IH. lia.
Qed.

Lemma runsOf_delete k l n pc :
  l !! n = Some pc -> runsOf k l = runsOf k (delete n l) + runsOf k [pc].
Proof.
  revert n. induction l as [|x r IH]; intros [|n] Hn; simpl in *; try done.
  - injection Hn as ->. destruct pc; simpl; lia.
  - rewrite (IH n Hn). destruct x; simpl; lia.
Qed.

Lemma length_delete_le (l : list pendingCall) n : (length (delete n l) <= length l)%nat.
Proof.
  revert n. induction l as [|x r IH]; intros [|n]; simpl; try lia.
  specialize (IH n). simpl in IH. lia.
Qed.

Lemma overshoot_mono p q : (p <= q)%nat -> overshoot p <= overshoot q.
Proof. unfold overshoot. lia. Qed.

Lemma bounded_mono p q sys : (p <= q)%nat -> bounded p sys -> bounded q sys.
Proof.
  intros Hpq [Hl Hb]. split; [lia|]. intros k c Hc. destruct (Hb k c Hc) as [H0 H1].
  simpl in *. pose proof (overshoot_mono p q Hpq). split; [done|lia].
Qed.

Lemma floorAt_mono p q r : (p <= q)%nat -> floorAt p r -> floorAt q r.
Proof.
  intros Hpq. unfold floorAt. destruct (remainingOf r); [|done].
  pose proof (overshoot_mono p q Hpq). lia.
Qed.

Lemma remainingNow_from keys k rem :
  remainingNow keys k = Some rem -> exists c, keys !! k = Some c /\ rem = limit c - used c.
Proof.
  unfold remainingNow. destruct (String.eqb k ""); [done|].
  destruct (keys !! k) as [c|]; simpl; [|done]. intros [= <-]. by exists c.
Qed.

(** A response of the first segment reports the [remaining] of a customer
    as stored. *)
Lemma arrive_remaining cfg ep rq w s r :
  snd (arrive cfg ep rq w s) = Done r -> remainingFrom (demoKeys s) r.
Proof.
  unfold remainingFrom. destruct ep; simpl; try (by intros [= <-]).
  - destruct (verifyVmizeKey _ _) as [r'|c k] eqn:Ev.
    + intros [= <-]. by rewrite (verify_rejected_remaining _ _ _ Ev).
    + destruct (doTryOn_begin_shape cfg w
                  {| a_customer := c; a_apiKey := k; a_body := body rq |} s)
        as [[m ->]|[p ->]]; [|done].
      intros [= <-]. simpl. destruct (remainingNow _ _) as [rem|] eqn:E; [|done].
      apply remainingNow_from in E as (c' & Hc' & ->). by exists k, c'.
  - destruct (verifyVmizeKey _ _) as [r'|c k] eqn:Ev.
    + intros [= <-]. by rewrite (verify_rejected_remaining _ _ _ Ev).
    + destruct (doTryOn_begin_shape cfg w
                  {| a_customer := c; a_apiKey := k; a_body := body rq |} s)
        as [[m ->]|[p ->]]; [|done].
      intros [= <-]. simpl. destruct (remainingNow _ _) as [rem|] eqn:E; [|done].
      apply remainingNow_from in E as (c' & Hc' & ->). by exists k, c'.
  - destruct (verifyVmizeKey _ _) as [r'|c k] eqn:Ev.
    + intros [= <-]. by rewrite (verify_rejected_remaining _ _ _ Ev).
    + unfold status_begin. destruct (present (FASHN_API_KEY cfg)); simpl; [done|].
      pose proof (statusCatch_plain w 0 {| a_customer := c; a_apiKey := k; a_body := body rq |}
                    id "FASHN_API_KEY not configured" s) as H.
      destruct (statusCatch _ _ _ _ _ _) as [s' r']. simpl in *.
      intros [= <-]. by rewrite H.
  - destruct (verifyVmizeKey _ _) as [r'|c k] eqn:Ev.
    + intros [= <-]. by rewrite (verify_rejected_remaining _ _ _ Ev).
    + apply verify_admitted in Ev as (_ & _ & _ & Hc & _).
      intros [= <-]. simpl. by exists k, c.
Qed.

(** A response of the second segment reports the [remaining] of a
    customer as the segment leaves it. *)
Lemma complete_remaining w pc res s :
  remainingFrom (demoKeys (fst (complete w pc res s))) (snd (complete w pc res s)).
Proof.
  unfold remainingFrom. destruct pc as [a pl|a id]; simpl.
  - rewrite doTryOn_end_remaining.
    destruct (remainingNow _ _) as [rem|] eqn:E; [|done].
    apply remainingNow_from in E as (c' & Hc' & ->). by exists (a_apiKey a), c'.
  - by rewrite status_end_plain.
Qed.

Lemma bounded_floor p sys r :
  bounded p sys -> remainingFrom (demoKeys (srv sys)) r -> floorAt p r.
Proof.
  intros [_ Hb]. unfold remainingFrom, floorAt.
  destruct (remainingOf r) as [rem|]; [|done].
  intros (k & c & Hc & ->). destruct (Hb k c Hc) as [_ H]. simpl in H.
  pose proof (runsOf_bounds k (inflight sys)). lia.
Qed.

(** One step keeps the invariant, for a bound that covers the handlers
    suspended after it, and its response, if any, respects the floor. *)
Lemma bounded_step cfg p sys ev :
  bounded p sys -> Forall (floorAt p) (replies sys) ->
  bounded (Nat.max p (length (inflight (step cfg sys ev)))) (step cfg sys ev) /\
  Forall (floorAt (Nat.max p (length (inflight (step cfg sys ev)))))
         (replies (step cfg sys ev)).
Proof.
  intros Hb Hf.
  assert (Hkeep : forall q, (p <= q)%nat -> Forall (floorAt q) (replies sys)).
  { intros q Hq. eapply Forall_impl; [exact Hf|]. intros r. by apply floorAt_mono. }
  assert (Hres : forall sys', bounded (Nat.max p (length (inflight sys'))) sys' ->
            (replies sys' = replies sys \/
             exists r, replies sys' = replies sys ++ [r] /\
                       remainingFrom (demoKeys (srv sys')) r) ->
            bounded (Nat.max p (length (inflight sys'))) sys' /\
            Forall (floorAt (Nat.max p (length (inflight sys')))) (replies sys')).
  { intros sys' Hb' Hr. split; [done|].
    destruct Hr as [->|(r & -> & Hr)]; [apply Hkeep; lia|].
    apply Forall_app. split; [apply Hkeep; lia|].
    constructor; [|constructor]. by apply (bounded_floor _ sys'). }
  destruct Hb as [Hl Hb]. destruct ev as [ep rq w|n res w]; simpl.
  - pose proof (arrive_effect cfg ep rq w (srv sys)) as H.
    pose proof (arrive_remaining cfg ep rq w (srv sys)) as Hrem.
    destruct (arrive cfg ep rq w (srv sys)) as [s' pr]. simpl in H, Hrem.
    destruct H as [(_ & Hk & ->)|(Hk & [(r & ->)|[(a & id & ->)|(c & k0 & pl & -> & Hc & Hlt)]])].
    + apply Hres; simpl.
      * split; simpl; [lia|]. rewrite Hk. intros k c'. rewrite lookup_fmap.
        destruct (demoKeys (srv sys) !! k) as [c|] eqn:E; simpl; [|done].
        intros [= <-]. destruct (Hb k c E) as [H0 _]. simpl in *. split; [done|].
        pose proof (runsOf_bounds k (inflight sys)). unfold overshoot. lia.
      * right. exists (Reply 200 ResetDone). by split.
    + apply Hres; simpl.
      * apply (bounded_mono p); [lia|]. split; simpl; [done|]. by rewrite Hk.
      * right. exists r. split; [done|]. simpl. rewrite Hk. by apply Hrem.
    + apply Hres; simpl; [|by left].
      split; simpl; [lia|]. rewrite Hk. intros k c Hc. destruct (Hb k c Hc) as [H0 H1].
      simpl in *. rewrite runsOf_app. simpl runsOf. rewrite length_app. simpl length.
      split; [done|]. unfold overshoot in *. lia.
    + apply Hres; simpl; [|by left].
      split; simpl; [lia|]. rewrite Hk. intros k c' Hc'. destruct (Hb k c' Hc') as [H0 H1].
      simpl in *. rewrite runsOf_app. simpl runsOf. rewrite length_app. simpl length.
      split; [done|].
      pose proof (runsOf_bounds k (inflight sys)).
      destruct (String.eqb k0 k) eqn:E.
      * apply String.eqb_eq in E. subst k0. rewrite Hc in Hc'. injection Hc' as <-.
        unfold overshoot in *. lia.
      * unfold overshoot in *. lia.
  - destruct (inflight sys !! n) as [pc|] eqn:En.
    + pose proof (complete_demoKeys w pc res (srv sys)) as Hk.
      pose proof (complete_remaining w pc res (srv sys)) as Hrem.
      destruct (complete w pc res (srv sys)) as [s' r]. simpl in Hk, Hrem.
      apply Hres; simpl; [|right; by exists r].
      pose proof (length_delete_le (inflight sys) n) as Hlen.
      pose proof (fun k => runsOf_delete k _ _ _ En) as Hdel.
      apply (bounded_mono p); [lia|]. split; simpl; [lia|]. rewrite Hk.
      assert (Hsame : map_Forall
                (fun k c => 0 < limit c /\
                   used c + runsOf k (delete n (inflight sys)) <= limit c + overshoot p)
                (demoKeys (srv sys))).
      { intros k c Hc. destruct (Hb k c Hc) as [H0 H1]. simpl in H0, H1.
        specialize (Hdel k). pose proof (runsOf_bounds k [pc]) as Hpc.
        simpl length in Hpc. split; [done|lia]. }
      destruct pc as [a pl|a id]; [|done].
      destruct (upstreamSucceeded res); [|done].
      unfold counted. destruct (String.eqb (a_apiKey a) "") eqn:Ea; [done|].
      intros k c'. rewrite lookup_alter. case_decide as Hka; [|apply Hsame].
      subst k. destruct (demoKeys (srv sys) !! a_apiKey a) as [c|] eqn:Ec; simpl; [|done].
      intros [= <-]. destruct (Hb _ c Ec) as [H0 H1]. simpl in *.
      specialize (Hdel (a_apiKey a)). simpl runsOf in Hdel.
      rewrite String.eqb_refl in Hdel. split; [done|lia].
    + apply Hres; [|by left]. apply (bounded_mono p); [lia|]. by split.
Qed.

Lemma peak_covers cfg evs sys : (length (inflight sys) <= peak cfg evs sys)%nat.
Proof. destruct evs; simpl; lia. Qed.

Lemma bounded_run cfg evs sys p :
  bounded p sys -> Forall (floorAt p) (replies sys) ->
  bounded (Nat.max p (peak cfg evs sys)) (run cfg evs sys) /\
  Forall (floorAt (Nat.max p (peak cfg evs sys))) (replies (run cfg evs sys)).
Proof.
  revert sys p. unfold run. induction evs as [|ev evs IH]; intros sys p Hb Hf; simpl.
  - split; [apply (bounded_mono p); [lia|done]|].
    eapply Forall_impl; [exact Hf|]. intros r. apply floorAt_mono. lia.
  - destruct (bounded_step cfg p sys ev Hb Hf) as [Hb' Hf'].
    destruct (IH _ _ Hb' Hf') as [Hb2 Hf2].
    pose proof (peak_covers cfg evs (step cfg sys ev)) as Hp.
    pose proof (proj1 Hb) as Hl.
    replace (Nat.max p (Nat.max (length (inflight sys)) (peak cfg evs (step cfg sys ev))))
      with (Nat.max (Nat.max p (length (inflight (step cfg sys ev))))
                    (peak cfg evs (step cfg sys ev))) by lia.
    done.
Qed.

(** X8. Starting with no request in flight and every customer within a
    positive limit, whatever requests arrive and in whatever order their
    upstream calls return, a counter passes its limit by at most one less
    than the largest number of handlers suspended at once (and not at all
    when requests are handled one at a time), and no response reports a
    [remaining] below minus that. *)
Theorem usage_overshoot_bounded_by_inflight :
  forall (cfg : config) (evs : list event) (s : server),
    withinLimits (demoKeys s) ->
    map_Forall (fun _ c => used c <= limit c + overshoot (peak cfg evs (idle s)))
               (demoKeys (srv (run cfg evs (idle s)))) /\
    Forall (floorAt (peak cfg evs (idle s))) (replies (run cfg evs (idle s))).
Proof.
  intros cfg evs s Hs.
  destruct (bounded_run cfg evs (idle s) 0) as [[_ Hb] Hf].
  - split; [simpl; lia|]. intros k c Hc. destruct (Hs k c Hc). simpl in *.
    unfold overshoot. lia.
  - constructor.
  - simpl Nat.max in *. split; [|done].
    intros k c Hc. destruct (Hb k c Hc) as [_ H]. simpl in *.
    pose proof (runsOf_bounds k (inflight (run cfg evs (idle s)))). lia.
Qed.

(** X8 at two submissions in flight at once for the customer at 99 of
    100: the counter ends at 101, one above the limit. *)
Lemma usage_overshoot_two_in_flight :
  map_Forall (fun _ c => used c <= limit c + 1)
             (demoKeys (srv (run liveConfig twoInFlight (idle almostFull)))) /\
  used <$> demoKeys (srv (run liveConfig twoInFlight (idle almostFull))) !! demoKey = Some 101.
Proof.
  destruct (usage_overshoot_bounded_by_inflight liveConfig twoInFlight almostFull) as [H _].
  { intros k c. unfold almostFull. simpl. rewrite lookup_singleton.
    case_decide; [|done]. intros [= <-]. simpl. lia. }
  split; [exact H|by vm_compute].
Defined.

End Overshoot.

Section TrackerUnderTraffic.
Import Js Analytics Gateway Runs Cases Traffic.

Lemma tryOnCatch_wellFormed w n a m s :
  wellFormed (analytics s) -> wellFormed (analytics (fst (tryOnCatch w n a m s))).
Proof. intros H. simpl. by apply trackEvent_wellFormed, trackApiCall_wellFormed. Qed.

Lemma doTryOn_end_wellFormed w a res s :
  wellFormed (analytics s) -> wellFormed (analytics (fst (doTryOn_end w a res s))).
Proof.
  intros H. unfold doTryOn_end.
  destruct res as [st d|st|m]; try by apply tryOnCatch_wellFormed.
  destruct (400 <=? st); [by apply tryOnCatch_wellFormed|].
  pose proof (trackApiCall_wellFormed (tick w 0%nat)
    {| cd_customerId := cidOf (a_customer a); cd_apiKey := Some (a_apiKey a);
       cd_endpoint := "/api/tryon"; cd_method := "POST"; cd_status := StStr "success";
       cd_duration := elapsed w; cd_productId := productId (a_body a);
       cd_error := None |} (analytics s) H) as H1.
  destruct (trackApiCall _ _ _) as [t1 [call|m]]; simpl in *; [done|].
  by apply trackEvent_wellFormed, trackApiCall_wellFormed.
Qed.

Lemma statusCatch_wellFormed w n a id m s :
  wellFormed (analytics s) ->
  wellFormed (analytics (fst (statusCatch w n a id m s))) /\
  snd (statusCatch w n a id m s) = Reply 500 (ErrorOnly m).
Proof.
  intros H. unfold statusCatch.
  pose proof (trackApiCall_wellFormed (tick w n)
    {| cd_customerId := Some (customerId (a_customer a)); cd_apiKey := Some (a_apiKey a);
       cd_endpoint := "/api/tryon/" +:+ id; cd_method := "GET"; cd_status := StStr "error";
       cd_duration := elapsed w; cd_productId := None; cd_error := Some m |}
    (analytics s) H) as H1.
  pose proof (trackApiCall_ok (tick w n)
    {| cd_customerId := Some (customerId (a_customer a)); cd_apiKey := Some (a_apiKey a);
       cd_endpoint := "/api/tryon/" +:+ id; cd_method := "GET"; cd_status := StStr "error";
       cd_duration := elapsed w; cd_productId := None; cd_error := Some m |}
    (analytics s) H) as H2.
  destruct (trackApiCall _ _ _) as [t1 r]. simpl in *. by subst r.
Qed.

Lemma status_begin_wellFormed cfg w a id s :
  wellFormed (analytics s) ->
  wellFormed (analytics (fst (status_begin cfg w a id s))) /\
  (forall r, snd (status_begin cfg w a id s) = Done r -> answered r).
Proof.
  intros H. unfold status_begin. destruct (present (FASHN_API_KEY cfg)); simpl; [done|].
  destruct (statusCatch_wellFormed w 0 a id "FASHN_API_KEY not configured" s H) as [H1 H2].
  destruct (statusCatch _ _ _ _ _ _) as [s' r]. simpl in *. split; [done|].
  intros r' [= <-]. subst r. by eexists.
Qed.

Lemma status_end_wellFormed w a id res s :
  wellFormed (analytics s) ->
  wellFormed (analytics (fst (status_end w a id res s))) /\
  answered (snd (status_end w a id res s)).
Proof.
  intros H. unfold status_end.
  assert (Hc : forall m, wellFormed (analytics (fst (statusCatch w 0 a id m s))) /\
                         answered (snd (statusCatch w 0 a id m s))).
  { intros m. destruct (statusCatch_wellFormed w 0 a id m s H) as [H1 ->].
    split; [done|by eexists]. }
  destruct res as [st d|st|m]; try apply Hc.
  destruct ((st =? 0) || (400 <=? st)); [apply Hc|].
  pose proof (trackApiCall_wellFormed (tick w 0%nat)
    {| cd_customerId := Some (customerId (a_customer a)); cd_apiKey := Some (a_apiKey a);
       cd_endpoint := "/api/tryon/" +:+ id; cd_method := "GET"; cd_status := StStr "success";
       cd_duration := elapsed w; cd_productId := None; cd_error := None |}
    (analytics s) H) as H1.
  pose proof (trackApiCall_ok (tick w 0%nat)
    {| cd_customerId := Some (customerId (a_customer a)); cd_apiKey := Some (a_apiKey a);
       cd_endpoint := "/api/tryon/" +:+ id; cd_method := "GET"; cd_status := StStr "success";
       cd_duration := elapsed w; cd_productId := None; cd_error := None |}
    (analytics s) H) as H2.
  destruct (trackApiCall _ _ _) as [t1 r]. simpl in *. subst r. simpl.
  split; [|by eexists].
  destruct (match fd_status d with Some x => String.eqb x "completed" | None => false end);
    [|done].
  by do 2 apply trackEvent_wellFormed.
Qed.

Lemma verify_rejected_answered keys h r : verifyVmizeKey keys h = Rejected r -> answered r.
Proof.
  unfold verifyVmizeKey, answered. destruct h as [k|]; [|intros [= <-]; by eexists].
  destruct (String.eqb k ""); [intros [= <-]; by eexists|].
  destruct (String.prefix "vmize_pk_" k); simpl; [|intros [= <-]; by eexists].
  destruct (keys !! k) as [c|]; [|intros [= <-]; by eexists].
  destruct (limit c <=? used c); [intros [= <-]; by eexists|done].
Qed.

Lemma arrive_wellFormed cfg ep rq w s :
  wellFormed (analytics s) ->
  wellFormed (analytics (fst (arrive cfg ep rq w s))) /\
  (forall r, snd (arrive cfg ep rq w s) = Done r -> answered r).
Proof.
  intros H.
  assert (Htry : isTryOn ep = true ->
    wellFormed (analytics (fst (arrive cfg ep rq w s))) /\
    (forall r, snd (arrive cfg ep rq w s) = Done r -> answered r)).
  { intros Hep. rewrite (arrive_tryOn _ _ _ _ _ Hep).
    destruct (verifyVmizeKey _ _) as [r|c k] eqn:Ev.
    - split; [done|]. intros r' [= <-]. by eapply verify_rejected_answered.
    - split; [by apply doTryOn_begin_wellFormed|].
      destruct (doTryOn_begin_shape cfg w
                  {| a_customer := c; a_apiKey := k; a_body := body rq |} s)
        as [[m ->]|[p ->]]; [|done].
      intros r' [= <-]. by eexists. }
  destruct ep; try (by apply Htry); simpl.
  - split; [done|]. intros r [= <-]. by eexists.
  - split; [by apply trackEvent_wellFormed|]. intros r [= <-]. by eexists.
  - split; [done|]. intros r [= <-]. by eexists.
  - split; [by apply trackEvent_wellFormed|]. intros r [= <-]. by eexists.
  - destruct (verifyVmizeKey _ _) as [r|c k] eqn:Ev.
    + split; [done|]. intros r' [= <-]. by eapply verify_rejected_answered.
    + by apply status_begin_wellFormed.
  - destruct (verifyVmizeKey _ _) as [r|c k] eqn:Ev.
    + split; [done|]. intros r' [= <-]. by eapply verify_rejected_answered.
    + split; [done|]. intros r' [= <-]. by eexists.
  - split; [apply reset_wellFormed|]. intros r [= <-]. by eexists.
Qed.

Lemma complete_wellFormed w pc res s :
  wellFormed (analytics s) ->
  wellFormed (analytics (fst (complete w pc res s))) /\
  answered (snd (complete w pc res s)).
Proof.
  intros H. destruct pc as [a pl|a id]; simpl; [|by apply status_end_wellFormed].
  split; [by apply doTryOn_end_wellFormed|].
  unfold doTryOn_end. destruct res as [st d|st|m]; try by eexists.
  destruct (400 <=? st); [by eexists|].
  destruct (trackApiCall _ _ _) as [t1 [call|m]]; by eexists.
Qed.

Lemma step_wellFormed cfg sys ev :
  wellFormed (analytics (srv sys)) -> Forall answered (replies sys) ->
  wellFormed (analytics (srv (step cfg sys ev))) /\
  Forall answered (replies (step cfg sys ev)).
Proof.
  intros Hw Hr. destruct ev as [ep rq w|n res w]; simpl.
  - destruct (arrive_wellFormed cfg ep rq w (srv sys) Hw) as [H1 H2].
    destruct (arrive cfg ep rq w (srv sys)) as [s' [r|pc]]; simpl in *; [|done].
    split; [done|]. apply Forall_app. split; [done|]. constructor; [by apply H2|constructor].
  - destruct (inflight sys !! n) as [pc|]; [|done].
    destruct (complete_wellFormed w pc res (srv sys) Hw) as [H1 H2].
    destruct (complete w pc res (srv sys)) as [s' r]. simpl in *.
    split; [done|]. apply Forall_app. split; [done|]. by repeat constructor.
Qed.

(** X9. When the tracker starts well formed (as the constructor and
    [reset] leave it), whatever requests arrive and in whatever order their
    upstream calls return, the tracker stays well formed (every rollup
    balances and every day holds a [Set]) and every request that reaches
    its end is answered: no handler dies on a tracking error. *)
Theorem tracker_survives_traffic :
  forall (cfg : config) (evs : list event) (s : server),
    wellFormed (analytics s) ->
    wellFormed (analytics (srv (run cfg evs (idle s)))) /\
    Forall answered (replies (run cfg evs (idle s))).
Proof.
  intros cfg evs s Hs.
  assert (H : forall sys, wellFormed (analytics (srv sys)) -> Forall answered (replies sys) ->
              wellFormed (analytics (srv (run cfg evs sys))) /\
              Forall answered (replies (run cfg evs sys))).
  { unfold run. induction evs as [|ev evs IH]; intros sys Hw Hr; simpl; [done|].
    destruct (step_wellFormed cfg sys ev Hw Hr) as [H1 H2]. by apply IH. }
  apply H; [done|constructor].
Qed.

(** X9 at a status poll between a submission and its upstream result. *)
Lemma tracker_survives_poll :
  wellFormed (analytics (srv (run liveConfig pollWhileRunning (idle demoStore)))) /\
  map statusOf (replies (run liveConfig pollWhileRunning (idle demoStore))) =
    [Some 200; Some 200].
Proof.
  destruct (tracker_survives_traffic liveConfig pollWhileRunning demoStore) as [H _].
  { apply started_wellFormed. }
  split; [exact H|by vm_compute].
Defined.

End TrackerUnderTraffic.

Section StatusRoute.
Import Js Analytics Gateway Runs Cases Traffic.

Lemma handle_status_demoKeys cfg id rq w res w' s :
  demoKeys (fst (handle cfg (GetStatus id) rq w res w' s)) = demoKeys s.
Proof.
  unfold handle. simpl. destruct (verifyVmizeKey _ _) as [r|c k]; [done|].
  destruct (status_begin_effect cfg w
              {| a_customer := c; a_apiKey := k; a_body := body rq |} id s)
    as [Hk [[r Hr]|Hr]];
    destruct (status_begin _ _ _ _ _) as [s1 p]; simpl in *; subst p; [done|].
  simpl. by rewrite status_end_demoKeys.
Qed.

(** X10. A status poll never changes [demoKeys], whatever the upstream
    provider answers: polling costs no quota. It is nevertheless behind
    the quota check: for a customer at or over the limit the poll is
    answered 429 with no upstream call, so the result of the call that
    used up the quota cannot be polled. *)
Theorem status_poll_costs_nothing_but_needs_quota :
  forall (cfg : config) (id : string) (rq : request) (w w' : world)
         (res : axiosResult) (s : server),
    demoKeys (fst (handle cfg (GetStatus id) rq w res w' s)) = demoKeys s /\
    (forall k c,
       effectiveKey (GetStatus id) rq = Some k -> String.eqb k "" = false ->
       String.prefix "vmize_pk_" k = true -> demoKeys s !! k = Some c ->
       limit c <= used c ->
       handle cfg (GetStatus id) rq w res w' s =
         (s, Reply 429 (QuotaInfo "Usage limit exceeded" (limit c) (used c))) /\
       calledUpstream cfg (GetStatus id) rq w s = false).
Proof.
  intros. split; [apply handle_status_demoKeys|].
  intros k c Hk E0 Ep Hc Hle. unfold effectiveKey in Hk. simpl in Hk.
  unfold handle, calledUpstream. simpl.
  rewrite Hk, (verify_wellformed_key _ _ _ E0 Ep Hc).
  destruct (limit c <=? used c) eqn:E; [done|]. apply Z.leb_gt in E. lia.
Qed.

(** X10 at the customer at 99 of 100, after the call that uses up the
    quota. *)
Lemma status_poll_refused_after_last_call :
  handle liveConfig (GetStatus "pred_123") (withKey (Some demoKey) bothImages) calm
         (AxResponse 200 completed) calm
         (fst (handle liveConfig PostTryOn (withKey (Some demoKey) bothImages) calm
                 (AxResponse 200 queued) calm almostFull)) =
    (fst (handle liveConfig PostTryOn (withKey (Some demoKey) bothImages) calm
            (AxResponse 200 queued) calm almostFull),
     Reply 429 (QuotaInfo "Usage limit exceeded" 100 100)).
Proof.
  destruct (status_poll_costs_nothing_but_needs_quota liveConfig "pred_123"
              (withKey (Some demoKey) bothImages) calm calm (AxResponse 200 completed)
              (fst (handle liveConfig PostTryOn (withKey (Some demoKey) bothImages) calm
                      (AxResponse 200 queued) calm almostFull))) as [_ H].
  exact (proj1 (H demoKey
                  {| customerId := "demo_customer"; email := "demo@example.com";
                     plan := "starter"; limit := 100; used := 100 |}
                  eq_refl eq_refl eq_refl ltac:(by vm_compute) ltac:(simpl; lia))).
Defined.

Lemma statusCatch_analytics w n a id m s :
  eventCounts (tdata (analytics (fst (statusCatch w n a id m s)))) =
    eventCounts (tdata (analytics s)) /\
  length (apiCalls (tdata (analytics (fst (statusCatch w n a id m s))))) =
    S (length (apiCalls (tdata (analytics s)))).
Proof.
  unfold statusCatch.
  pose proof (eventCounts_trackApiCall (tick w n)
    {| cd_customerId := Some (customerId (a_customer a)); cd_apiKey := Some (a_apiKey a);
       cd_endpoint := "/api/tryon/" +:+ id; cd_method := "GET"; cd_status := StStr "error";
       cd_duration := elapsed w; cd_productId := None; cd_error := Some m |}
    (analytics s)) as H1.
  pose proof (proj1 (trackApiCall_log (tick w n)
    {| cd_customerId := Some (customerId (a_customer a)); cd_apiKey := Some (a_apiKey a);
       cd_endpoint := "/api/tryon/" +:+ id; cd_method := "GET"; cd_status := StStr "error";
       cd_duration := elapsed w; cd_productId := None; cd_error := Some m |}
    (analytics s))) as H2.
  destruct (trackApiCall _ _ _) as [t1 [call|m']]; simpl in *;
    rewrite H1, H2, length_app; simpl; split; [done|lia|done|lia].
Qed.

(** X11. For an admitted status poll with the upstream key configured and
    a well-formed tracker, the handler reaches its upstream call with the
    state unchanged, and then: a provider response with a status between 1
    and 399 and a body other than [null] is passed on unchanged with
    status 200, one call record is logged, and when the body says
    ['completed'] one [result_generated] and one [result_viewed] are
    counted (on every such poll); a rejected upstream call is answered
    500 with the fixed message ['Status check failed'], whatever the
    upstream error said, logs one call record and counts no event; a
    response with such a status and the body [null] is answered 500 after
    two call records, the success record and the error record of the
    [TypeError] that the read of [data.status] raises, and counts no
    event. *)
Theorem status_poll_results :
  forall (cfg : config) (id : string) (rq : request) (w w' : world) (s : server)
         (c : customer) (k : string),
    verifyVmizeKey (demoKeys s) (effectiveKey (GetStatus id) rq) = Allowed c k ->
    present (FASHN_API_KEY cfg) = true -> wellFormed (analytics s) ->
    arrive cfg (GetStatus id) rq w s
      = (s, Await (PendingStatus {| a_customer := c; a_apiKey := k; a_body := body rq |} id)) /\
    (forall st d, 0 < st < 400 ->
       snd (handle cfg (GetStatus id) rq w (AxResponse st d) w' s) = Reply 200 (StatusData d) /\
       eventCounts (tdata (analytics (fst (handle cfg (GetStatus id) rq w
                                             (AxResponse st d) w' s)))) =
         (if match fd_status d with Some x => String.eqb x "completed" | None => false end
          then countEvent "result_viewed"
                 (countEvent "result_generated" (eventCounts (tdata (analytics s))))
          else eventCounts (tdata (analytics s))) /\
       length (apiCalls (tdata (analytics (fst (handle cfg (GetStatus id) rq w
                                                  (AxResponse st d) w' s))))) =
         S (length (apiCalls (tdata (analytics s))))) /\
    (forall res, rejection res = true ->
       snd (handle cfg (GetStatus id) rq w res w' s) =
         Reply 500 (ErrorOnly "Status check failed") /\
       eventCounts (tdata (analytics (fst (handle cfg (GetStatus id) rq w res w' s)))) =
         eventCounts (tdata (analytics s)) /\
       length (apiCalls (tdata (analytics (fst (handle cfg (GetStatus id) rq w res w' s))))) =
         S (length (apiCalls (tdata (analytics s))))) /\
    (forall st, 0 < st < 400 ->
       let end_ := status_end_null w' {| a_customer := c; a_apiKey := k; a_body := body rq |}
                     id st s in
       statusOf (snd end_) = Some 500 /\
       demoKeys (fst end_) = demoKeys s /\
       eventCounts (tdata (analytics (fst end_))) = eventCounts (tdata (analytics s)) /\
       map call_status (apiCalls (tdata (analytics (fst end_)))) =
         map call_status (apiCalls (tdata (analytics s))) ++ [StStr "success"; StStr "error"]).
Proof.
  intros cfg id rq w w' s c k Hv Hkey Hw.
  unfold effectiveKey in Hv. simpl in Hv.
  set (a := {| a_customer := c; a_apiKey := k; a_body := body rq |}).
  assert (Ha : arrive cfg (GetStatus id) rq w s = (s, Await (PendingStatus a id))).
  { simpl. rewrite Hv. unfold status_begin. by rewrite Hkey. }
  assert (Hh : forall res, handle cfg (GetStatus id) rq w res w' s = status_end w' a id res s).
  { intros res. unfold handle. by rewrite Ha. }
  split; [exact Ha|]. split; [|split].
  - intros st d [H0 H4]. rewrite Hh. unfold status_end.
    destruct (st =? 0) eqn:E0; [apply Z.eqb_eq in E0; lia|].
    destruct (400 <=? st) eqn:E4; [apply Z.leb_le in E4; lia|]. simpl.
    set (cd := {| cd_customerId := Some (customerId (a_customer a));
                  cd_apiKey := Some (a_apiKey a);
                  cd_endpoint := "/api/tryon/" +:+ id; cd_method := "GET";
                  cd_status := StStr "success"; cd_duration := elapsed w';
                  cd_productId := None; cd_error := None |}).
    pose proof (trackApiCall_ok (tick w' 0%nat) cd (analytics s) Hw) as Hok.
    pose proof (eventCounts_trackApiCall (tick w' 0%nat) cd (analytics s)) as Hec.
    pose proof (proj1 (trackApiCall_log (tick w' 0%nat) cd (analytics s))) as Hlog.
    destruct (trackApiCall _ _ _) as [t1 r]. simpl in *. subst r. simpl.
    split; [done|].
    destruct (match fd_status d with Some x => String.eqb x "completed" | None => false end).
    + rewrite !eventCounts_trackEvent, Hec. split; [done|].
      unfold trackEvent. rewrite !saveData_tdata. simpl.
      rewrite Hlog, length_app. simpl. lia.
    + split; [done|]. rewrite Hlog, length_app. simpl. lia.
  - intros res Hrej. rewrite Hh.
    assert (Hs : status_end w' a id res s = statusCatch w' 0 a id "Status check failed" s).
    { by destruct res as [st d|st|m]. }
    rewrite Hs. destruct (statusCatch_wellFormed w' 0 a id "Status check failed" s Hw) as [_ ->].
    split; [done|]. apply statusCatch_analytics.
  - intros st [H0 H4]. cbv zeta. unfold status_end_null.
    destruct (st =? 0) eqn:E0; [apply Z.eqb_eq in E0; lia|].
    destruct (400 <=? st) eqn:E4; [apply Z.leb_le in E4; lia|]. simpl.
    set (cd := {| cd_customerId := Some (customerId c);
                  cd_apiKey := Some k;
                  cd_endpoint := "/api/tryon/" +:+ id; cd_method := "GET";
                  cd_status := StStr "success"; cd_duration := elapsed w';
                  cd_productId := None; cd_error := None |}).
    pose proof (trackApiCall_ok (tick w' 0%nat) cd (analytics s) Hw) as Hok.
    pose proof (trackApiCall_wellFormed (tick w' 0%nat) cd (analytics s) Hw) as Hw1.
    pose proof (eventCounts_trackApiCall (tick w' 0%nat) cd (analytics s)) as Hec.
    pose proof (proj1 (trackApiCall_log (tick w' 0%nat) cd (analytics s))) as Hlog.
    destruct (trackApiCall _ _ _) as [t1 r]. simpl in *. subst r.
    set (s1 := {| demoKeys := demoKeys s; analytics := t1 |}).
    set (msg := "Cannot read properties of null (reading 'status')").
    destruct (statusCatch_wellFormed w' 1 a id msg s1 Hw1) as [_ Hr].
    pose proof (statusCatch_demoKeys w' 1 a id msg s1) as Hk.
    destruct (statusCatch_analytics w' 1 a id msg s1) as [He _].
    fold a. split; [by rewrite Hr|]. split; [exact Hk|]. split; [by rewrite He|].
    unfold statusCatch.
    set (cd2 := {| cd_customerId := Some (customerId (a_customer a));
                   cd_apiKey := Some (a_apiKey a);
                   cd_endpoint := "/api/tryon/" +:+ id; cd_method := "GET";
                   cd_status := StStr "error"; cd_duration := elapsed w';
                   cd_productId := None; cd_error := Some msg |}).
    pose proof (proj1 (trackApiCall_log (tick w' 1%nat) cd2 (analytics s1))) as Hlog2.
    destruct (trackApiCall (tick w' 1%nat) cd2 (analytics s1)) as [t2 [call|m']];
      simpl in *; rewrite Hlog2, Hlog, !map_app, <- app_assoc; done.
Qed.

(** X11 at a prediction polled with the demo key: completed, timed out,
    and answered with the body [null]. *)
Lemma status_poll_completed :
  snd (handle liveConfig (GetStatus "pred_123") (withKey (Some demoKey) bothImages) calm
         (AxResponse 200 completed) calm demoStore) = Reply 200 (StatusData completed) /\
  snd (handle liveConfig (GetStatus "pred_123") (withKey (Some demoKey) bothImages) calm
         (AxError "socket hang up") calm demoStore) =
    Reply 500 (ErrorOnly "Status check failed") /\
  statusOf (snd (status_end_null calm
                   {| a_customer := demoCustomer; a_apiKey := demoKey; a_body := bothImages |}
                   "pred_123" 200 demoStore)) = Some 500.
Proof.
  destruct (status_poll_results liveConfig "pred_123" (withKey (Some demoKey) bothImages)
              calm calm demoStore demoCustomer demoKey eq_refl eq_refl
              (started_wellFormed _ _)) as (_ & H1 & H2 & H3).
  destruct (H1 200 completed ltac:(lia)) as [Hr _].
  destruct (H2 (AxError "socket hang up") eq_refl) as [Hf _].
  destruct (H3 200 ltac:(lia)) as [Hn _].
  split; [exact Hr|]. split; [exact Hf|].
  exact Hn.
Defined.

End StatusRoute.

Section ResetRoute.
Import Js Analytics Gateway Runs Cases Traffic.

(** X12. [POST /api/analytics/reset], which checks no key, answers 200
    whatever the header, leaves the tracker as the constructor does, sets
    the counter of every customer to zero without touching anything else
    of it, and so makes every customer with a positive limit admissible
    again. *)
Theorem reset_route_restores_every_quota :
  forall (cfg : config) (rq : request) (w : world) (s : server),
    snd (arrive cfg PostReset rq w s) = Done (Reply 200 ResetDone) /\
    tdata (analytics (fst (arrive cfg PostReset rq w s))) = initialData (iso (tick w 0%nat)) /\
    (forall k,
       used <$> demoKeys (fst (arrive cfg PostReset rq w s)) !! k =
         (fun _ => 0) <$> demoKeys s !! k /\
       identity <$> demoKeys (fst (arrive cfg PostReset rq w s)) !! k =
         identity <$> demoKeys s !! k) /\
    (forall k c,
       String.eqb k "" = false -> String.prefix "vmize_pk_" k = true ->
       demoKeys s !! k = Some c -> 0 < limit c ->
       verifyVmizeKey (demoKeys (fst (arrive cfg PostReset rq w s))) (Some k) =
         Allowed (resetUsed c) k).
Proof.
  intros cfg rq w s. split; [done|]. split.
  { simpl. unfold reset. by rewrite saveData_tdata. }
  change (demoKeys (fst (arrive cfg PostReset rq w s))) with (resetUsed <$> demoKeys s).
  split.
  - intros k. rewrite lookup_fmap. by destruct (demoKeys s !! k).
  - intros k c E0 Ep Hc Hl.
    assert (Hc' : (resetUsed <$> demoKeys s) !! k = Some (resetUsed c)).
    { by rewrite lookup_fmap, Hc. }
    rewrite (verify_wellformed_key _ _ _ E0 Ep Hc'). simpl.
    destruct (limit c <=? 0) eqn:E; [apply Z.leb_le in E; lia|done].
Qed.

(** X12 at the customer whose quota is used up: admitted again after a
    reset sent without a key. *)
Lemma reset_route_readmits :
  verifyVmizeKey
    (demoKeys (fst (arrive liveConfig PostReset (withKey None bothImages) calm
                      (fst (handle liveConfig PostTryOn (withKey (Some demoKey) bothImages)
                              calm (AxResponse 200 queued) calm almostFull)))))
    (Some demoKey) =
  Allowed {| customerId := "demo_customer"; email := "demo@example.com";
             plan := "starter"; limit := 100; used := 0 |} demoKey.
Proof.
  destruct (reset_route_restores_every_quota liveConfig (withKey None bothImages) calm
              (fst (handle liveConfig PostTryOn (withKey (Some demoKey) bothImages)
                      calm (AxResponse 200 queued) calm almostFull))) as (_ & _ & _ & H).
  exact (H demoKey
           {| customerId := "demo_customer"; email := "demo@example.com";
              plan := "starter"; limit := 100; used := 100 |}
           eq_refl eq_refl ltac:(by vm_compute) ltac:(simpl; lia)).
Defined.

End ResetRoute.


(** * Properties of the admin routes of the plain proxy *)

Section KeyLifecycle.
Import Proxy ProxyAdmin.

Lemma prefix_append (p s : string) : String.prefix p (p +:+ s) = true.
Proof.
  induction p as [|a p IH].
  - by destruct s.
  - change (String a p +:+ s) with (String a (p +:+ s)). simpl.
    by destruct (Ascii.ascii_dec a a).
Qed.

Lemma newKey_wellformed (customerId millis : string) :
  String.eqb (newKey customerId millis) "" = false /\
  String.prefix "vmize_pk_live_" (newKey customerId millis) = true.
Proof.
  unfold newKey. split; [reflexivity | apply prefix_append].
Qed.

Lemma planLimitOf_floor (plan : string) (limit : Z) :
  planLimitOf plan = Some limit -> 100 <= limit.
Proof.
  unfold planLimitOf. intros H.
  repeat (match type of H with (if ?b then _ else _) = _ => destruct b end);
    inversion H; lia.
Qed.

Lemma planLimitOf_own (plan : string) :
  inheritedName plan = false -> exists limit, planLimitOf plan = Some limit.
Proof.
  unfold planLimitOf. intros ->.
  repeat (match goal with |- context [if ?b then _ else _] => destruct b end);
    by eexists.
Qed.

Lemma verify_pristine (keys : gmap string customer) (k : string) (c : customer) :
  String.eqb k "" = false ->
  String.prefix "vmize_pk_live_" k = true ->
  keys !! k = Some c ->
  pristine c ->
  verifyCustomerApiKey keys (Some k) = Allowed c.
Proof.
  intros Hne Hpre Hk (Hst & Hu & Hl).
  unfold verifyCustomerApiKey. rewrite Hne, Hpre, Hk, Hst, Hu. simpl.
  destruct (Z.leb_spec (planLimit c) 0); [lia | done].
Qed.

Lemma planLimitOf_table (plan : string) (limit : Z) :
  planLimitOf plan = Some limit ->
  (plan = "starter" -> limit = 100) /\
  (plan = "professional" -> limit = 500) /\
  (plan = "business" -> limit = 2000) /\
  (plan = "enterprise" -> limit = 10000) /\
  (plan <> "starter" -> plan <> "professional" -> plan <> "business" ->
   plan <> "enterprise" -> limit = 100).
Proof.
  unfold planLimitOf. destruct (inheritedName plan); [done|].
  destruct (String.eqb_spec plan "starter") as [->|H1].
  { intros [= <-]. by repeat split. }
  destruct (String.eqb_spec plan "professional") as [->|H2].
  { intros [= <-]. by repeat split. }
  destruct (String.eqb_spec plan "business") as [->|H3].
  { intros [= <-]. by repeat split. }
  destruct (String.eqb_spec plan "enterprise") as [->|H4].
  { intros [= <-]. by repeat split. }
  intros [= <-]. by repeat split.
Qed.

(** X13. A key issued by [POST /admin/generate-key] is admitted at once with
    nothing used and the limit of its plan: 100 for starter, 500 for
    professional, 2000 for business, 10000 for enterprise and 100 for any
    other plan. The other keys are untouched; revoking the key answers
    200 and removes exactly that key, after which the key is answered 401
    and a second revocation 404. *)
Theorem issued_key_serves_until_revoked
    (keys : gmap string customer) (customerId plan email millis : string) :
  inheritedName plan = false ->
  exists limit keys1,
    let k := newKey customerId millis in
    serve keys (GenerateKey customerId plan email millis) = Some (keys1, Issued k) /\
    ((plan = "starter" -> limit = 100) /\
     (plan = "professional" -> limit = 500) /\
     (plan = "business" -> limit = 2000) /\
     (plan = "enterprise" -> limit = 10000) /\
     (plan <> "starter" -> plan <> "professional" -> plan <> "business" ->
      plan <> "enterprise" -> limit = 100)) /\
    100 <= limit /\
    verifyCustomerApiKey keys1 (Some k)
      = Allowed {| customerId := customerId; apiKey := k; plan := plan; email := email;
                   status := "active"; planLimit := limit; usageThisMonth := 0 |} /\
    getUsage keys1 (Some k)
      = mkReply 200 (UsageReport customerId plan 0 limit limit) /\
    (forall k', k' <> k -> keys1 !! k' = keys !! k') /\
    serve keys1 (RevokeKey k) = Some (delete k keys, Revoked) /\
    code (getUsage (delete k keys) (Some k)) = 401 /\
    serve (delete k keys) (RevokeKey k)
      = Some (delete k keys, Plain (mkReply 404 (Problem "Not Found" "API key not found"))).
Proof.
  intros Hown. destruct (planLimitOf_own plan Hown) as [limit Hl].
  pose proof (planLimitOf_floor _ _ Hl) as Hfloor.
  destruct (newKey_wellformed customerId millis) as [Hne Hpre].
  set (k := newKey customerId millis) in *.
  set (c := {| customerId := customerId; apiKey := k; plan := plan; email := email;
               status := "active"; planLimit := limit; usageThisMonth := 0 |}).
  exists limit, (<[k := c]> keys). cbv zeta.
  assert (Hv : verifyCustomerApiKey (<[k := c]> keys) (Some k) = Allowed c).
  { apply verify_pristine; try done. apply lookup_insert_eq. }
  split; [unfold serve, generateKey; fold k; by rewrite Hl|].
  split; [by apply planLimitOf_table|].
  split; [exact Hfloor|].
  split; [exact Hv|].
  split; [unfold getUsage; rewrite Hv; simpl; by rewrite Z.sub_0_r|].
  split; [intros k' Hk'; by apply lookup_insert_ne|].
  split; [unfold serve, revokeKey; rewrite lookup_insert_eq; by rewrite delete_insert_eq|].
  split.
  - unfold getUsage, verifyCustomerApiKey. rewrite Hne, Hpre, lookup_delete_eq. done.
  - unfold serve, revokeKey. by rewrite lookup_delete_eq.
Qed.

Lemma issued_key_demo :
  inheritedName "professional" = false /\
  exists keys1,
    let k := newKey "store123" "1736942400000" in
    serve ∅ (GenerateKey "store123" "professional" "owner@example.com" "1736942400000")
      = Some (keys1, Issued k) /\
    getUsage keys1 (Some k)
      = mkReply 200 (UsageReport "store123" "professional" 0 500 500) /\
    serve keys1 (RevokeKey k) = Some (delete k ∅, Revoked).
Proof.
  split; [reflexivity|].
  destruct (issued_key_serves_until_revoked ∅ "store123" "professional" "owner@example.com"
              "1736942400000" eq_refl)
    as (limit & keys1 & H1 & (_ & Hpro & _) & _ & _ & H3 & _ & H5 & _).
  exists keys1. cbv zeta. split; [exact H1|]. split; [|exact H5].
  rewrite H3. by rewrite (Hpro eq_refl).
Defined.

End KeyLifecycle.


Section NoMetering.
Import Proxy ProxyAdmin.

Lemma verify_pristine_cases (keys : gmap string customer) (header : option string) :
  map_Forall (fun _ => pristine) keys ->
  (exists c, verifyCustomerApiKey keys header = Allowed c) \/
  (exists r, verifyCustomerApiKey keys header = Rejected r /\ code r = 401).
Proof.
  intros Hkeys. unfold verifyCustomerApiKey.
  destruct header as [k|]; [|right; by eexists].
  destruct (String.eqb k ""); [right; by eexists|].
  destruct (negb _ && negb _); [right; by eexists|].
  destruct (keys !! k) as [c|] eqn:Hk; [|right; by eexists].
  destruct (Hkeys k c Hk) as (Hst & Hu & Hl). rewrite Hst, Hu. simpl.
  destruct (Z.leb_spec (planLimit c) 0); [lia|]. left. by eexists.
Qed.

Lemma serve_pristine (keys keys' : gmap string customer) (rq : request) (a : answer) :
  map_Forall (fun _ => pristine) keys ->
  serve keys rq = Some (keys', a) ->
  map_Forall (fun _ => pristine) keys' /\ In (codeOf a) [200; 400; 401; 404; 500].
Proof.
  intros Hkeys Hs. destruct rq as [cid pl em ms | k | h m g up | h id up | h]; simpl in Hs.
  - unfold generateKey in Hs. destruct (planLimitOf pl) as [limit|] eqn:Hl; [|done].
    simpl in Hs. injection Hs as <- <-. split; [|simpl; tauto].
    apply map_Forall_insert_2; [|done].
    repeat split. simpl. by eapply planLimitOf_floor.
  - unfold revokeKey in Hs. destruct (keys !! k); injection Hs as <- <-.
    + split; [by apply map_Forall_delete | simpl; tauto].
    + split; [done | simpl; tauto].
  - injection Hs as <- <-. split; [done|]. unfold postTryOn.
    destruct (verify_pristine_cases keys h Hkeys) as [[c ->] | (r & -> & Hr)].
    + destruct (negb _ || negb _); [simpl; tauto|].
      destruct up as [[] ?|]; simpl; tauto.
    + simpl. rewrite Hr. tauto.
  - injection Hs as <- <-. split; [done|]. unfold getStatus.
    destruct (verify_pristine_cases keys h Hkeys) as [[c ->] | (r & -> & Hr)].
    + destruct up as [[] ?|]; simpl; tauto.
    + simpl. rewrite Hr. tauto.
  - injection Hs as <- <-. split; [done|]. unfold getUsage.
    destruct (verify_pristine_cases keys h Hkeys) as [[c ->] | (r & -> & Hr)].
    + simpl; tauto.
    + simpl. rewrite Hr. tauto.
Qed.

Lemma serve_own (keys : gmap string customer) (rq : request) :
  ownPlans [rq] = true -> exists keys' a, serve keys rq = Some (keys', a).
Proof.
  intros Hown. destruct rq as [cid pl em ms | k | h m g up | h id up | h]; simpl.
  - simpl in Hown. rewrite andb_true_r in Hown. apply negb_true_iff in Hown.
    destruct (planLimitOf_own pl Hown) as [limit Hl].
    unfold generateKey. rewrite Hl. simpl. by do 2 eexists.
  - destruct (revokeKey k keys). by do 2 eexists.
  - by do 2 eexists.
  - by do 2 eexists.
  - by do 2 eexists.
Qed.

Lemma serveAll_pristine (rqs : list request) (keys : gmap string customer) :
  ownPlans rqs = true ->
  map_Forall (fun _ => pristine) keys ->
  exists keys' answers,
    serveAll keys rqs = Some (keys', answers) /\
    length answers = length rqs /\
    map_Forall (fun _ => pristine) keys' /\
    Forall (fun a => In (codeOf a) [200; 400; 401; 404; 500]) answers.
Proof.
  revert keys. induction rqs as [|rq rest IH]; intros keys Hown Hkeys.
  - exists keys, []. split; [done|]. split; [done|]. split; [done|]. constructor.
  - unfold ownPlans in Hown. cbn [forallb] in Hown.
    apply andb_true_iff in Hown as [Hrq Hrest].
    destruct (serve_own keys rq) as (keys1 & a & Hs).
    { unfold ownPlans. cbn [forallb]. by rewrite andb_true_r. }
    destruct (serve_pristine _ _ _ _ Hkeys Hs) as [Hkeys1 Ha].
    destruct (IH keys1 Hrest Hkeys1) as (keys2 & l & Hall & Hlen & Hkeys2 & Hl).
    exists keys2, (a :: l). simpl. rewrite Hs. simpl. rewrite Hall. simpl.
    split; [done|]. split; [by rewrite Hlen|]. split; [done|]. by constructor.
Qed.

(** X14. The plain proxy stores no usage ([trackUsage] only logs): started
    with its empty map, it answers every request of any sequence, the
    stored usage of every customer stays 0 below a limit of at least 100,
    and no response is ever 429 (quota) or 403 (inactive): the status
    codes are 200, 400, 401, 404 and 500 only. *)
Theorem plain_proxy_never_meters (rqs : list request) :
  ownPlans rqs = true ->
  exists keys answers,
    serveAll ∅ rqs = Some (keys, answers) /\
    length answers = length rqs /\
    map_Forall (fun _ c => usageThisMonth c = 0 /\ 100 <= planLimit c) keys /\
    Forall (fun a => In (codeOf a) [200; 400; 401; 404; 500]) answers.
Proof.
  intros Hown.
  destruct (serveAll_pristine rqs ∅ Hown) as (keys & answers & Hall & Hlen & Hkeys & Hl).
  { apply map_Forall_empty. }
  exists keys, answers. split; [done|]. split; [done|]. split; [|done].
  intros k c Hk. destruct (Hkeys k c Hk) as (_ & Hu & Hlim). done.
Qed.

Lemma plain_proxy_life_of_a_key :
  ownPlans lifeOfAKey = true /\
  exists keys answers,
    serveAll ∅ lifeOfAKey = Some (keys, answers) /\
    map codeOf answers = [200; 200; 200; 200; 200; 401].
Proof.
  split; [reflexivity|].
  destruct (plain_proxy_never_meters lifeOfAKey eq_refl) as (keys & answers & Hall & _).
  exists keys, answers. split; [exact Hall|].
  assert (Hc : (map codeOf ∘ snd) <$> serveAll ∅ lifeOfAKey
               = Some [200; 200; 200; 200; 200; 401]) by (by vm_compute).
  rewrite Hall in Hc. simpl in Hc. by inversion Hc.
Defined.

End NoMetering.


(** * Properties of the admin routes *)

Section Upsell.
Import AdminRoutes.

Lemma getPlanLimit_own (p : string) :
  inheritedName p = false -> exists l, getPlanLimit p = Some l.
Proof.
  unfold getPlanLimit. intros ->.
  repeat (match goal with |- context [if ?b then _ else _] => destruct b end);
    by eexists.
Qed.

Lemma getPlanLimit_inherited (p : string) (l : Z) :
  getPlanLimit p = Some l -> inheritedName p = false.
Proof. unfold getPlanLimit. by destruct (inheritedName p). Qed.

Lemma next_plan_limit (p : string) (l : Z) :
  getPlanLimit p = Some l ->
  exists nextPlan,
    getNextPlan p = Some nextPlan /\ (l < limit nextPlan <-> p <> "enterprise").
Proof.
  unfold getPlanLimit, getNextPlan. destruct (inheritedName p); [done|].
  destruct (String.eqb_spec p "starter") as [->|_].
  { intros [= <-]. eexists. split; [done|]. simpl. split; [done | lia]. }
  destruct (String.eqb_spec p "professional") as [->|_].
  { intros [= <-]. eexists. split; [done|]. simpl. split; [done | lia]. }
  destruct (String.eqb_spec p "business") as [->|_].
  { intros [= <-]. eexists. split; [done|]. simpl. split; [done | lia]. }
  destruct (String.eqb_spec p "enterprise") as [->|Hne].
  { intros [= <-]. eexists. split; [done|]. simpl. split; [lia | done]. }
  intros [= <-]. eexists. split; [done|]. simpl. split; [done | lia].
Qed.

(** X15. Every entry of [GET /admin/upsell-opportunities] is an active
    customer of the collection at 80% or more of its plan's limit whose
    plan is not enterprise; the near-limit filter of [GET /admin/customers]
    returns that customer too, and the plan recommended to it always has
    a strictly larger limit than its current one. *)
Theorem upsell_recommends_larger_plan
    (collection : list customerDoc) (o : opportunity) :
  In o (upsellOpportunities collection) ->
  exists c l nextPlan,
    In c collection /\ o = opportunityOf c /\
    subscriptionStatus c = "active" /\
    In c (nearLimit collection) /\
    currentPlan o <> "enterprise" /\
    oppLimit o = Some l /\ 80 * l <= 100 * usage o /\
    recommendedPlan o = Some nextPlan /\ l < limit nextPlan.
Proof.
  unfold upsellOpportunities. intros Ho.
  apply in_map_iff in Ho as (c & <- & Hc).
  apply list_elem_of_In, list_elem_of_filter in Hc as [Hl Hc].
  apply list_elem_of_filter in Hc as [Hact Hc].
  unfold listed in Hl. apply andb_true_iff in Hl as [H80 Hne].
  apply negb_true_iff in Hne. apply String.eqb_neq in Hne.
  destruct (getPlanLimit (plan c)) as [l|] eqn:Hlim; [|done].
  destruct (next_plan_limit _ _ Hlim) as (nextPlan & Hnext & Hlarger).
  exists c, l, nextPlan. simpl.
  split; [by apply list_elem_of_In|]. split; [done|]. split; [done|].
  split.
  { apply list_elem_of_In. unfold nearLimit. apply list_elem_of_filter.
    split; [by rewrite Hlim | done]. }
  split; [done|]. split; [done|]. split; [simpl in H80; lia|].
  split; [done | by apply Hlarger].
Qed.

Lemma upsell_sample_opportunity :
  In (opportunityOf (mkCustomerDoc "c1" "Alpha" "a@example.com" "starter" "active" (Some 85)
        (Some [("2025-01", 90); ("2025-02", 40)])))
     (upsellOpportunities sampleCollection) /\
  upsellOpportunities sampleCollection
    = [mkOpportunity "c1" "Alpha" "a@example.com" "starter" 85 (Some 100)
         (Some (mkOffer "Professional" 79 500))] /\
  exists c l nextPlan, In c sampleCollection /\ l < limit nextPlan /\ _id c = "c1".
Proof.
  assert (Hin : In (opportunityOf (mkCustomerDoc "c1" "Alpha" "a@example.com" "starter"
                      "active" (Some 85) (Some [("2025-01", 90); ("2025-02", 40)])))
                   (upsellOpportunities sampleCollection)) by (left; reflexivity).
  split; [exact Hin|]. split; [reflexivity|].
  destruct (upsell_recommends_larger_plan sampleCollection _ Hin)
    as (c & l & nextPlan & Hc & Ho & _ & _ & _ & _ & _ & _ & Hlt).
  exists c, l, nextPlan. split; [exact Hc|]. split; [exact Hlt|].
  exact (eq_sym (f_equal customerId Ho)).
Defined.

(** X16. [POST /admin/send-upsell-email] checks no plan: for every customer
    whose plan has no inherited name the mail is built and sent, and the
    plan it recommends has a larger limit than the current one exactly
    when the customer is not on the enterprise plan (an enterprise
    customer is recommended Professional with 500 try-ons); with a wrong
    admin token nothing is sent. *)
Theorem upsell_email_recommendation
    (secret header : option string) (c : customerDoc) :
  inheritedName (plan c) = false ->
  (requireAdmin secret header = false ->
     forall customer updated, sendUpsellEmail secret header customer updated = Forbidden) /\
  (requireAdmin secret header = true ->
     exists l nextPlan,
       getPlanLimit (plan c) = Some l /\
       sendUpsellEmail secret header (Docs (Some c)) true
         = EmailSent (email c) nextPlan (usageOf c) l /\
       (l < limit nextPlan <-> plan c <> "enterprise") /\
       (plan c = "enterprise" -> l = 10000 /\ nextPlan = mkOffer "Professional" 79 500)).
Proof.
  intros Hown. split.
  - intros Hno customer updated. unfold sendUpsellEmail. by rewrite Hno.
  - intros Hyes. destruct (getPlanLimit_own _ Hown) as [l Hl].
    destruct (next_plan_limit _ _ Hl) as (nextPlan & Hnext & Hlarger).
    exists l, nextPlan. split; [done|]. split.
    { unfold sendUpsellEmail. by rewrite Hyes, Hl, Hnext. }
    split; [done|]. intros Hent. rewrite Hent in Hl, Hnext.
    vm_compute in Hl, Hnext. by inversion Hl; inversion Hnext.
Qed.

Lemma upsell_email_to_enterprise :
  sendUpsellEmail (Some "s3cret") (Some "s3cret")
    (Docs (Some (mkCustomerDoc "c2" "Beta" "b@example.com" "enterprise" "active" (Some 9900)
                   (Some [("2025-01", 7000)])))) true
  = EmailSent "b@example.com" (mkOffer "Professional" 79 500) 9900 10000.
Proof.
  destruct (upsell_email_recommendation (Some "s3cret") (Some "s3cret")
              (mkCustomerDoc "c2" "Beta" "b@example.com" "enterprise" "active" (Some 9900)
                 (Some [("2025-01", 7000)])) eq_refl) as [_ H].
  destruct (H eq_refl) as (l & nextPlan & _ & Hsent & _ & Hent).
  destruct (Hent eq_refl) as [-> ->]. exact Hsent.
Defined.

End Upsell.


Section UsageByMonth.
Import AdminRoutes.

Lemma monthTotal_app (month : string) (es fs : list (string * Z)) :
  monthTotal month (es ++ fs) = monthTotal month es + monthTotal month fs.
Proof.
  induction es as [|h es IH]; simpl; [done|].
  destruct (String.eqb (fst h) month); lia.
Qed.

Lemma monthSeen_app (month : string) (es fs : list (string * Z)) :
  monthSeen month (es ++ fs) = monthSeen month es || monthSeen month fs.
Proof. unfold monthSeen. apply existsb_app. Qed.

Lemma addMonth_replays (t : gmap string Z) (es : list (string * Z)) (h : string * Z) :
  replays t es ->
  inheritedName (fst h) = false ->
  exists t', addMonth (Some t) h = Some t' /\ replays t' (es ++ [h]).
Proof.
  intros Ht Hown. unfold addMonth. simpl. rewrite Hown.
  eexists. split; [done|]. intros month.
  rewrite monthSeen_app, monthTotal_app. simpl. rewrite orb_false_r.
  pose proof (Ht (fst h)) as Hh. pose proof (Ht month) as Hm.
  destruct (String.eqb_spec (fst h) month) as [<-|Hne].
  - rewrite orb_true_r. rewrite lookup_alter_eq.
    destruct (monthSeen (fst h) es).
    + rewrite Hh. destruct (monthTotal (fst h) es =? 0) eqn:Hz.
      * rewrite lookup_insert_eq. simpl. apply Z.eqb_eq in Hz. f_equal. lia.
      * rewrite Hh. simpl. f_equal. lia.
    + rewrite Hh. rewrite lookup_insert_eq. simpl.
      f_equal.
      assert (monthTotal (fst h) es = 0) as ->; [|lia].
      clear -Hh Ht. pose proof (Ht (fst h)) as H. clear Ht.
      assert (Hs : monthSeen (fst h) es = false).
      { destruct (monthSeen (fst h) es); [by rewrite Hh in H|done]. }
      revert Hs. generalize (fst h). intros m. clear.
      induction es as [|e es IH]; simpl; [done|].
      destruct (String.eqb (fst e) m); simpl; [done|]. apply IH.
  - rewrite orb_false_r, Z.add_0_r.
    rewrite lookup_alter_ne by done.
    destruct (t !! fst h) as [v|]; [destruct (v =? 0)|];
      rewrite ?lookup_insert_ne by done; exact Hm.
Qed.

Lemma addMonths_replay (hs es : list (string * Z)) (t : gmap string Z) :
  replays t es ->
  ownMonths hs = true ->
  exists t', fold_left addMonth hs (Some t) = Some t' /\ replays t' (es ++ hs).
Proof.
  revert es t. induction hs as [|h hs IH]; intros es t Ht Hown.
  - exists t. by rewrite app_nil_r.
  - unfold ownMonths in Hown. cbn [forallb] in Hown.
    apply andb_true_iff in Hown as [Hh Hhs]. apply negb_true_iff in Hh.
    destruct (addMonth_replays t es h Ht Hh) as (t1 & H1 & Ht1).
    destruct (IH (es ++ [h]) t1 Ht1 Hhs) as (t2 & H2 & Ht2).
    exists t2. cbn [fold_left]. rewrite H1. split; [done|].
    by rewrite <- app_assoc in Ht2.
Qed.

Lemma ownMonths_app (es fs : list (string * Z)) :
  ownMonths (es ++ fs) = ownMonths es && ownMonths fs.
Proof. unfold ownMonths. apply forallb_app. Qed.

Lemma addCustomers_replay (cs : list customerDoc) (es : list (string * Z))
    (t : gmap string Z) :
  replays t es ->
  ownMonths (archived cs) = true ->
  exists t', fold_left addCustomer cs (Some t) = Some t' /\ replays t' (es ++ archived cs).
Proof.
  revert es t. induction cs as [|c cs IH]; intros es t Ht Hown.
  - exists t. unfold archived. simpl. by rewrite app_nil_r.
  - change (archived (c :: cs)) with (default [] (history c) ++ archived cs) in *.
    rewrite ownMonths_app in Hown. apply andb_true_iff in Hown as [Hc Hcs].
    assert (exists t1, addCustomer (Some t) c = Some t1 /\
                       replays t1 (es ++ default [] (history c))) as (t1 & H1 & Ht1).
    { unfold addCustomer. destruct (history c) as [hs|]; simpl in *.
      - by apply addMonths_replay.
      - exists t. by rewrite app_nil_r. }
    destruct (IH _ t1 Ht1 Hcs) as (t2 & H2 & Ht2).
    exists t2. cbn [fold_left]. rewrite H1. split; [done|]. by rewrite <- app_assoc in Ht2.
Qed.

(** X17. [GET /admin/analytics/usage]: when no archived month has an
    inherited name, [usageByMonth] has a key for exactly the months that
    occur in some customer's history, and the value of each is the sum of
    the try-ons archived for that month over all customers. *)
Theorem usage_by_month_replays_histories (customers : list customerDoc) :
  ownMonths (archived customers) = true ->
  exists table,
    usageByMonth customers = Some table /\
    forall month,
      table !! month
      = if monthSeen month (archived customers)
        then Some (monthTotal month (archived customers))
        else None.
Proof.
  intros Hown.
  destruct (addCustomers_replay customers [] ∅) as (t & Ht & Hrep); [done | done |].
  exists t. split; [exact Ht | exact Hrep].
Qed.

Lemma usage_by_month_sample :
  ownMonths (archived sampleCollection) = true /\
  exists table,
    usageByMonth sampleCollection = Some table /\
    table !! "2025-01" = Some 7090 /\
    table !! "2025-02" = Some 40 /\
    table !! "2025-03" = None.
Proof.
  split; [reflexivity|].
  destruct (usage_by_month_replays_histories sampleCollection eq_refl) as (table & Ht & H).
  exists table. split; [exact Ht|].
  split; [exact (H "2025-01") | split; [exact (H "2025-02") | exact (H "2025-03")]].
Defined.

End UsageByMonth.


(** * Properties of the origin check and of the try-on route *)

Section Origins.
Import Cors.

Lemma split_nonempty (sep : ascii) (s : string) : split sep s <> [].
Proof.
  destruct s as [|c r]; simpl; [done|].
  destruct (Ascii.eqb c sep); [done|]. by destruct (split sep r).
Qed.

Lemma split_free (sep : ascii) (s : string) :
  contains sep s = false -> split sep s = [s].
Proof.
  induction s as [|c r IH]; simpl; [done|].
  intros H. apply orb_false_iff in H as [Hc Hr].
  rewrite Hc, (IH Hr). done.
Qed.

Lemma split_append (sep : ascii) (a r : string) :
  contains sep a = false ->
  split sep (a ++ String sep r) = a :: split sep r.
Proof.
  induction a as [|c a IH]; simpl.
  - intros _. by rewrite Ascii.eqb_refl.
  - intros H. apply orb_false_iff in H as [Hc Ha].
    rewrite Hc, (IH Ha). done.
Qed.

Lemma split_cons (sep : ascii) (s a : string) (l : list string) :
  split sep s = a :: l ->
  contains sep a = false /\
  match l with
  | [] => s = a
  | _ :: _ => exists r, s = (a ++ String sep r)%string /\ split sep r = l
  end.
Proof.
  revert a l. induction s as [|c r IH]; simpl; intros a l H.
  - by inversion H.
  - destruct (Ascii.eqb_spec c sep) as [->|Hne].
    + inversion H; subst. split; [done|].
      pose proof (split_nonempty sep r) as Hn.
      destruct (split sep r) eqn:Hs; [done|]. by exists r.
    + destruct (split sep r) as [|h t] eqn:Hs; [by destruct (split_nonempty sep r)|].
      inversion H; subst. destruct (IH h l eq_refl) as [Hh Hl].
      split.
      * simpl. apply orb_false_iff. split; [by apply Ascii.eqb_neq | done].
      * destruct l as [|b l']; [by rewrite Hl|].
        destruct Hl as (r' & -> & Hr'). by exists r'.
Qed.

Lemma split_concat (sep : ascii) (origins : list string) :
  origins <> [] ->
  forallb (fun o => negb (contains sep o)) origins = true ->
  split sep (String.concat (String sep EmptyString) origins) = origins.
Proof.
  induction origins as [|o os IH]; [done|]. intros _ H.
  cbn [forallb] in H. apply andb_true_iff in H as [Ho Hos]. apply negb_true_iff in Ho.
  destruct os as [|o' os'].
  - simpl. by apply split_free.
  - change (String.concat (String sep "") (o :: o' :: os'))
      with (o ++ String sep (String.concat (String sep "") (o' :: os')))%string.
    rewrite split_append by done. by rewrite IH.
Qed.

Lemma existsb_Some_In (s : string) (l : list string) :
  existsb (fun a => match a with Some t => String.eqb t s | None => false end) (map Some l)
  = true <-> In s l.
Proof.
  induction l as [|x l IH]; simpl; [done|].
  rewrite orb_true_iff, IH. split; intros [H|H]; auto.
  - left. by apply String.eqb_eq.
  - left. by apply String.eqb_eq.
Qed.

(** X18. With [ALLOWED_ORIGINS] set to origins joined by commas (at least
    one, none containing a comma), the origin check lets a request
    through exactly when it has no origin or an empty one, or its origin
    is character for character [FRONTEND_URL], one of the four local
    origins of the code, or one of the listed origins. *)
Theorem configured_origins_are_the_allowed_ones
    (FRONTEND_URL : option string) (origins : list string) (o : string) :
  listable origins = true ->
  origin FRONTEND_URL (Some (String.concat "," origins)) (Some o) = true
  <-> o = "" \/ FRONTEND_URL = Some o \/ In o builtIn \/ In o origins.
Proof.
  unfold listable. intros H. apply andb_true_iff in H as [Hlen Hfree].
  assert (Hne : origins <> []) by (by destruct origins).
  unfold origin, allowedOrigins.
  rewrite (split_concat "," origins Hne Hfree).
  destruct (String.eqb_spec o "") as [->|Ho]; [by split; auto|].
  rewrite existsb_app, orb_true_iff, existsb_Some_In.
  change [FRONTEND_URL; Some "http://localhost:3000"; Some "http://localhost:5000";
          Some "http://127.0.0.1:5000"; Some "http://localhost:5173"]
    with (FRONTEND_URL :: map Some builtIn).
  cbn [existsb]. rewrite orb_true_iff, existsb_Some_In.
  split.
  - intros [[H|H]|H]; auto.
    destruct FRONTEND_URL as [t|]; [|done]. apply String.eqb_eq in H. subst. auto.
  - intros [H|[H|[H|H]]]; [done | | by auto | by auto].
    subst. left. left. apply String.eqb_refl.
Qed.

Lemma configured_origins_demo :
  listable ["https://shop.example.com"; "https://www.example.com"] = true /\
  origin None (Some "https://shop.example.com,https://www.example.com")
    (Some "https://www.example.com") = true /\
  origin None (Some "https://shop.example.com,https://www.example.com")
    (Some "http://malicious.example.com") = false.
Proof.
  split; [reflexivity|].
  pose proof (configured_origins_are_the_allowed_ones None
                ["https://shop.example.com"; "https://www.example.com"]) as H.
  split.
  - apply (H "https://www.example.com" eq_refl). right. right. right. right. by left.
  - apply not_true_is_false. intros Hyes.
    apply (H "http://malicious.example.com" eq_refl) in Hyes.
    destruct Hyes as [Hyes|[Hyes|[Hyes|Hyes]]]; try discriminate.
    + simpl in Hyes. repeat (destruct Hyes as [Hyes|Hyes]; [discriminate|]). done.
    + simpl in Hyes. repeat (destruct Hyes as [Hyes|Hyes]; [discriminate|]). done.
Defined.

End Origins.

Section Generate.
Import Js Cors TryonRoute.

Lemma append_empty (s : string) : (s ++ "")%string = s.
Proof.
  induction s as [|c s IH]; [done|].
  change (String c s ++ "")%string with (String c (s ++ "")). by rewrite IH.
Qed.

(** X19. [verifyJwt] hands to [jwt.verify] exactly the second of the parts
    of the header that single spaces separate: a header [Bearer <token>]
    with a token that is not empty and has no space is decided by
    [jwt.verify] of that token, and whenever a request passes, its header
    starts with [Bearer ] followed by the verified token, which is not
    empty, has no space and ends at the end of the header or at the next
    space. *)
Theorem bearer_token_round_trip (user : Type) (verify : string -> option user) :
  (forall token,
     token <> "" -> contains " " token = false ->
     verifyJwt verify (Some ("Bearer " ++ token)%string)
     = match verify token with
       | Some u => inl u
       | None => inr InvalidToken
       end) /\
  (forall authorization u,
     verifyJwt verify authorization = inl u ->
     exists token rest,
       authorization = Some ("Bearer " ++ token ++ rest)%string /\
       verify token = Some u /\
       token <> "" /\ contains " " token = false /\
       (rest = "" \/ exists r, rest = String " " r)).
Proof.
  split.
  - intros token Hne Hfree. unfold verifyJwt, bearerToken.
    change ("Bearer " ++ token)%string with ("Bearer" ++ String " " token)%string.
    rewrite split_append by reflexivity.
    rewrite (split_free " " token Hfree). cbn [String.eqb].
    change (String.eqb "Bearer" "Bearer") with true. cbv iota.
    apply String.eqb_neq in Hne. by rewrite Hne.
  - intros authorization u. unfold verifyJwt.
    destruct (bearerToken authorization) as [token|] eqn:Htok; [|done].
    destruct (verify token) as [u'|] eqn:Hv; [|done]. intros [= ->].
    unfold bearerToken in Htok.
    set (auth := match authorization with Some s => s | None => "" end) in *.
    destruct (split " " auth) as [|first rest] eqn:Hs; [done|].
    destruct (String.eqb_spec first "Bearer") as [->|]; [|done].
    destruct rest as [|second rest']; [done|].
    destruct (String.eqb_spec second "") as [|Hne]; [done|].
    injection Htok as ->.
    destruct (split_cons _ _ _ _ Hs) as [_ (r & Hauth & Hr)].
    destruct (split_cons _ _ _ _ Hr) as [Hfree Hrest].
    assert (Ha : authorization = Some auth).
    { subst auth. destruct authorization; [done|]. by rewrite Hauth in Hs. }
    destruct rest' as [|third rest''].
    + exists token, "". subst r. rewrite Ha, Hauth.
      split; [by rewrite append_empty|]. by auto.
    + destruct Hrest as (r' & -> & _). exists token, (String " " r').
      rewrite Ha, Hauth. split; [done|]. split; [done|]. split; [done|].
      split; [done|]. right. by eexists.
Qed.

Lemma orElse_truthy (a : option json) (b : json) :
  truthy b = true -> truthy (default JNull (orElse a (Some b))) = true.
Proof.
  intros Hb. unfold orElse. destruct (truthyOpt a) eqn:Ha; [|done].
  by destruct a.
Qed.

Lemma orElse_null (a : option json) :
  default JNull (orElse a (Some JNull)) = JNull \/
  truthy (default JNull (orElse a (Some JNull))) = true.
Proof.
  unfold orElse. destruct (truthyOpt a) eqn:Ha; [|by left].
  right. by destruct a.
Qed.

(** X20. [POST /generate] of routes/tryon.js, after [verifyJwt]: it answers
    400 without calling the provider exactly when an image is missing or
    empty; otherwise every body of the provider other than [null] is
    answered 200, whatever it says; an [imageUrl] in a response is never
    empty, and a response without one has a status that is never empty
    (['processing'] by default) and an id that is [null] or not empty. *)
Theorem generate_answers (modelImage garmentImage : option json) (up : upstream) :
  let r := fst (generate modelImage garmentImage up) in
  let called := snd (generate modelImage garmentImage up) in
  (r = MissingImages <-> truthyOpt modelImage && truthyOpt garmentImage = false) /\
  (called = false <-> r = MissingImages) /\
  (forall body, up = Resolved body -> body <> JNull -> r <> MissingImages -> code r = 200) /\
  (forall v, r = Image v -> truthy v = true) /\
  (forall id status, r = Processing id status ->
     truthy status = true /\ (id = JNull \/ truthy id = true)).
Proof.
  cbv zeta. unfold generate.
  destruct (truthyOpt modelImage), (truthyOpt garmentImage); simpl;
    try (repeat split; intros; done).
  destruct up as [body|message]; simpl.
  2: { repeat split; intros; done. }
  set (found := if truthy body then _ else _).
  destruct (truthyOpt found) eqn:Hf; simpl.
  - repeat split; try (intros; done).
    intros v [= <-]. by destruct found.
  - assert (Hp : forall id status : json,
               Processing
                 (default JNull (orElse (prop body "id") (Some JNull)))
                 (default JNull (orElse (prop body "status") (Some (JStr "processing"))))
               = Processing id status ->
               truthy status = true /\ (id = JNull \/ truthy id = true)).
    { intros id status [= <- <-]. split; [by apply orElse_truthy | apply orElse_null]. }
    destruct body; simpl.
    1: { split; [done|]. split; [done|]. split; [by intros b [= <-] Hb|]. done. }
    all: split; [done|]; split; [done|]; split; [done|]; split; [done | exact Hp].
Qed.

Lemma generate_mocked_body :
  generate (Some (JStr "data:image/png;base64,FAKE_MODEL_IMAGE"))
           (Some (JStr "data:image/png;base64,FAKE_GARMENT_IMAGE")) (Resolved mockedBody)
  = (Image (JStr "https://example.com/fake-tryon.jpg"), true) /\
  code (fst (generate (Some (JStr "m")) (Some (JStr "g"))
               (Resolved (JObj [("error", JStr "Unauthorized")])))) = 200.
Proof.
  split; [reflexivity|].
  pose proof (generate_answers (Some (JStr "m")) (Some (JStr "g"))
                (Resolved (JObj [("error", JStr "Unauthorized")]))) as (_ & _ & H & _).
  apply (H _ eq_refl); discriminate.
Defined.

End Generate.
